(** * mounter-elite-plus: the ISO mount engine and its orchestrator

    A shallow embedding of [src/isocmd/mount.cpp] (with the helper
    [extractDirectoryAndFilename] of [sanitization_extraction_readline.cpp])
    and the properties of the selection parser, of the mount-point
    derivation, of the per-image mount state machine and of the task
    orchestration.

    Conventions.
    - [std::string] is [string]; [std::set<std::string>] is [gset string];
      [std::set<int>] is [gset Z]; [int] and [size_t] values are [Z] (or [N]
      for the hash, which is only divided), with the casts written out.
    - Calls that can throw return an [exc] value; a function that is left by
      an exception ends as [Raised], with the state it had reached, and a
      calling thread that nothing catches for is [Aborted].
    - Threads are interleaved at the grain of one closure of the pool: a
      schedule is a list of moves, and the statements hold for every
      schedule.
    - The operating system is an explicit [world]: the directory entries
      under [/mnt], the effective user id, and the trace of the system calls
      made so far.  What the system answers to a call that the program cannot
      predict (does this image mount with this driver?) is read from an
      [os_behaviour] record. *)

From stdpp Require Import base numbers strings list gmap sets pretty.
From Stdlib Require Import Ascii String ZArith Lia.

Local Open Scope string_scope.
Local Open Scope Z_scope.
Local Open Scope list_scope.

(** ** C++ string primitives *)

Module Cpp.

(** [std::isdigit] in the "C" locale. *)
Definition isdigit (c : ascii) : bool :=
  match Ascii.is_nat c with Some _ => true | None => false end.

(** [std::all_of(s.begin(), s.end(), pred)]: true on the empty range. *)
Fixpoint all_of (pred : ascii → bool) (s : string) : bool :=
  match s with
  | EmptyString => true
  | String c r => pred c && all_of pred r
  end.

(** [std::count(s.begin(), s.end(), c)]. *)
Fixpoint count (c : ascii) (s : string) : nat :=
  match s with
  | EmptyString => 0%nat
  | String a r => ((if decide (a = c) then 1 else 0) + count c r)%nat
  end.

(** [s.find(c)]: position of the first [c], [None] for [npos]. *)
Fixpoint find (c : ascii) (s : string) : option nat :=
  match s with
  | EmptyString => None
  | String a r => if decide (a = c) then Some 0%nat else S <$> find c r
  end.

(** [s.find(c, pos)]. *)
Fixpoint find_from (c : ascii) (pos : nat) (s : string) : option nat :=
  match pos, s with
  | O, _ => find c s
  | S p, EmptyString => None
  | S p, String _ r => S <$> find_from c p r
  end.

(** [s.find_first_of(set, pos)] for a set of two characters (in the source,
    slash and backslash). *)
Fixpoint find_first_of (c1 c2 : ascii) (pos : nat) (s : string) : option nat :=
  match pos, s with
  | _, EmptyString => None
  | O, String a r =>
      if decide (a = c1 ∨ a = c2) then Some 0%nat
      else S <$> find_first_of c1 c2 0 r
  | S p, String _ r => S <$> find_first_of c1 c2 p r
  end.

(** [s.rfind(c)]: position of the last [c]. *)
Fixpoint rfind (c : ascii) (s : string) : option nat :=
  match s with
  | EmptyString => None
  | String a r =>
      match rfind c r with
      | Some i => Some (S i)
      | None => if decide (a = c) then Some 0%nat else None
      end
  end.

(** [s.substr(pos, len)] and [s.substr(pos)], for [pos <= s.size()]. *)
Definition substr (s : string) (pos len : nat) : string := substring pos len s.
Definition substr_from (s : string) (pos : nat) : string :=
  substring pos (String.length s - pos) s.

(** [s[i]]; reading at [s.size()] yields the terminating zero. *)
Definition at_index (s : string) (i : nat) : ascii :=
  match String.get i s with Some c => c | None => "000"%char end.

(** [s.find(needle)] for a string needle. *)
Definition find_str (needle s : string) : option nat := String.index 0 needle s.

(** [s.replace(pos, len, by)]. *)
Definition replace (s : string) (pos len : nat) (by_ : string) : string :=
  substr s 0 pos +:+ by_ +:+ substr_from s (pos + len).

(** The two bounds of [int] and the width of [size_t]. *)
Definition INT_MAX : Z := 2147483647.
Definition INT_MIN : Z := -2147483648.
Definition SIZE_WIDTH : Z := 2 ^ 64.

(** [static_cast<size_t>(n)] of an [int]. *)
Definition to_size_t (n : Z) : Z := n `mod` SIZE_WIDTH.

(** [std::to_string(int)]. *)
Definition to_string (n : Z) : string := pretty n.

(** Exceptions of the standard library that the code meets. *)
Inductive exn :=
  | invalid_argument
  | out_of_range
  | filesystem_error (what : string).

(** A computation that returns or throws. *)
Inductive exc (A : Type) :=
  | Ret (a : A)
  | Throw (e : exn).
Global Arguments Ret {A} a.
Global Arguments Throw {A} e.

Definition bind {A B} (m : exc A) (k : A → exc B) : exc B :=
  match m with Ret a => k a | Throw e => Throw e end.

(** [std::stoi(s)]: skip white space, read an optional sign and the longest
    run of decimal digits; no digit is [invalid_argument], a value outside
    [int] is [out_of_range]. *)
Fixpoint skip_space (s : string) : string :=
  match s with
  | String c r => if Ascii.is_space c then skip_space r else s
  | EmptyString => EmptyString
  end.

Fixpoint digits_value (acc : Z) (seen : bool) (s : string) : option Z :=
  match s with
  | String c r =>
      match Ascii.is_nat c with
      | Some d => digits_value (10 * acc + Z.of_nat d) true r
      | None => if seen then Some acc else None
      end
  | EmptyString => if seen then Some acc else None
  end.

Definition stoi (s : string) : exc Z :=
  let s1 := skip_space s in
  let '(neg, s2) :=
    match s1 with
    | String "-" r => (true, r)
    | String "+" r => (false, r)
    | _ => (false, s1)
    end in
  match digits_value 0 false s2 with
  | None => Throw invalid_argument
  | Some v =>
      let n := if neg : bool then - v else v in
      if (INT_MIN <=? n) && (n <=? INT_MAX) then Ret n else Throw out_of_range
  end.

(** [iss >> token] until the stream fails: the white-space separated words. *)
Definition tokens_of (input : string) : list string := String.words input.

End Cpp.

Global Instance exc_bind : MBind Cpp.exc := λ A B k m, Cpp.bind m k.
Global Instance exc_ret : MRet Cpp.exc := λ A a, Cpp.Ret a.

(** ** [std::filesystem::path::stem] *)

Module Path.

(** [path::filename()]: what follows the last directory separator. *)
Definition filename (p : string) : string :=
  match Cpp.rfind "/" p with
  | None => p
  | Some i => Cpp.substr_from p (S i)
  end.

(** [path::stem()]: the file name without its last extension; a leading
    period does not start an extension, and the names [.] and [..] are kept. *)
Definition stem (p : string) : string :=
  let f := filename p in
  if decide (f = "." ∨ f = "..") then f
  else match Cpp.rfind "." f with
       | None | Some O => f
       | Some i => Cpp.substr f 0 i
       end.

End Path.

(** ** Mount-point derivation (mount.cpp, lines 305-323) *)

Section MountPoint.

(** [std::hash<std::string>]: implementation defined, fixed within a process. *)
Variable hasher : string → N.

Definition base36Chars : string := "0123456789abcdefghijklmnopqrstuvwxyz".

(** The loop [for (int i = 0; i < 5; ++i)] over [shortHash] and [hashValue]. *)
Fixpoint shortHashLoop (n : nat) (hashValue : N) (shortHash : string) : string :=
  match n with
  | O => shortHash
  | S n' =>
      shortHashLoop n' (hashValue `div` 36)%N
        (shortHash +:+ String (Cpp.at_index base36Chars (N.to_nat (hashValue `mod` 36)%N)) EmptyString)
  end.

Definition shortHashOf (isoFile : string) : string :=
  shortHashLoop 5 (hasher isoFile) EmptyString.

Definition uniqueId (isoFile : string) : string :=
  Path.stem isoFile +:+ "_" +:+ shortHashOf isoFile.

Definition mountPointOf (isoFile : string) : string :=
  "/mnt/iso_" +:+ uniqueId isoFile.

End MountPoint.


(** ** Sanitisation helpers (sanitization_extraction_readline.cpp) *)

Module Sanitization.

Definition backslash : ascii := "092"%char.

(** The four characters quote, backslash, quote, quote. *)
Definition escaped_quote : string := "'" +:+ String backslash "''".

(** [shell_escape]: every single quote becomes [escaped_quote], the whole is
    put between single quotes. *)
Fixpoint escape_chars (s : string) : string :=
  match s with
  | EmptyString => EmptyString
  | String c r =>
      if decide (c = "'"%char) then escaped_quote +:+ escape_chars r
      else String c (escape_chars r)
  end.
Definition shell_escape (s : string) : string := "'" +:+ escape_chars s +:+ "'".

(** One directory component: cut at the first space when it lies within the
    first 28 characters, else cut to 28 characters. *)
Definition maxComponentSize : nat := 28.
Definition shorten (component : string) : string :=
  match Cpp.find " " component with
  | Some spacePos =>
      if (spacePos <=? maxComponentSize)%nat then Cpp.substr component 0 spacePos
      else Cpp.substr component 0 maxComponentSize
  | None => Cpp.substr component 0 maxComponentSize
  end.

(** The [while (currentSlashPos != npos)] loop; it returns the stream and
    [lastSlashPos].  Each round moves [lastSlashPos] past one separator, so
    [fuel] rounds with [fuel] above the length of [path] always suffice. *)
Fixpoint dirLoop (fuel : nat) (path : string) (lastSlashPos : nat)
    (currentSlashPos : option nat) (dirStream : string) : string * nat :=
  match fuel, currentSlashPos with
  | S fuel', Some cur =>
      let component := Cpp.substr path lastSlashPos (cur - lastSlashPos) in
      let dirStream' := dirStream +:+ shorten component +:+ "/" in
      let lastSlashPos' := S cur in
      dirLoop fuel' path lastSlashPos'
        (Cpp.find_first_of "/" backslash lastSlashPos' path) dirStream'
  | _, _ => (dirStream, lastSlashPos)
  end.

(** [directory.pop_back()] when the last character is a slash. *)
Fixpoint drop_last_slash (s : string) : string :=
  match s with
  | EmptyString => EmptyString
  | String c EmptyString => if decide (c = "/"%char) then EmptyString else s
  | String c r => String c (drop_last_slash r)
  end.

(** One entry of [replacements]: the first occurrence of [oldDir] becomes
    [newDir]. *)
Definition replace_first (oldDir newDir directory : string) : string :=
  match Cpp.find_str oldDir directory with
  | Some pos => Cpp.replace directory pos (String.length oldDir) newDir
  | None => directory
  end.

(** The two keys cannot overlap and neither replacement creates the other
    key, so the iteration order of the [unordered_map] does not matter. *)
Definition extractDirectoryAndFilename (path : string) : string * string :=
  let '(dirStream, lastSlashPos) :=
    dirLoop (S (String.length path)) path 0
      (Cpp.find_first_of "/" backslash 0 path) EmptyString in
  let filename := Cpp.substr_from path lastSlashPos in
  let directory := drop_last_slash dirStream in
  (replace_first "/root" "/R" (replace_first "/home" "~" directory), filename).

End Sanitization.


(** ** The operating system as seen by the mount engine *)

(** An entry of the file system at a path. *)
Inductive node :=
  | RegularFile
  | Directory (entries : nat)
  | MountedFs (f_flag : Z).

(** The calls that leave the process, in the order they are made. *)
Inductive syscall :=
  | sys_statvfs (path : string)
  | sys_geteuid
  | sys_exists (path : string)
  | sys_create_directory (path : string)
  | sys_system (command : string)
  | sys_new_context
  | sys_mount (source target fstype options : string)
  | sys_remove (path : string)
  | sys_stderr (line : string).

Record world := World {
  euid : Z;
  nodes : gmap string node;
  trace : list syscall
}.

(** What the system answers where the program cannot know: the answer may
    depend on everything that happened before.  The three calls of
    [std::filesystem] on the mount point each have their error: [exists]
    fails when [stat] fails with anything but a missing entry (a name that is
    too long, a directory that cannot be searched), [create_directory] and
    [remove] fail when the entry cannot be written (a read-only file system,
    a missing permission).  [stat] and [rmdir] resolve the path as [mkdir]
    does, and [rmdir] needs the write access to the parent directory that
    [mkdir] needs: where the directory can be created, [exists] does not fail
    and the directory can be removed ([entry_errors_agree]). *)
Record os_behaviour := OsBehaviour {
  (** [f_flag] of the file system that holds a path nothing is mounted on *)
  host_f_flag : string → Z;
  (** [f_flag] of a freshly mounted read-only loop file system *)
  loop_f_flag : Z;
  (** [what()] of the error when [exists] fails on a path that has no entry *)
  exists_error : world → string → option string;
  (** [what()] of the error when [create_directory] fails *)
  create_directory_error : world → string → option string;
  (** [what()] of the error when [remove] fails for a reason of the host *)
  remove_error : world → string → option string;
  (** status returned by [system(command)] *)
  system_status : world → string → Z;
  (** does [mnt_new_context] return a context *)
  new_context_ok : world → bool;
  (** return code of [mnt_context_mount] for source, target, type *)
  mount_status : world → string → string → string → Z;
  entry_errors_agree :
    ∀ w path, create_directory_error w path = None →
              exists_error w path = None ∧ remove_error w path = None
}.

(** The four outcome sets: three are handed to [mountIsoFile], the fourth
    ([uniqueErrorMessages]) only to the orchestrator. *)
Record outcome_sets := OutcomeSets {
  mountedFiles : gset string;
  skippedMessages : gset string;
  mountedFails : gset string
}.

Definition ST_NODEV : Z := 4.

Definition ESC : string := String "027"%char EmptyString.

(** What a call leaves behind, with the state it had built: it returned, or
    it was left by an exception. *)
Inductive ended (A : Type) :=
  | Returned (a : A)
  | Raised (e : Cpp.exn) (a : A).
Global Arguments Returned {A} a.
Global Arguments Raised {A} e a.

Section MountEngine.

Variable os : os_behaviour.
Variable hasher : string → N.

Definition log (c : syscall) (w : world) : world :=
  World (euid w) (nodes w) (trace w ++ [c]).

(** [statvfs(path, &vfs)]: fails on a missing path. *)
Definition statvfs (w : world) (path : string) : option Z :=
  match nodes w !! path with
  | None => None
  | Some (MountedFs f) => Some f
  | Some _ => Some (host_f_flag os path)
  end.

(** mount.cpp, lines 269-277. *)
Definition isAlreadyMounted (w : world) (mountPoint : string) : bool * world :=
  let w' := log (sys_statvfs mountPoint) w in
  match statvfs w mountPoint with
  | None => (false, w')
  | Some f_flag => (Z.land f_flag ST_NODEV =? 0, w')
  end.

(** mount.cpp, lines 281-286. *)
Definition loadKernelModule (w : world) (moduleName : string) : bool * world :=
  let escapedModuleName := Sanitization.shell_escape moduleName in
  let command := "modprobe " +:+ escapedModuleName +:+ " 2>/dev/null" in
  let result := system_status os w command in
  (result =? 0, log (sys_system command) w).

(** [fs::exists(path)], the overload that throws: [true] for an entry,
    [false] for a missing one, and an exception when [stat] fails otherwise. *)
Definition fs_exists (w : world) (path : string) : Cpp.exc (bool * world) :=
  let w' := log (sys_exists path) w in
  match nodes w !! path with
  | Some _ => Cpp.Ret (true, w')
  | None =>
      match exists_error os w path with
      | Some what => Cpp.Throw (Cpp.filesystem_error what)
      | None => Cpp.Ret (false, w')
      end
  end.

(** [fs::create_directory(path)]: [false] when the path is there already. *)
Definition fs_create_directory (w : world) (path : string) : Cpp.exc (bool * world) :=
  let w' := log (sys_create_directory path) w in
  match nodes w !! path with
  | Some _ => Cpp.Ret (false, w')
  | None =>
      match create_directory_error os w path with
      | Some what => Cpp.Throw (Cpp.filesystem_error what)
      | None => Cpp.Ret (true, World (euid w') (<[path := Directory 0]> (nodes w')) (trace w'))
      end
  end.

(** [fs::remove(path)]: removes a file or an empty directory, reports
    [false] for a missing path and throws for anything it cannot remove: a
    directory that holds entries, a mount, or an error of the host. *)
Definition fs_remove (w : world) (path : string) : Cpp.exc (bool * world) :=
  let w' := log (sys_remove path) w in
  match nodes w !! path with
  | Some (Directory (S _)) => Cpp.Throw (Cpp.filesystem_error "Directory not empty")
  | Some (MountedFs _) => Cpp.Throw (Cpp.filesystem_error "Device or resource busy")
  | entry =>
      match remove_error os w path with
      | Some what => Cpp.Throw (Cpp.filesystem_error what)
      | None =>
          match entry with
          | None => Cpp.Ret (false, w')
          | Some _ => Cpp.Ret (true, World (euid w') (delete path (nodes w')) (trace w'))
          end
      end
  end.

(** [mnt_context_mount] with the four settings of the context. *)
Definition mnt_context_mount (w : world) (source target fstype options : string)
    : Z * world :=
  let ret := mount_status os w source target fstype in
  let w' := log (sys_mount source target fstype options) w in
  if ret =? 0
  then (ret, World (euid w') (<[target := MountedFs (loop_f_flag os)]> (nodes w')) (trace w'))
  else (ret, w').

Definition fsTypeToModule : gmap string string :=
  list_to_map [("iso9660", "isofs"); ("udf", "udf"); ("hfsplus", "hfsplus"); ("isofs", "isofs")].

Definition fsTypes : list string :=
  ["iso9660"; "udf"; "hfsplus"; "rockridge"; "joliet"; "isofs"; "auto"].

(** The messages, as the source builds them. *)
Definition shown (path : string) : string :=
  let '(directory, filename) := Sanitization.extractDirectoryAndFilename path in
  directory +:+ "/" +:+ filename.

Definition skippedMessage (isoFile mountPoint : string) : string :=
  ESC +:+ "[1;93mISO: " +:+ ESC +:+ "[1;92m'" +:+ shown isoFile +:+ "'"
    +:+ ESC +:+ "[1;93m already M@: " +:+ ESC +:+ "[1;94m'" +:+ shown mountPoint
    +:+ "'" +:+ ESC +:+ "[1;93m." +:+ ESC +:+ "[0m".

Definition rootRequiredMessage (isoFile : string) : string :=
  ESC +:+ "[1;91mFailed to mount: " +:+ ESC +:+ "[1;93m'" +:+ shown isoFile +:+ "'"
    +:+ ESC +:+ "[0m" +:+ ESC +:+ "[1;91m. Root privileges are required." +:+ ESC +:+ "[0m".

Definition createFailedMessage (mountPoint what : string) : string :=
  ESC +:+ "[1;91mFailed to create mount point: " +:+ ESC +:+ "[1;93m'" +:+ mountPoint
    +:+ "'" +:+ ESC +:+ "[0m" +:+ ESC +:+ "[1;91m. Error: " +:+ what +:+ ESC +:+ "[0m".

Definition contextFailedMessage (isoFile : string) : string :=
  ESC +:+ "[1;91mFailed to initialize mount context for: " +:+ ESC +:+ "[1;93m'"
    +:+ shown isoFile +:+ "'" +:+ ESC +:+ "[0m" +:+ ESC +:+ "[1;91m." +:+ ESC +:+ "[0m".

Definition mountedFileInfo (isoFile mountPoint fsType : string) : string :=
  ESC +:+ "[1mISO: " +:+ ESC +:+ "[1;92m'" +:+ shown isoFile +:+ "'" +:+ ESC +:+ "[0m"
    +:+ ESC +:+ "[1m M@: " +:+ ESC +:+ "[1;94m'" +:+ shown mountPoint
    +:+ "'" +:+ ESC +:+ "[0;1m. {" +:+ fsType +:+ "}" +:+ ESC +:+ "[0m".

Definition badFSMessage (isoFile : string) : string :=
  ESC +:+ "[1;91mFailed to mount: " +:+ ESC +:+ "[1;93m'" +:+ shown isoFile
    +:+ "'." +:+ ESC +:+ "[0;1m {badFS}".

Definition moduleWarning (moduleName fsType : string) : string :=
  "Warning: Failed to load kernel module: " +:+ moduleName
    +:+ " for filesystem: " +:+ fsType.

Definition insertMounted (m : string) (s : outcome_sets) : outcome_sets :=
  OutcomeSets ({[m]} ∪ mountedFiles s) (skippedMessages s) (mountedFails s).
Definition insertSkipped (m : string) (s : outcome_sets) : outcome_sets :=
  OutcomeSets (mountedFiles s) ({[m]} ∪ skippedMessages s) (mountedFails s).
Definition insertFailed (m : string) (s : outcome_sets) : outcome_sets :=
  OutcomeSets (mountedFiles s) (skippedMessages s) ({[m]} ∪ mountedFails s).

(** The loop [for (const auto& fsType : fsTypes)] (lines 372-420); the
    boolean is [mountSuccess] when the loop is left. *)
Fixpoint tryFsTypes (types : list string) (isoFile mountPoint : string)
    (w : world) (s : outcome_sets) : bool * world * outcome_sets :=
  match types with
  | [] => (false, w, s)
  | fsType :: rest =>
      let w1 :=
        match fsTypeToModule !! fsType with
        | Some moduleName =>
            let '(loaded, w') := loadKernelModule w moduleName in
            if loaded then w' else log (sys_stderr (moduleWarning moduleName fsType)) w'
        | None => w
        end in
      let w2 := log sys_new_context w1 in
      if negb (new_context_ok os w1) then
        (false, w2, insertFailed (contextFailedMessage isoFile) s)
      else
        let '(ret, w3) := mnt_context_mount w2 isoFile mountPoint fsType "loop,ro" in
        if ret =? 0 then
          (true, w3, insertMounted (mountedFileInfo isoFile mountPoint fsType) s)
        else tryFsTypes rest isoFile mountPoint w3 s
  end.

(** The body of the loop over [isoFilesToMount] (lines 305-432). *)
Definition mountOne (isoFile : string) (w : world) (s : outcome_sets)
    : ended (world * outcome_sets) :=
  let mountPoint := mountPointOf hasher isoFile in
  let '(already, w1) := isAlreadyMounted w mountPoint in
  if already then Returned (w1, insertSkipped (skippedMessage isoFile mountPoint) s)
  else
    let w2 := log sys_geteuid w1 in
    if negb (euid w2 =? 0) then Returned (w2, insertFailed (rootRequiredMessage isoFile) s)
    else
      match fs_exists w2 mountPoint with
      | Cpp.Throw e => Raised e (log (sys_exists mountPoint) w2, s)
      | Cpp.Ret (there, w3) =>
          let created :=
            if there then Cpp.Ret w3
            else '(_, w4) ← fs_create_directory w3 mountPoint; Cpp.Ret w4 in
          match created with
          | Cpp.Throw (Cpp.filesystem_error what) =>
              Returned (log (sys_create_directory mountPoint) w3,
                        insertFailed (createFailedMessage mountPoint what) s)
          | Cpp.Throw e => Raised e (log (sys_create_directory mountPoint) w3, s)
          | Cpp.Ret w5 =>
              let '(mountSuccess, w6, s6) := tryFsTypes fsTypes isoFile mountPoint w5 s in
              if mountSuccess then Returned (w6, s6)
              else
                match fs_remove w6 mountPoint with
                | Cpp.Throw e => Raised e (log (sys_remove mountPoint) w6, s6)
                | Cpp.Ret (_, w7) => Returned (w7, insertFailed (badFSMessage isoFile) s6)
                end
          end
      end.

(** mount.cpp, lines 289-434. *)
Fixpoint mountIsoFile (isoFilesToMount : list string) (w : world) (s : outcome_sets)
    : ended (world * outcome_sets) :=
  match isoFilesToMount with
  | [] => Returned (w, s)
  | isoFile :: rest =>
      match mountOne isoFile w s with
      | Returned (w', s') => mountIsoFile rest w' s'
      | Raised e ws => Raised e ws
      end
  end.

End MountEngine.

(** ** Selection parsing (mount.cpp, lines 438-608) *)

(** Modelled from the spec: [isAllZeros] is declared in headers.h, which is
    not part of the sources at hand; "a token of all zeros is rejected". *)
Definition isAllZeros_spec (token : string) : bool :=
  Cpp.all_of (λ c, bool_decide (c = "0"%char)) token.

(** Modelled from the spec: [isNumeric] is declared in headers.h as well; a
    numeric token is a run of decimal digits. *)
Definition isNumeric_spec (token : string) : bool :=
  Cpp.all_of Cpp.isdigit token.

(** The indices the loop [for (int i = start; ...; i += step)] visits:
    upwards when [start <= end], downwards otherwise. *)
Definition rangeIndices (start end_ : Z) : list Z :=
  if start <=? end_ then seqZ start (end_ - start + 1)
  else (λ k, start - k) <$> seqZ 0 (start - end_ + 1).

(** What the second scan has built when it ends.  [totalTasks] and
    [activeTaskCount] are what the scan has added to the two atomics; the
    workers subtract from the second one as they finish. *)
Record submission := Submission {
  processedIndices : gset Z;
  processedRanges : gset (Z * Z);
  errorQueue : list string;
  (** the tasks passed to [pool.enqueue], oldest first *)
  queued : list Z;
  totalTasks : Z;
  activeTaskCount : Z
}.

Definition noSubmission : submission := Submission ∅ ∅ [] [] 0 0.

Definition invalidIndexZero : string :=
  ESC +:+ "[1;91mInvalid index: '0'." +:+ ESC +:+ "[0;1m".
Definition invalidInput (token : string) : string :=
  ESC +:+ "[1;91mInvalid input: '" +:+ token +:+ "'." +:+ ESC +:+ "[0;1m".
Definition invalidRange (text : string) : string :=
  ESC +:+ "[1;91mInvalid range: '" +:+ text +:+ "'." +:+ ESC +:+ "[0;1m".
Definition invalidIndex (num : Z) : string :=
  ESC +:+ "[1;91mInvalid index: '" +:+ Cpp.to_string num +:+ "'." +:+ ESC +:+ "[0;1m".

Section Selection.

(** Declared in headers.h: the concurrency ceiling and the two token tests. *)
Variable maxThreads : nat.
Variable isAllZeros : string → bool.
Variable isNumeric : string → bool.

Variable isoFiles : list string.

Definition listSize : Z := Z.of_nat (List.length isoFiles).

(** *** First scan: the distinct tokens that size the pool (lines 445-484) *)

(** The inner [for] over a range, with its [break]. *)
Fixpoint countRange (indices : list Z) (tokens : gset string) : gset string :=
  match indices with
  | [] => tokens
  | i :: rest =>
      let tokens' := if decide (i ≠ 0) then {[Cpp.to_string i]} ∪ tokens else tokens in
      if (maxThreads <=? size tokens')%nat then tokens' else countRange rest tokens'
  end.

Fixpoint countLoop (toks : list string) (tokens : gset string) : Cpp.exc (gset string) :=
  match toks with
  | [] => Cpp.Ret tokens
  | tokenCount :: rest =>
      if negb (size tokens <? maxThreads)%nat then Cpp.Ret tokens
      else if decide (Cpp.at_index tokenCount 0 = "-"%char) then countLoop rest tokens
      else if (1 <? Cpp.count "-" tokenCount)%nat then countLoop rest tokens
      else
        match Cpp.find "-" tokenCount with
        | Some dashPos =>
            let start := Cpp.substr tokenCount 0 dashPos in
            let end_ := Cpp.substr_from tokenCount (S dashPos) in
            if Cpp.all_of Cpp.isdigit start && Cpp.all_of Cpp.isdigit end_ then
              startNum ← Cpp.stoi start;
              endNum ← Cpp.stoi end_;
              if (Cpp.to_size_t startNum <=? listSize) && (Cpp.to_size_t endNum <=? listSize)
              then countLoop rest (countRange (rangeIndices startNum endNum) tokens)
              else countLoop rest tokens
            else countLoop rest tokens
        | None =>
            if Cpp.all_of Cpp.isdigit tokenCount then
              num ← Cpp.stoi tokenCount;
              if (0 <? num) && (Cpp.to_size_t num <=? listSize) then
                let tokens' := {[tokenCount]} ∪ tokens in
                if (maxThreads <=? size tokens')%nat then Cpp.Ret tokens'
                else countLoop rest tokens'
              else countLoop rest tokens
            else countLoop rest tokens
        end
  end.

(** *** Second scan: errors and task submission (lines 533-608) *)

Definition addError (error : string) (sub : submission) : submission :=
  Submission (processedIndices sub) (processedRanges sub) (errorQueue sub ++ [error])
    (queued sub) (totalTasks sub) (activeTaskCount sub).

(** The block guarded by [processedIndices.insert(i).second]. *)
Definition submit (i : Z) (sub : submission) : submission :=
  if decide (i ∈ processedIndices sub) then sub
  else Submission ({[i]} ∪ processedIndices sub) (processedRanges sub) (errorQueue sub)
         (queued sub ++ [i]) (totalTasks sub + 1) (activeTaskCount sub + 1).

Definition submitRange (start end_ : Z) (sub : submission) : submission :=
  if decide ((start, end_) ∈ processedRanges sub) then sub
  else
    let sub' := Submission (processedIndices sub) ({[(start, end_)]} ∪ processedRanges sub)
                  (errorQueue sub) (queued sub) (totalTasks sub) (activeTaskCount sub) in
    foldl (λ acc i, submit i acc) sub' (rangeIndices start end_).

(** The syntactic test on a token that contains a hyphen (lines 546-547). *)
Definition malformedRange (token : string) (dashPos : nat) : bool :=
  bool_decide (is_Some (Cpp.find_from "-" (S dashPos) token))
  || ((dashPos =? 0)%nat
      || (dashPos =? String.length token - 1)%nat
      || negb (Cpp.isdigit (Cpp.at_index token (dashPos - 1)))
      || negb (Cpp.isdigit (Cpp.at_index token (S dashPos)))).

Definition outsideList (n : Z) : bool :=
  (n <? 1) || (listSize <? Cpp.to_size_t n).

Fixpoint selectLoop (toks : list string) (sub : submission) : ended submission :=
  match toks with
  | [] => Returned sub
  | token :: rest =>
      if decide (token = "/") then Returned sub
      else if isAllZeros token then selectLoop rest (addError invalidIndexZero sub)
      else
        match Cpp.find "-" token with
        | Some dashPos =>
            if malformedRange token dashPos
            then selectLoop rest (addError (invalidInput token) sub)
            else
              match start ← Cpp.stoi (Cpp.substr token 0 dashPos);
                    end_ ← Cpp.stoi (Cpp.substr_from token (S dashPos));
                    Cpp.Ret (start, end_) with
              | Cpp.Throw Cpp.invalid_argument =>
                  selectLoop rest (addError (invalidInput token) sub)
              | Cpp.Throw Cpp.out_of_range =>
                  selectLoop rest (addError (invalidRange token) sub)
              | Cpp.Throw e => Raised e sub
              | Cpp.Ret (start, end_) =>
                  if outsideList start || outsideList end_ then
                    selectLoop rest
                      (addError (invalidRange (Cpp.to_string start +:+ "-"
                                                 +:+ Cpp.to_string end_)) sub)
                  else selectLoop rest (submitRange start end_ sub)
              end
        | None =>
            if isNumeric token then
              match Cpp.stoi token with
              | Cpp.Throw e => Raised e sub
              | Cpp.Ret num =>
                  if (1 <=? num) && (Cpp.to_size_t num <=? listSize)
                  then selectLoop rest (submit num sub)
                  else if listSize <? Cpp.to_size_t num
                  then selectLoop rest (addError (invalidIndex num) sub)
                  else selectLoop rest sub
              end
            else selectLoop rest (addError (invalidInput token) sub)
        end
  end.

(** [std::min(static_cast<int>(tokens.size()), static_cast<int>(maxThreads))]. *)
Definition numThreadsOf (tokens : gset string) : nat := min (size tokens) maxThreads.

End Selection.

(** ** Orchestration (mount.cpp, lines 486-634) *)

(** Where the calling thread stands. *)
Inductive main_pc :=
  | Waiting        (** in [taskCompletionCV.wait], line 627 *)
  | Signalling     (** about to store [isProcessingComplete], line 631 *)
  | Joining        (** in [progressThread.join()], line 632 *)
  | Finished       (** the call has returned *)
  | Aborted (e : Cpp.exn).  (** left by an exception nothing catches *)

(** The progress thread of line 622. *)
Inductive progress_pc :=
  | NeverStarted
  | Polling
  | Terminated.

Record run_state := RunState {
  pending : list Z;              (** closures in the pool's queue, oldest first *)
  validIndices : gset Z;
  dispatched : list Z;           (** indices handed to [mountIsoFile], in order *)
  the_world : world;
  the_sets : outcome_sets;
  uniqueErrorMessages : gset string;
  submittedTasks : Z;            (** [totalTasks] *)
  completedTasks : Z;
  activeTasks : Z;               (** [activeTaskCount] *)
  isProcessingComplete : bool;
  main : main_pc;
  progress : progress_pc
}.

(** Modelled from the spec: [ThreadPool] (threadpool.h) is not part of the
    sources at hand.  It is "constructed with a worker count", "accepts
    closures and executes them on a fixed set of threads", with a "simple
    FIFO queue with bounded workers"; "one image's failure never aborts or
    blocks other concurrent tasks".  So with [numThreads] workers the closure
    at position [k] of the queue can be the next one to act only when the [k]
    closures before it are held by other workers, and a closure that is left
    by an exception costs the pool nothing. *)
Definition poolMayRun (numThreads k : nat) : bool := (k <? numThreads)%nat.

(** Modelled from the spec: [displayProgressBar] is not part of the sources
    at hand.  It "runs on its own thread, periodically rendering
    completed/total, until the done flag is observed set; then returns".
    This is one poll of the flag. *)
Definition displayProgressBar (isComplete : bool) : progress_pc :=
  if isComplete then Terminated else Polling.

(** One move of one thread. *)
Inductive action :=
  | RunTask (k : nat)   (** a worker runs the closure at position [k] of the queue *)
  | MainStep
  | ProgressStep.

Section Orchestrator.

Variable os : os_behaviour.
Variable hasher : string → N.
Variable maxThreads : nat.
Variable isAllZeros : string → bool.
Variable isNumeric : string → bool.
Variable isoFiles : list string.

(** [isoFiles[index - 1]]: nothing is defined outside the vector. *)
Definition isoFileAt (index : Z) : option string :=
  if 1 <=? index then isoFiles !! Z.to_nat (index - 1) else None.

(** The closure [processTask] (lines 507-525), run as one step; [None] is
    the undefined behaviour of an index outside the vector.  When
    [mountIsoFile] throws, the closure is left at that call: the two counters
    are not touched. *)
Definition processTask (index : Z) (st : run_state) : option run_state :=
  if decide (index ∈ validIndices st) then
    Some (RunState (pending st) (validIndices st) (dispatched st) (the_world st)
            (the_sets st) (uniqueErrorMessages st) (submittedTasks st)
            (completedTasks st + 1) (activeTasks st - 1)
            (isProcessingComplete st) (main st) (progress st))
  else
    isoFile ← isoFileAt index;
    match mountIsoFile os hasher [isoFile] (the_world st) (the_sets st) with
    | Returned (w, s) =>
        Some (RunState (pending st) ({[index]} ∪ validIndices st) (dispatched st ++ [index])
                w s (uniqueErrorMessages st) (submittedTasks st)
                (completedTasks st + 1) (activeTasks st - 1)
                (isProcessingComplete st) (main st) (progress st))
    | Raised _ (w, s) =>
        Some (RunState (pending st) ({[index]} ∪ validIndices st) (dispatched st ++ [index])
                w s (uniqueErrorMessages st) (submittedTasks st)
                (completedTasks st) (activeTasks st)
                (isProcessingComplete st) (main st) (progress st))
    end.

Definition take (k : nat) (st : run_state) : run_state :=
  RunState (delete k (pending st)) (validIndices st) (dispatched st) (the_world st)
    (the_sets st) (uniqueErrorMessages st) (submittedTasks st)
    (completedTasks st) (activeTasks st)
    (isProcessingComplete st) (main st) (progress st).

Definition at_main (pc : main_pc) (flag : bool) (st : run_state) : run_state :=
  RunState (pending st) (validIndices st) (dispatched st) (the_world st)
    (the_sets st) (uniqueErrorMessages st) (submittedTasks st)
    (completedTasks st) (activeTasks st) flag pc (progress st).

Definition at_progress (pc : progress_pc) (st : run_state) : run_state :=
  RunState (pending st) (validIndices st) (dispatched st) (the_world st)
    (the_sets st) (uniqueErrorMessages st) (submittedTasks st)
    (completedTasks st) (activeTasks st) (isProcessingComplete st) (main st) pc.

(** One step of the system of threads; [None] when the thread cannot move.
    The calling thread leaves its wait when [activeTaskCount] is zero, sets
    the flag, and leaves [join] when the progress thread has returned. *)
Definition step (numThreads : nat) (a : action) (st : run_state) : option run_state :=
  match a with
  | RunTask k =>
      if poolMayRun numThreads k
      then index ← pending st !! k; processTask index (take k st)
      else None
  | MainStep =>
      match main st with
      | Waiting =>
          if activeTasks st =? 0 then Some (at_main Signalling (isProcessingComplete st) st)
          else None
      | Signalling => Some (at_main Joining true st)
      | Joining =>
          match progress st with
          | Terminated => Some (at_main Finished (isProcessingComplete st) st)
          | _ => None
          end
      | Finished | Aborted _ => None
      end
  | ProgressStep =>
      match progress st with
      | Polling => Some (at_progress (displayProgressBar (isProcessingComplete st)) st)
      | _ => None
      end
  end.

Fixpoint run (numThreads : nat) (schedule : list action) (st : run_state)
    : option run_state :=
  match schedule with
  | [] => Some st
  | a :: rest => st' ← step numThreads a st; run numThreads rest st'
  end.

(** The state in which the threads are left once the calling thread has
    scanned the input, merged the error queue (lines 611-617) and, when
    something was submitted, started the progress thread.  The workers are
    let loose on the queue at this point: a closure that the pool runs while
    the scan is still submitting is run here right after the scan, which
    changes neither what it is handed nor what it does, only the value that
    [activeTaskCount] has while the scan goes on. *)
Definition afterScan (sub : submission) (pc : main_pc) (pr : progress_pc)
    (w : world) (s : outcome_sets) (errors : gset string) : run_state :=
  RunState (queued sub) ∅ [] w s errors (totalTasks sub) 0 (activeTaskCount sub)
    false pc pr.

(** mount.cpp, lines 438-634, up to the point where the calling thread
    waits: the number of workers and the state of the threads. *)
Definition processAndMountIsoFiles (input : string) (w : world) (s : outcome_sets)
    (errors : gset string) : nat * run_state :=
  match countLoop maxThreads isoFiles (Cpp.tokens_of input) ∅ with
  | Cpp.Throw e => (0%nat, afterScan noSubmission (Aborted e) NeverStarted w s errors)
  | Cpp.Ret tokens =>
      let numThreads := numThreadsOf maxThreads tokens in
      match selectLoop isAllZeros isNumeric isoFiles (Cpp.tokens_of input) noSubmission with
      | Raised e sub => (numThreads, afterScan sub (Aborted e) NeverStarted w s errors)
      | Returned sub =>
          let errors' := list_to_set (errorQueue sub) ∪ errors in
          if decide (processedIndices sub = ∅)
          then (numThreads, afterScan sub Finished NeverStarted w s errors')
          else (numThreads, afterScan sub Waiting Polling w s errors')
      end
  end.

(** A whole execution: the scan, then the threads under a schedule. *)
Definition execute (input : string) (schedule : list action)
    (w : world) (s : outcome_sets) (errors : gset string) : option run_state :=
  let '(numThreads, st) := processAndMountIsoFiles input w s errors in
  run numThreads schedule st.

End Orchestrator.

(** ** Reference definitions for the statements *)

(** The digit of a value below 36 in the alphabet of the source. *)
Definition base36_digit (d : N) : ascii := Cpp.at_index base36Chars (N.to_nat d).

(** The value of a base-36 digit, and of a digit string read with its least
    significant digit first. *)
Definition base36_value (c : ascii) : option N :=
  N.of_nat <$> Cpp.find c base36Chars.

Fixpoint digest_value (s : string) : option N :=
  match s with
  | EmptyString => Some 0%N
  | String c r => d ← base36_value c; v ← digest_value r; Some (d + 36 * v)%N
  end.

(** The digest as the specification words it: the five low base-36 digits of
    the hash, the lowest first. *)
Definition low36 (h : N) : N := (h `mod` 36)%N.
Definition shift36 (h : N) : N := (h `div` 36)%N.

Definition digest5 (h : N) : string :=
  String (base36_digit (low36 h))
    (String (base36_digit (low36 (shift36 h)))
       (String (base36_digit (low36 (shift36 (shift36 h))))
          (String (base36_digit (low36 (shift36 (shift36 (shift36 h)))))
             (String (base36_digit (low36 (shift36 (shift36 (shift36 (shift36 h)))))) EmptyString)))).

(** A family of pairwise distinct paths that all have the base name [x]. *)
Fixpoint deepPath (n : nat) : string :=
  match n with
  | O => "/x.iso"
  | S k => String "d" (deepPath k)
  end.

Definition final_state {A} (r : ended A) : A :=
  match r with Returned a | Raised _ a => a end.

(** The calls of the fallback loop: module loading, contexts, mounts. *)
Definition loop_call (c : syscall) : Prop :=
  match c with
  | sys_system _ | sys_stderr _ | sys_new_context | sys_mount _ _ _ _ => True
  | _ => False
  end.

Definition is_mount (c : syscall) : Prop :=
  match c with sys_mount _ _ _ _ => True | _ => False end.

Definition is_create (c : syscall) : Prop :=
  match c with sys_create_directory _ => True | _ => False end.

(** The three classes [mountIsoFile] can write to, and a set of messages
    put into one of them. *)
Inductive class := Mounted | Skipped | Failed.

Definition grown (c : class) (msgs : gset string) (s : outcome_sets) : outcome_sets :=
  match c with
  | Mounted => OutcomeSets (msgs ∪ mountedFiles s) (skippedMessages s) (mountedFails s)
  | Skipped => OutcomeSets (mountedFiles s) (msgs ∪ skippedMessages s) (mountedFails s)
  | Failed => OutcomeSets (mountedFiles s) (skippedMessages s) (msgs ∪ mountedFails s)
  end.

(** Small environments on which the statements are run. *)
Definition length_hasher (s : string) : N := N.of_nat (String.length s).

(** [/mnt] lies on a file system mounted [nodev]; no image mounts. *)
Definition os_nothing_mounts : os_behaviour :=
  OsBehaviour (λ _, ST_NODEV) 1 (λ _ _, None) (λ _ _, None) (λ _ _, None)
    (λ _ _, 0) (λ _, true) (λ _ _ _ _, 32) (λ _ _ _, conj eq_refl eq_refl).

(** The same host, where the [udf] driver mounts every image. *)
Definition os_udf_mounts : os_behaviour :=
  OsBehaviour (λ _, ST_NODEV) 1 (λ _ _, None) (λ _ _, None) (λ _ _, None)
    (λ _ _, 0) (λ _, true)
    (λ _ _ _ fsType, if decide (fsType = "udf") then 0 else 32)
    (λ _ _ _, conj eq_refl eq_refl).

Definition no_outcomes : outcome_sets := OutcomeSets ∅ ∅ ∅.

Definition world_of (uid : Z) (entries : list (string * node)) : world :=
  World uid (list_to_map entries) [].

Definition six_files : list string :=
  ["/a/1.iso"; "/a/2.iso"; "/a/3.iso"; "/a/4.iso"; "/a/5.iso"; "/a/6.iso"].

(** A token that the second scan reads as the range [start]-[end_] of a list:
    it passes the tests of lines 535-567. *)
Definition readsAsRange (isAllZeros : string → bool) (isoFiles : list string)
    (token : string) (start end_ : Z) : Prop :=
  token ≠ "/"
  ∧ isAllZeros token = false
  ∧ ∃ dashPos,
      Cpp.find "-" token = Some dashPos
      ∧ malformedRange token dashPos = false
      ∧ Cpp.stoi (Cpp.substr token 0 dashPos) = Cpp.Ret start
      ∧ Cpp.stoi (Cpp.substr_from token (S dashPos)) = Cpp.Ret end_
      ∧ outsideList isoFiles start = false
      ∧ outsideList isoFiles end_ = false.

(** An index of the list. *)
Definition inList (isoFiles : list string) (i : Z) : Prop :=
  1 ≤ i ≤ Z.of_nat (List.length isoFiles).

(** The queue of a submission is duplicate free, holds exactly the processed
    indices, all of them indices of the list, and is counted by both counters. *)
Definition wellFormed (isoFiles : list string) (sub : submission) : Prop :=
  NoDup (queued sub)
  ∧ (∀ i, i ∈ queued sub ↔ i ∈ processedIndices sub)
  ∧ Forall (inList isoFiles) (queued sub)
  ∧ totalTasks sub = Z.of_nat (List.length (queued sub))
  ∧ activeTaskCount sub = totalTasks sub.

(** What the calling thread has set up when its scan is over. *)
Definition scanned (isoFiles : list string) (w : world) (s : outcome_sets)
    (st : run_state) : Prop :=
  validIndices st = ∅ ∧ dispatched st = [] ∧ the_world st = w ∧ the_sets st = s
  ∧ completedTasks st = 0 ∧ isProcessingComplete st = false
  ∧ NoDup (pending st) ∧ Forall (inList isoFiles) (pending st)
  ∧ submittedTasks st = Z.of_nat (List.length (pending st))
  ∧ activeTasks st = submittedTasks st
  ∧ (main st = Waiting ∧ progress st = Polling ∧ 0 < submittedTasks st
     ∨ main st = Finished ∧ progress st = NeverStarted ∧ submittedTasks st = 0
     ∨ ∃ e, main st = Aborted e ∧ progress st = NeverStarted).

(** Dispatching: [validIndices] is the set of the dispatched indices, no index
    is dispatched twice, all are indices of the list, and the indices first
    queued are those still queued or already dispatched. *)
Definition dispatching (isoFiles : list string) (queue0 : list Z) (st : run_state) : Prop :=
  NoDup (dispatched st)
  ∧ (∀ i, i ∈ validIndices st ↔ i ∈ dispatched st)
  ∧ Forall (inList isoFiles) (dispatched st)
  ∧ (∀ i, i ∈ queue0 ↔ i ∈ pending st ∨ i ∈ dispatched st).

(** Counting: the two counters add up to the number of submitted tasks, the
    queued closures are among the active ones, and the calling thread and the
    progress thread stand where the counters allow. *)
Definition counting (st : run_state) : Prop :=
  completedTasks st + activeTasks st = submittedTasks st
  ∧ Z.of_nat (List.length (pending st)) ≤ activeTasks st
  ∧ (progress st = NeverStarted → isProcessingComplete st = false)
  ∧ match main st with
    | Waiting => progress st = Polling ∧ isProcessingComplete st = false
                 ∧ 0 < submittedTasks st
    | Signalling => activeTasks st = 0 ∧ progress st = Polling
                    ∧ isProcessingComplete st = false ∧ 0 < submittedTasks st
    | Joining => activeTasks st = 0 ∧ isProcessingComplete st = true
                 ∧ progress st ≠ NeverStarted ∧ 0 < submittedTasks st
    | Finished => activeTasks st = 0
                  ∧ (0 < submittedTasks st ∧ progress st = Terminated
                     ∧ isProcessingComplete st = true
                     ∨ submittedTasks st = 0 ∧ progress st = NeverStarted)
    | Aborted _ => progress st = NeverStarted
    end.

(** Without privilege: the entries of the file system stay as they were, the
    new calls are neither mounts nor directory creations, [mountedFiles] is
    untouched, and every dispatched image has its message in [skippedMessages]
    (its mount point was a mount already) or in [mountedFails]. *)
Definition unprivileged (os : os_behaviour) (hasher : string → N) (isoFiles : list string)
    (w : world) (s : outcome_sets) (st : run_state) : Prop :=
  euid (the_world st) = euid w
  ∧ nodes (the_world st) = nodes w
  ∧ (∃ evs, trace (the_world st) = trace w ++ evs
            ∧ Forall (λ c, ¬ is_mount c ∧ ¬ is_create c) evs)
  ∧ mountedFiles (the_sets st) = mountedFiles s
  ∧ ∀ i, i ∈ dispatched st →
      ∃ isoFile, isoFileAt isoFiles i = Some isoFile
        ∧ if (isAlreadyMounted os w (mountPointOf hasher isoFile)).1
          then skippedMessage isoFile (mountPointOf hasher isoFile)
                 ∈ skippedMessages (the_sets st)
          else rootRequiredMessage isoFile ∈ mountedFails (the_sets st).

(** A schedule for five tasks on four workers: the second closure overtakes
    the first, then the calling thread leaves its wait, sets the flag, the
    progress thread sees it, and the join returns. *)
Definition five_tasks_schedule : list action :=
  [RunTask 1; RunTask 0; RunTask 0; RunTask 0; RunTask 0;
   MainStep; MainStep; ProgressStep; MainStep].

(** One task, run to the return of the call. *)
Definition one_task_schedule : list action :=
  [RunTask 0; MainStep; MainStep; ProgressStep; MainStep].

Definition two_tasks_schedule : list action :=
  [RunTask 0; RunTask 0; MainStep; MainStep; ProgressStep; MainStep].

(** ** Further reference definitions *)

(** How a POSIX shell reads a word: between single quotes every character
    stands for itself; outside, a backslash makes the next character stand
    for itself.  [None] is a word the shell would not accept as complete
    (a quote left open, a backslash at the end). *)
Fixpoint sh_read (quoted : bool) (word : string) : option string :=
  match word with
  | EmptyString => if quoted then None else Some EmptyString
  | String c r =>
      if quoted then
        if decide (c = "'"%char) then sh_read false r else String c <$> sh_read true r
      else if decide (c = "'"%char) then sh_read true r
      else if decide (c = Sanitization.backslash) then
        match r with
        | String d r' => String d <$> sh_read false r'
        | EmptyString => None
        end
      else String c <$> sh_read false r
  end.

(** The file-system types of the mount attempts in a list of calls, the
    mount attempts in full, and the commands passed to [system]. *)
Definition mount_call_of (c : syscall) : option (string * string * string * string) :=
  match c with
  | sys_mount source target fstype options => Some (source, target, fstype, options)
  | _ => None
  end.

Definition command_of (c : syscall) : option string :=
  match c with sys_system command => Some command | _ => None end.

Definition modprobe_command (moduleName : string) : string :=
  "modprobe " +:+ Sanitization.shell_escape moduleName +:+ " 2>/dev/null".

Definition is_remove (c : syscall) : Prop :=
  match c with sys_remove _ => True | _ => False end.

(** A host where [/mnt] cannot be written: [create_directory] and [remove]
    fail, [exists] does not. *)
Definition os_readonly_mnt : os_behaviour :=
  OsBehaviour (λ _, ST_NODEV) 1 (λ _ _, None) (λ _ _, Some "Read-only file system")
    (λ _ _, Some "Read-only file system") (λ _ _, 0) (λ _, true) (λ _ _ _ _, 32)
    ltac:(intros w path H; discriminate H).

(** A host on which the names under [/mnt] are too long for the file
    system: already [exists] fails. *)
Definition os_long_names : os_behaviour :=
  OsBehaviour (λ _, ST_NODEV) 1 (λ _ _, Some "File name too long")
    (λ _ _, Some "File name too long") (λ _ _, Some "File name too long")
    (λ _ _, 0) (λ _, true) (λ _ _ _ _, 32)
    ltac:(intros w path H; discriminate H).


(** The [modprobe] commands that go with a list of file-system types. *)
Definition modprobes (types : list string) : list string :=
  omap (λ fsType, modprobe_command <$> fsTypeToModule !! fsType) types.

(** The mount attempts for a list of types, as the loop makes them. *)
Definition attempts (isoFile mountPoint : string) (types : list string)
    : list (string * string * string * string) :=
  (λ fsType, (isoFile, mountPoint, fsType, "loop,ro")) <$> types.

(** An image has a message of its own in one of the three sets: skipped,
    mounted under one of the types of [fsTypes], or failed for one of the
    four reasons the loop body tells apart. *)
Definition reported (hasher : string → N) (isoFile : string) (s : outcome_sets) : Prop :=
  skippedMessage isoFile (mountPointOf hasher isoFile) ∈ skippedMessages s
  ∨ (∃ fsType, fsType ∈ fsTypes
       ∧ mountedFileInfo isoFile (mountPointOf hasher isoFile) fsType ∈ mountedFiles s)
  ∨ rootRequiredMessage isoFile ∈ mountedFails s
  ∨ (∃ what, createFailedMessage (mountPointOf hasher isoFile) what ∈ mountedFails s)
  ∨ badFSMessage isoFile ∈ mountedFails s.

(** Reporting: the closures still queued and the closures left by an
    exception ([lost]) are among the active ones, and every other dispatched
    image is reported. *)
Definition reporting (hasher : string → N) (isoFiles : list string) (st : run_state) : Prop :=
  ∃ lost : list Z,
    Z.of_nat (List.length (pending st)) + Z.of_nat (List.length lost) ≤ activeTasks st
    ∧ ∀ i, i ∈ dispatched st →
        i ∈ lost
        ∨ ∃ isoFile, isoFileAt isoFiles i = Some isoFile
            ∧ reported hasher isoFile (the_sets st).

(** Keeping: what the workers leave alone of the state the call started in. *)
Definition keeping (hasher : string → N) (isoFiles : list string)
    (w : world) (s : outcome_sets) (st : run_state) : Prop :=
  euid (the_world st) = euid w
  ∧ (∃ evs, trace (the_world st) = trace w ++ evs)
  ∧ (∀ path, (∀ isoFile, isoFile ∈ isoFiles → path ≠ mountPointOf hasher isoFile) →
       nodes (the_world st) !! path = nodes w !! path)
  ∧ mountedFiles s ⊆ mountedFiles (the_sets st)
  ∧ skippedMessages s ⊆ skippedMessages (the_sets st)
  ∧ mountedFails s ⊆ mountedFails (the_sets st).

(** ** The model on small inputs *)

Example stem_examples :
  Path.stem "/home/u/images/debian-12.iso" = "debian-12" ∧
  Path.stem "/a/b.tar.gz" = "b.tar" ∧
  Path.stem "/a/.hidden" = ".hidden" ∧
  Path.stem "/a/.." = ".." ∧
  Path.stem "/a/dir/" = EmptyString ∧
  Path.stem "plain" = "plain".
Proof. repeat split; reflexivity. Qed.

Example stoi_examples :
  Cpp.stoi "12" = Cpp.Ret 12 ∧ Cpp.stoi EmptyString = Cpp.Throw Cpp.invalid_argument ∧
  Cpp.stoi "1x1" = Cpp.Ret 1 ∧ Cpp.stoi "+7" = Cpp.Ret 7 ∧
  Cpp.stoi "x1" = Cpp.Throw Cpp.invalid_argument ∧
  Cpp.stoi "2147483648" = Cpp.Throw Cpp.out_of_range ∧
  Cpp.to_string 42 = "42" ∧ Cpp.to_string (-3) = "-3" ∧
  Cpp.tokens_of " 1-3  2 5-4 " = ["1-3"; "2"; "5-4"].
Proof. repeat split; vm_compute; reflexivity. Qed.

Example mountPoint_example :
  mountPointOf (λ _, 1000000%N) "/data/x.iso" = "/mnt/iso_x_slfl0".
Proof. vm_compute. reflexivity. Qed.

Example extract_examples :
  Sanitization.extractDirectoryAndFilename "/home/user/my isos/debian.iso"
    = ("~/user/my", "debian.iso") ∧
  Sanitization.extractDirectoryAndFilename "/mnt/iso_x_slfl0" = ("/mnt", "iso_x_slfl0") ∧
  Sanitization.shell_escape "isofs" = "'isofs'".
Proof. repeat split; vm_compute; reflexivity. Qed.

(** Overlapping tokens: ["2-4 3"] over six images submits 2, 3 and 4 once. *)
Example overlapping_selection :
  pending (processAndMountIsoFiles 4 isAllZeros_spec isNumeric_spec six_files
             "2-4 3" (world_of 0 []) no_outcomes ∅).2 = [2; 3; 4]
  ∧ pending (processAndMountIsoFiles 4 isAllZeros_spec isNumeric_spec six_files
               "5-4 1-2 4" (world_of 0 []) no_outcomes ∅).2 = [5; 4; 1; 2].
Proof. split; vm_compute; reflexivity. Qed.

(** Rejected tokens are reported and the scan goes on. *)
Example rejected_tokens :
  errorQueue (final_state (selectLoop isAllZeros_spec isNumeric_spec six_files
                             (Cpp.tokens_of "0 x 1--2 9-1 3 7") noSubmission))
  = [invalidIndexZero; invalidInput "x"; invalidInput "1--2"; invalidRange "9-1";
     invalidIndex 7]
  ∧ queued (final_state (selectLoop isAllZeros_spec isNumeric_spec six_files
                           (Cpp.tokens_of "0 x 1--2 9-1 3 7") noSubmission)) = [3].
Proof. split; vm_compute; reflexivity. Qed.

(** The first scan calls [stoi] on the empty bound of ["5-"] outside any
    [try]: the calling thread is left by [invalid_argument]. *)
Example dangling_range_aborts :
  main (processAndMountIsoFiles 4 isAllZeros_spec isNumeric_spec six_files
          "5-" (world_of 0 []) no_outcomes ∅).2 = Aborted Cpp.invalid_argument.
Proof. vm_compute. reflexivity. Qed.

(** The same image in two calls in a row: mounted by the first, skipped by
    the second. *)
Example mounted_then_skipped :
  ∃ w1 s1 w2 s2,
    mountIsoFile os_udf_mounts length_hasher ["/data/x.iso"] (world_of 0 []) no_outcomes
      = Returned (w1, s1)
    ∧ s1 = insertMounted (mountedFileInfo "/data/x.iso" "/mnt/iso_x_b0000" "udf") no_outcomes
    ∧ mountIsoFile os_udf_mounts length_hasher ["/data/x.iso"] w1 no_outcomes
      = Returned (w2, s2)
    ∧ s2 = insertSkipped (skippedMessage "/data/x.iso" "/mnt/iso_x_b0000") no_outcomes.
Proof.
  eexists _, _, _, _. split; [vm_compute; reflexivity|]. split; [vm_compute; reflexivity|].
  split; vm_compute; reflexivity.
Qed.

(** ** Properties of the mount-point derivation *)

Lemma base36_value_at (k : nat) :
  (k < 36)%nat → base36_value (Cpp.at_index base36Chars k) = Some (N.of_nat k).
Proof.
  intros Hk. do 36 (destruct k as [|k]; [reflexivity|]). lia.
Qed.

Lemma base36_value_digit (d : N) :
  (d < 36)%N → base36_value (base36_digit d) = Some d.
Proof.
  intros Hd. unfold base36_digit.
  rewrite base36_value_at by lia. by rewrite N2Nat.id.
Qed.

Lemma low36_lt (h : N) : (low36 h < 36)%N.
Proof. apply N.mod_lt. discriminate. Qed.

Lemma shortHashOf_digest5 (hasher : string → N) (isoFile : string) :
  shortHashOf hasher isoFile = digest5 (hasher isoFile).
Proof. reflexivity. Qed.

Lemma digest5_value (h : N) : digest_value (digest5 h) = Some (h `mod` 36 ^ 5)%N.
Proof.
  unfold digest5. cbn [digest_value].
  rewrite !base36_value_digit by apply low36_lt.
  cbn [mbind option_bind]. f_equal. unfold low36, shift36.
  change (36 ^ 5)%N with (36 * (36 * (36 * (36 * 36))))%N.
  rewrite !N.Div0.mod_mul_r. lia.
Qed.

Lemma digest5_length (h : N) : String.length (digest5 h) = 5%nat.
Proof. reflexivity. Qed.

Lemma low36_mod (h m : N) : low36 (h `mod` (36 * m)) = low36 h.
Proof.
  unfold low36. rewrite N.Div0.mod_mul_r.
  rewrite (N.mul_comm 36), N.Div0.mod_add. apply N.Div0.mod_mod.
Qed.

Lemma shift36_mod (h m : N) : shift36 (h `mod` (36 * m)) = (shift36 h `mod` m)%N.
Proof.
  unfold shift36. rewrite N.Div0.mod_mul_r.
  rewrite (N.mul_comm 36), N.div_add by discriminate.
  rewrite (N.div_small (h `mod` 36)) by (apply N.mod_lt; discriminate). lia.
Qed.

Lemma digest5_mod (h : N) : digest5 (h `mod` 36 ^ 5) = digest5 h.
Proof.
  unfold digest5.
  change (36 ^ 5)%N with (36 * (36 * (36 * (36 * (36 * 1)))))%N.
  by rewrite !shift36_mod, !low36_mod.
Qed.

Lemma digest5_eq_iff (h1 h2 : N) :
  digest5 h1 = digest5 h2 ↔ (h1 `mod` 36 ^ 5 = h2 `mod` 36 ^ 5)%N.
Proof.
  split.
  - intros Heq. apply (f_equal digest_value) in Heq.
    rewrite !digest5_value in Heq. congruence.
  - intros Heq. by rewrite <- (digest5_mod h1), <- (digest5_mod h2), Heq.
Qed.

(** ** The mount engine, call by call *)

Section EngineFacts.

Variable os : os_behaviour.
Variable hasher : string → N.

Lemma loadKernelModule_world w m :
  ∃ c, (loadKernelModule os w m).2 = log c w ∧ loop_call c.
Proof. eexists. split; [reflexivity|exact I]. Qed.

(** What the fallback loop leaves: the user and the earlier calls are kept,
    the new calls are calls of the loop, and either one type mounted (then
    only [mountedFiles] grew and the target is a mount) or none did (then
    the entries are untouched and at most the context message went to
    [mountedFails]). *)
Lemma tryFsTypes_spec types isoFile mountPoint w s :
  ∀ ok w' s', tryFsTypes os types isoFile mountPoint w s = (ok, w', s') →
    euid w' = euid w
    ∧ (∃ evs, trace w' = trace w ++ evs ∧ Forall loop_call evs)
    ∧ (if ok
       then ∃ fsType, fsType ∈ types
              ∧ s' = insertMounted (mountedFileInfo isoFile mountPoint fsType) s
              ∧ nodes w' = <[mountPoint := MountedFs (loop_f_flag os)]> (nodes w)
       else nodes w' = nodes w
            ∧ (s' = s ∨ s' = insertFailed (contextFailedMessage isoFile) s)).
Proof.
  revert w. induction types as [|fsType rest IH]; intros w ok w' s' Hrun.
  - simpl in Hrun. simplify_eq. split; [done|]. split; [|by auto].
    exists []. by rewrite app_nil_r.
  - cbn [tryFsTypes] in Hrun.
    set (w1 := match fsTypeToModule !! fsType with
               | Some moduleName =>
                   let '(loaded, w0) := loadKernelModule os w moduleName in
                   if loaded then w0
                   else log (sys_stderr (moduleWarning moduleName fsType)) w0
               | None => w
               end) in *.
    assert (Hw1 : euid w1 = euid w ∧ nodes w1 = nodes w
                  ∧ ∃ evs, trace w1 = trace w ++ evs ∧ Forall loop_call evs).
    { subst w1. destruct (fsTypeToModule !! fsType) as [m|].
      - unfold loadKernelModule. cbn.
        destruct (system_status os w _ =? 0); cbn.
        + repeat split. eexists. split; [reflexivity|]. by repeat constructor.
        + repeat split. eexists. rewrite <- app_assoc. split; [reflexivity|].
          by repeat constructor.
      - repeat split. exists []. by rewrite app_nil_r. }
    destruct Hw1 as (He1 & Hn1 & evs1 & Ht1 & Hc1).
    destruct (new_context_ok os w1); cbn [negb] in Hrun.
    + unfold mnt_context_mount in Hrun.
      destruct (mount_status os _ isoFile mountPoint fsType =? 0) eqn:Hret.
      * rewrite Hret in Hrun. simplify_eq. cbn. split; [done|]. split.
        -- exists (evs1 ++ [sys_new_context; sys_mount isoFile mountPoint fsType "loop,ro"]).
           rewrite Ht1, <- !app_assoc. split; [done|].
           apply Forall_app. split; [done|]. by repeat constructor.
        -- exists fsType. split; [left|]. by rewrite Hn1.
      * rewrite Hret in Hrun. apply IH in Hrun as (He & (evs & Ht & Hc) & Hres).
        cbn in He, Ht. split; [congruence|]. split.
        -- exists (evs1 ++ [sys_new_context; sys_mount isoFile mountPoint fsType "loop,ro"] ++ evs).
           rewrite Ht, Ht1, <- !app_assoc. split; [done|].
           apply Forall_app. split; [done|]. apply Forall_app. split; [|done].
           by repeat constructor.
        -- destruct ok.
           ++ destruct Hres as (ty & Hty & -> & Hn). exists ty.
              split; [by right|]. split; [done|]. by rewrite Hn; cbn; rewrite Hn1.
           ++ destruct Hres as [Hn Hs]. split; [|done]. by rewrite Hn; cbn; rewrite Hn1.
    + simplify_eq. cbn. split; [done|]. split.
      * exists (evs1 ++ [sys_new_context]). rewrite Ht1, <- app_assoc. split; [done|].
        apply Forall_app. split; [done|]. by repeat constructor.
      * split; [done|]. by right.
Qed.

(** When no attempt can succeed the loop ends with [mountSuccess] false. *)
Lemma tryFsTypes_all_fail types isoFile mountPoint w s :
  (∀ w0 fsType, mount_status os w0 isoFile mountPoint fsType ≠ 0) →
  (tryFsTypes os types isoFile mountPoint w s).1.1 = false.
Proof.
  intros Hfail. revert w. induction types as [|fsType rest IH]; intros w; [done|].
  cbn [tryFsTypes].
  match goal with |- context [new_context_ok os ?w1] =>
    destruct (new_context_ok os w1); cbn [negb]; [|done] end.
  unfold mnt_context_mount.
  match goal with |- context [mount_status os ?w2 _ _ _ =? 0] =>
    destruct (mount_status os w2 isoFile mountPoint fsType =? 0) eqn:E end.
  { apply Z.eqb_eq in E. by apply Hfail in E. }
  rewrite ?E. apply IH.
Qed.

(** What the two calls of [std::filesystem] leave when they return. *)
Lemma fs_exists_returned w path there w' :
  fs_exists os w path = Cpp.Ret (there, w') →
  w' = log (sys_exists path) w ∧ there = bool_decide (is_Some (nodes w !! path)).
Proof.
  unfold fs_exists. destruct (nodes w !! path) as [n|] eqn:Hn.
  - intros [= <- <-]. split; [done|]. by rewrite bool_decide_eq_true_2.
  - destruct (exists_error os w path); [done|]. intros [= <- <-]. split; [done|].
    rewrite bool_decide_eq_false_2; [done|]. by intros [? ?].
Qed.

Lemma fs_exists_present w path n :
  nodes w !! path = Some n → fs_exists os w path = Cpp.Ret (true, log (sys_exists path) w).
Proof. intros Hn. unfold fs_exists. by rewrite Hn. Qed.

Lemma fs_exists_absent w path :
  nodes w !! path = None → exists_error os w path = None →
  fs_exists os w path = Cpp.Ret (false, log (sys_exists path) w).
Proof. intros Hn He. unfold fs_exists. by rewrite Hn, He. Qed.

Lemma fs_remove_returned w path removed w' :
  fs_remove os w path = Cpp.Ret (removed, w') →
  euid w' = euid w
  ∧ nodes w' = delete path (nodes w)
  ∧ trace w' = trace w ++ [sys_remove path].
Proof.
  unfold fs_remove.
  destruct (nodes w !! path) as [[|[|k]|f]|] eqn:Hn; try done;
    (destruct (remove_error os w path); [done|]); intros [= <- <-]; cbn; try done.
  split; [done|]. split; [|done]. symmetry. by apply delete_id.
Qed.

Lemma fs_remove_empty_directory w path :
  nodes w !! path = Some (Directory 0) → remove_error os w path = None →
  fs_remove os w path
  = Cpp.Ret (true, World (euid w) (delete path (nodes w)) (trace w ++ [sys_remove path])).
Proof. intros Hn He. unfold fs_remove. by rewrite Hn, He. Qed.

End EngineFacts.

(** Membership in a trace written as a concatenation of calls. *)
Ltac among_calls := rewrite ?elem_of_app, ?list_elem_of_singleton; auto 10.

Section EngineTheorems.

Variable os : os_behaviour.
Variable hasher : string → N.

Local Arguments tryFsTypes : simpl never.

Lemma isAlreadyMounted_world w mountPoint :
  (isAlreadyMounted os w mountPoint).2 = log (sys_statvfs mountPoint) w.
Proof. unfold isAlreadyMounted. by destruct (statvfs os w mountPoint). Qed.

Lemma isAlreadyMounted_absent w mountPoint :
  nodes w !! mountPoint = None → (isAlreadyMounted os w mountPoint).1 = false.
Proof. intros H. unfold isAlreadyMounted, statvfs. by rewrite H. Qed.

(** Every run of the loop body starts with [statvfs] on the derived mount
    point and only adds calls. *)
Lemma mountOne_calls isoFile w s :
  ∃ evs, trace (final_state (mountOne os hasher isoFile w s)).1
         = trace w ++ sys_statvfs (mountPointOf hasher isoFile) :: evs.
Proof.
  assert (Hloop : ∀ w5 evs5,
    trace w5 = trace w ++ sys_statvfs (mountPointOf hasher isoFile) :: evs5 →
    ∃ evs,
      trace (final_state
        (let '(mountSuccess, w6, s6) :=
           tryFsTypes os fsTypes isoFile (mountPointOf hasher isoFile) w5 s in
         if mountSuccess then Returned (w6, s6)
         else match fs_remove os w6 (mountPointOf hasher isoFile) with
              | Cpp.Throw e =>
                  Raised e (log (sys_remove (mountPointOf hasher isoFile)) w6, s6)
              | Cpp.Ret (_, w7) => Returned (w7, insertFailed (badFSMessage isoFile) s6)
              end)).1
      = trace w ++ sys_statvfs (mountPointOf hasher isoFile) :: evs).
  { intros w5 evs5 H5. destruct (tryFsTypes _ _ _ _ _ _) as [[ok w6] s6] eqn:Ht.
    apply tryFsTypes_spec in Ht as (_ & (evs & Ht & _) & _).
    destruct ok; [cbn; rewrite Ht, H5, <- app_assoc; by eexists|].
    destruct (fs_remove os w6 _) as [[removed w7]|e] eqn:Hr; cbn.
    - apply fs_remove_returned in Hr as (_ & _ & ->).
      rewrite Ht, H5, <- !app_assoc. by eexists.
    - rewrite Ht, H5, <- !app_assoc. by eexists. }
  unfold mountOne.
  destruct (isAlreadyMounted os w (mountPointOf hasher isoFile)) as [already w1] eqn:Ha.
  assert (w1 = log (sys_statvfs (mountPointOf hasher isoFile)) w) as ->.
  { by rewrite <- isAlreadyMounted_world, Ha. }
  destruct already; [by exists []|].
  cbn [log euid]. destruct (euid w =? 0); cbn [negb].
  2:{ cbn. rewrite <- app_assoc. by eexists. }
  destruct (fs_exists os _ _) as [[there w3]|e] eqn:He.
  2:{ cbn. rewrite <- !app_assoc. by eexists. }
  apply fs_exists_returned in He as [-> _].
  destruct there.
  - eapply Hloop. cbn. by rewrite <- !app_assoc.
  - unfold fs_create_directory. cbn [log nodes trace euid].
    destruct (nodes w !! _); cbn [mbind exc_bind Cpp.bind].
    + eapply Hloop. cbn. by rewrite <- !app_assoc.
    + destruct (create_directory_error _ _ _); cbn [mbind exc_bind Cpp.bind].
      * cbn. rewrite <- !app_assoc. by eexists.
      * eapply Hloop. cbn. by rewrite <- !app_assoc.
Qed.





(** C10.  An empty directory is already at the mount point (on a file system
    mounted [nodev], so that [isAlreadyMounted] does not take it for a
    mount), the caller is root, no type mounts the image and the host lets
    the directory be removed: [mountIsoFile] never calls [create_directory],
    calls [fs::remove] on the mount point all the same, and the directory it
    did not create is gone afterwards. *)
Theorem existing_empty_directory_removed_too isoFile w s :
  nodes w !! mountPointOf hasher isoFile = Some (Directory 0) →
  Z.land (host_f_flag os (mountPointOf hasher isoFile)) ST_NODEV ≠ 0 →
  euid w = 0 →
  (∀ w0 fsType, mount_status os w0 isoFile (mountPointOf hasher isoFile) fsType ≠ 0) →
  (∀ w0, remove_error os w0 (mountPointOf hasher isoFile) = None) →
  ∃ w' s' evs, mountIsoFile os hasher [isoFile] w s = Returned (w', s')
    ∧ trace w' = trace w ++ evs
    ∧ Forall (λ c, ¬ is_create c) evs
    ∧ sys_remove (mountPointOf hasher isoFile) ∈ evs
    ∧ nodes w' = delete (mountPointOf hasher isoFile) (nodes w)
    ∧ nodes w' !! mountPointOf hasher isoFile = None
    ∧ badFSMessage isoFile ∈ mountedFails s'.
Proof.
  intros Hdir Hflag Heuid Hfail Hremove. cbn [mountIsoFile]. unfold mountOne.
  destruct (isAlreadyMounted os w (mountPointOf hasher isoFile)) as [already w1] eqn:Ha.
  assert (w1 = log (sys_statvfs (mountPointOf hasher isoFile)) w) as ->.
  { by rewrite <- isAlreadyMounted_world, Ha. }
  assert (already = false) as ->.
  { apply (f_equal fst) in Ha. cbn in Ha. rewrite <- Ha.
    unfold isAlreadyMounted, statvfs. rewrite Hdir. cbn. by apply Z.eqb_neq. }
  cbn [log euid]. rewrite Heuid. cbn [Z.eqb negb].
  rewrite (fs_exists_present os _ _ (Directory 0)) by done.
  destruct (tryFsTypes _ _ _ _ _ _) as [[ok w6] s6] eqn:Ht.
  match type of Ht with tryFsTypes _ _ _ _ ?w5 _ = _ =>
    pose proof (tryFsTypes_all_fail os fsTypes isoFile _ w5 s Hfail) as Hok end.
  rewrite Ht in Hok. cbn in Hok. subst ok.
  apply tryFsTypes_spec in Ht as (_ & (evs & Ht & Hloop) & Hn & Hs). cbn in Ht, Hn.
  rewrite (fs_remove_empty_directory os w6 _); [|by rewrite Hn|apply Hremove].
  eexists _, _, _. split; [done|]. cbn. rewrite Hn, Ht, <- !app_assoc.
  split; [done|]. split.
  { rewrite !Forall_app, !Forall_singleton.
    split_and!; try (by intros []).
    eapply Forall_impl; [exact Hloop|]. intros c Hc Hk. destruct c; cbn in *; tauto. }
  split; [among_calls|]. split; [done|]. split; [apply lookup_delete_eq|].
  destruct Hs; subst; cbn; set_solver.
Qed.

Lemma isAlreadyMounted_nodes w1 w2 mountPoint :
  nodes w1 = nodes w2 →
  (isAlreadyMounted os w1 mountPoint).1 = (isAlreadyMounted os w2 mountPoint).1.
Proof. intros Hn. unfold isAlreadyMounted, statvfs. rewrite Hn. by repeat case_match. Qed.

(** Without privilege the loop body ends at the privilege test at the
    latest: it makes no call but [statvfs] and [geteuid]. *)
Lemma mountOne_unprivileged isoFile w s :
  euid w ≠ 0 →
  ∃ w' s' evs, mountOne os hasher isoFile w s = Returned (w', s')
    ∧ euid w' = euid w ∧ nodes w' = nodes w
    ∧ trace w' = trace w ++ evs
    ∧ Forall (λ c, ¬ is_mount c ∧ ¬ is_create c) evs
    ∧ mountedFiles s' = mountedFiles s
    ∧ skippedMessages s ⊆ skippedMessages s'
    ∧ mountedFails s ⊆ mountedFails s'
    ∧ if (isAlreadyMounted os w (mountPointOf hasher isoFile)).1
      then skippedMessage isoFile (mountPointOf hasher isoFile) ∈ skippedMessages s'
      else rootRequiredMessage isoFile ∈ mountedFails s'.
Proof.
  intros Huser. unfold mountOne.
  destruct (isAlreadyMounted os w (mountPointOf hasher isoFile)) as [already w1] eqn:Ha.
  assert (w1 = log (sys_statvfs (mountPointOf hasher isoFile)) w) as ->.
  { by rewrite <- isAlreadyMounted_world, Ha. }
  cbn [fst]. destruct already.
  - eexists _, _, [_]. split; [done|]. cbn.
    split_and!; try done; [|set_solver..].
    apply Forall_singleton. split; by intros [].
  - cbn [log euid]. rewrite (proj2 (Z.eqb_neq _ _) Huser). cbn [negb].
    eexists _, _, [_; _]. split; [done|]. cbn. rewrite <- app_assoc.
    split_and!; try done; [|set_solver..].
    repeat (apply Forall_cons; split; [split; by intros []|]). constructor.
Qed.

(** Where the loop body writes: when it returns, messages went into exactly
    one of the three sets; when it is left by an exception, nothing was
    written, or the context message alone went into [mountedFails]. *)
Lemma mountOne_one_class isoFile w s :
  match mountOne os hasher isoFile w s with
  | Returned (_, s') => ∃ c msgs, msgs ≠ ∅ ∧ s' = grown c msgs s
  | Raised _ (_, s') => s' = s ∨ s' = grown Failed {[contextFailedMessage isoFile]} s
  end.
Proof.
  assert (Hone : ∀ c m, ∃ c' msgs, msgs ≠ ∅ ∧ grown c {[m]} s = grown c' msgs s).
  { intros c m. exists c, {[m]}. split; [set_solver|done]. }
  assert (Htwo : ∀ m1 m2, ∃ c' msgs, msgs ≠ ∅
            ∧ insertFailed m1 (insertFailed m2 s) = grown c' msgs s).
  { intros m1 m2. exists Failed, ({[m1]} ∪ {[m2]}). split; [set_solver|].
    unfold insertFailed, grown. cbn. f_equal. apply (assoc_L (∪)). }
  assert (Hloop : ∀ w5,
    match (let '(mountSuccess, w6, s6) :=
             tryFsTypes os fsTypes isoFile (mountPointOf hasher isoFile) w5 s in
           if mountSuccess then Returned (w6, s6)
           else match fs_remove os w6 (mountPointOf hasher isoFile) with
                | Cpp.Throw e => Raised e (log (sys_remove (mountPointOf hasher isoFile)) w6, s6)
                | Cpp.Ret (_, w7) => Returned (w7, insertFailed (badFSMessage isoFile) s6)
                end) with
    | Returned (_, s') => ∃ c msgs, msgs ≠ ∅ ∧ s' = grown c msgs s
    | Raised _ (_, s') => s' = s ∨ s' = grown Failed {[contextFailedMessage isoFile]} s
    end).
  { intros w5. destruct (tryFsTypes _ _ _ _ _ _) as [[ok w6] s6] eqn:Ht.
    apply tryFsTypes_spec in Ht as (_ & _ & Hres). destruct ok.
    - destruct Hres as (ty & _ & -> & _). apply (Hone Mounted).
    - destruct Hres as [_ Hs6].
      destruct (fs_remove os w6 _) as [[removed w7]|e].
      + destruct Hs6 as [->| ->]; [apply (Hone Failed)|apply Htwo].
      + destruct Hs6 as [->| ->]; auto. }
  unfold mountOne.
  destruct (isAlreadyMounted os w (mountPointOf hasher isoFile)) as [already w1].
  destruct already; [apply (Hone Skipped)|].
  destruct (negb _); [apply (Hone Failed)|].
  destruct (fs_exists os _ _) as [[there w3]|e]; [|by left].
  destruct there; [apply Hloop|].
  destruct (fs_create_directory _ _ _) as [[made w4]|e]; cbn.
  - apply Hloop.
  - destruct e; auto. apply (Hone Failed).
Qed.

End EngineTheorems.

(** The three statements above on a small system: the image [/data/x.iso]
    (of mount point [/mnt/iso_x_b0000] under [length_hasher]). *)




Lemma existing_empty_directory_removed_too_witness :
  ∃ w' s' evs,
    mountIsoFile os_nothing_mounts length_hasher ["/data/x.iso"]
      (world_of 0 [("/mnt/iso_x_b0000", Directory 0)]) no_outcomes = Returned (w', s')
    ∧ trace w' = trace (world_of 0 [("/mnt/iso_x_b0000", Directory 0)]) ++ evs
    ∧ Forall (λ c, ¬ is_create c) evs
    ∧ sys_remove (mountPointOf length_hasher "/data/x.iso") ∈ evs
    ∧ nodes w' = delete (mountPointOf length_hasher "/data/x.iso")
                   (nodes (world_of 0 [("/mnt/iso_x_b0000", Directory 0)]))
    ∧ nodes w' !! mountPointOf length_hasher "/data/x.iso" = None
    ∧ badFSMessage "/data/x.iso" ∈ mountedFails s'.
Proof.
  apply (existing_empty_directory_removed_too os_nothing_mounts length_hasher
           "/data/x.iso" (world_of 0 [("/mnt/iso_x_b0000", Directory 0)]) no_outcomes).
  - vm_compute. reflexivity.
  - vm_compute. discriminate.
  - reflexivity.
  - intros w0 fsType. vm_compute. discriminate.
  - intros w0. reflexivity.
Defined.

(** The same directory on a host where [/mnt] cannot be written: [fs::remove]
    throws, the directory stays, and no message is put into any set. *)
Example readonly_host_keeps_directory :
  ∃ w',
    mountIsoFile os_readonly_mnt length_hasher ["/data/x.iso"]
      (world_of 0 [("/mnt/iso_x_b0000", Directory 0)]) no_outcomes
    = Raised (Cpp.filesystem_error "Read-only file system") (w', no_outcomes)
    ∧ nodes w' !! "/mnt/iso_x_b0000" = Some (Directory 0).
Proof. eexists. split; vm_compute; reflexivity. Qed.

(** C6 at the input where the code leaves it.  A directory that holds an
    entry sits at the mount point of [/data/x.iso], on a file system mounted
    [nodev]; the caller is root and no type mounts the image.  [fs::remove]
    throws before the message is inserted: [mountIsoFile] is left by the
    exception and the three sets are as empty as before.  Under the
    orchestrator the closure ends there, [completedTasks] stays at 0 and
    [activeTaskCount] at 1, and the calling thread cannot leave its wait. *)
Theorem remove_failure_leaves_image_unclassified :
  (∃ w', mountIsoFile os_nothing_mounts length_hasher ["/data/x.iso"]
           (world_of 0 [("/mnt/iso_x_b0000", Directory 1)]) no_outcomes
         = Raised (Cpp.filesystem_error "Directory not empty") (w', no_outcomes))
  ∧ ∃ st, execute os_nothing_mounts length_hasher 4 isAllZeros_spec isNumeric_spec
            ["/data/x.iso"] "1" [RunTask 0]
            (world_of 0 [("/mnt/iso_x_b0000", Directory 1)]) no_outcomes ∅ = Some st
          ∧ dispatched st = [1]
          ∧ the_sets st = no_outcomes
          ∧ uniqueErrorMessages st = ∅
          ∧ completedTasks st = 0 ∧ activeTasks st = 1
          ∧ step os_nothing_mounts length_hasher ["/data/x.iso"] 1 MainStep st = None.
Proof.
  split.
  - eexists. vm_compute. reflexivity.
  - eexists. split; [vm_compute; reflexivity|]. repeat split.
Qed.

(** ** Mount points of distinct paths *)

(** Two paths with one base name meet exactly when their digests meet. *)
Lemma mountPointOf_eq_iff (hasher : string → N) (p q : string) :
  Path.stem p = Path.stem q →
  mountPointOf hasher p = mountPointOf hasher q ↔ digest5 (hasher p) = digest5 (hasher q).
Proof.
  intros Hstem. unfold mountPointOf, uniqueId. rewrite Hstem, !shortHashOf_digest5.
  split; [|by intros ->].
  intros Heq. by do 3 apply String.app_inj in Heq.
Qed.

Lemma deepPath_rfind (n : nat) : Cpp.rfind "/" (deepPath n) = Some n.
Proof. induction n as [|n IH]; [reflexivity|]. cbn [deepPath Cpp.rfind]. by rewrite IH. Qed.

Lemma deepPath_tail (n : nat) : Cpp.substr_from (deepPath n) (S n) = "x.iso".
Proof. induction n as [|n IH]; [reflexivity|]. exact IH. Qed.

Lemma deepPath_stem (n : nat) : Path.stem (deepPath n) = "x".
Proof.
  unfold Path.stem, Path.filename. rewrite deepPath_rfind, deepPath_tail. reflexivity.
Qed.

Lemma deepPath_length (n : nat) : String.length (deepPath n) = (n + 6)%nat.
Proof. induction n as [|n IH]; [reflexivity|]. cbn [deepPath String.length]. by rewrite IH. Qed.

Lemma deepPath_inj (i j : nat) : deepPath i = deepPath j → i = j.
Proof.
  intros Heq. apply (f_equal String.length) in Heq. rewrite !deepPath_length in Heq. lia.
Qed.

(** A bounded search over the first [n] numbers. *)
Lemma bounded_search (P : nat → Prop) (Hdec : ∀ i, Decision (P i)) (n : nat) :
  (∃ i, (i < n)%nat ∧ P i) ∨ (∀ i, (i < n)%nat → ¬ P i).
Proof.
  induction n as [|n [(i & Hi & HP)|Hnone]].
  - right. intros i Hi. lia.
  - left. exists i. split; [lia|done].
  - destruct (Hdec n) as [HP|HnP].
    + left. exists n. split; [lia|done].
    + right. intros i Hi. destruct (decide (i = n)) as [->|]; [done|].
      apply Hnone. lia.
Qed.

(** The pigeonhole principle: [m + 1] numbers below [m] cannot all differ. *)
Lemma pigeonhole (m : nat) (f : nat → nat) :
  (∀ i, (i ≤ m)%nat → (f i < m)%nat) →
  ∃ i j, (i < j)%nat ∧ (j ≤ m)%nat ∧ f i = f j.
Proof.
  revert f. induction m as [|m IH]; intros f Hf.
  - specialize (Hf 0%nat). lia.
  - destruct (bounded_search (λ i, f i = f (S m)) _ (S m)) as [(i & Hi & Heq)|Hfresh].
    { exists i, (S m). split; [lia|]. split; [lia|done]. }
    destruct (IH (λ i, if decide (f i = m) then f (S m) else f i)) as (i & j & Hij & Hj & Heq).
    { intros i Hi. pose proof (Hf i ltac:(lia)). pose proof (Hf (S m) ltac:(lia)).
      pose proof (Hfresh i ltac:(lia)). case_decide; lia. }
    exists i, j. split; [done|]. split; [lia|].
    pose proof (Hfresh i ltac:(lia)). pose proof (Hfresh j ltac:(lia)).
    repeat case_decide; congruence.
Qed.

(** Whatever the hash function, two of the paths [deepPath 0], [deepPath 1],
    ... fall on one mount point. *)
Lemma mountPointOf_collision (hasher : string → N) :
  ∃ p q, p ≠ q ∧ Path.stem p = Path.stem q ∧ mountPointOf hasher p = mountPointOf hasher q.
Proof.
  set (m := N.to_nat (36 ^ 5)).
  destruct (pigeonhole m (λ n, N.to_nat (hasher (deepPath n) `mod` 36 ^ 5)%N))
    as (i & j & Hij & _ & Heq).
  { intros i _. subst m.
    pose proof (N.mod_lt (hasher (deepPath i)) (36 ^ 5) ltac:(discriminate)) as Hlt.
    revert Hlt. generalize (36 ^ 5)%N (hasher (deepPath i) `mod` 36 ^ 5)%N. lia. }
  apply N2Nat.inj in Heq.
  exists (deepPath i), (deepPath j). split.
  { intros Hp. apply deepPath_inj in Hp. lia. }
  split; [by rewrite !deepPath_stem|].
  apply mountPointOf_eq_iff; [by rewrite !deepPath_stem|]. by apply digest5_eq_iff.
Qed.

(** C2.  The derived mount point is ["/mnt/iso_"], the stem of the path, an
    underscore and five base-36 characters that are the digits of the hash
    modulo [36^5], lowest digit first; and the string depends on the path
    alone: in any two states of the system and of the outcome sets the loop
    body of [mountIsoFile] queries the same mount point. *)
Theorem mountPoint_derivation (os : os_behaviour) (hasher : string → N) (isoFile : string) :
  mountPointOf hasher isoFile
    = "/mnt/iso_" +:+ Path.stem isoFile +:+ "_" +:+ digest5 (hasher isoFile)
  ∧ String.length (digest5 (hasher isoFile)) = 5%nat
  ∧ digest_value (digest5 (hasher isoFile)) = Some (hasher isoFile `mod` 36 ^ 5)%N
  ∧ ∀ w1 s1 w2 s2, ∃ evs1 evs2,
      trace (final_state (mountOne os hasher isoFile w1 s1)).1
        = trace w1 ++ sys_statvfs (mountPointOf hasher isoFile) :: evs1
      ∧ trace (final_state (mountOne os hasher isoFile w2 s2)).1
        = trace w2 ++ sys_statvfs (mountPointOf hasher isoFile) :: evs2.
Proof.
  split; [reflexivity|]. split; [apply digest5_length|]. split; [apply digest5_value|].
  intros w1 s1 w2 s2.
  destruct (mountOne_calls os hasher isoFile w1 s1) as [evs1 H1].
  destruct (mountOne_calls os hasher isoFile w2 s2) as [evs2 H2].
  by exists evs1, evs2.
Qed.

(** C7, as amended.  Two source paths with the same base name are given the
    same mount point exactly when their hashes agree modulo [36^5]. *)
Theorem same_stem_mount_points (hasher : string → N) (p q : string) :
  Path.stem p = Path.stem q →
  mountPointOf hasher p = mountPointOf hasher q
  ↔ (hasher p `mod` 36 ^ 5 = hasher q `mod` 36 ^ 5)%N.
Proof.
  intros Hstem. rewrite mountPointOf_eq_iff by done. apply digest5_eq_iff.
Qed.

Lemma same_stem_mount_points_witness :
  Path.stem "/a/x.iso" = Path.stem "/b/x.img"
  ∧ (mountPointOf (λ s, 36 ^ 5 * N.of_nat (String.length s) + 7)%N "/a/x.iso"
     = mountPointOf (λ s, 36 ^ 5 * N.of_nat (String.length s) + 7)%N "/b/x.img"
     ↔ ((36 ^ 5 * 8 + 7) `mod` 36 ^ 5 = (36 ^ 5 * 8 + 7) `mod` 36 ^ 5)%N).
Proof.
  split; [reflexivity|].
  apply (same_stem_mount_points (λ s, 36 ^ 5 * N.of_nat (String.length s) + 7)%N
           "/a/x.iso" "/b/x.img").
  reflexivity.
Defined.

(** C7, as stated, fails for every hash function: there is none under which
    distinct paths with one base name always get distinct mount points. *)
Lemma same_stem_collision_unavoidable :
  ¬ ∃ hasher : string → N,
      ∀ p q, p ≠ q → Path.stem p = Path.stem q →
             mountPointOf hasher p ≠ mountPointOf hasher q.
Proof.
  intros (hasher & Hdistinct).
  destruct (mountPointOf_collision hasher) as (p & q & Hne & Hstem & Heq).
  by apply (Hdistinct p q).
Qed.

(** ** The selection scan *)

Lemma stoi_bounds (s : string) (n : Z) :
  Cpp.stoi s = Cpp.Ret n → Cpp.INT_MIN ≤ n ≤ Cpp.INT_MAX.
Proof.
  unfold Cpp.stoi. intros H. repeat case_match; simplify_eq; lia.
Qed.

Lemma to_size_t_small (n : Z) : 0 ≤ n ≤ Cpp.INT_MAX → Cpp.to_size_t n = n.
Proof.
  intros Hn. unfold Cpp.to_size_t, Cpp.SIZE_WIDTH. apply Z.mod_small.
  unfold Cpp.INT_MAX in Hn. lia.
Qed.

Lemma rangeIndices_between (start end_ i : Z) :
  i ∈ rangeIndices start end_ → Z.min start end_ ≤ i ≤ Z.max start end_.
Proof.
  unfold rangeIndices. destruct (Z.leb_spec start end_).
  - rewrite elem_of_seqZ. lia.
  - rewrite list_elem_of_fmap. intros (k & -> & Hk%elem_of_seqZ). lia.
Qed.

Section SelectionFacts.

Variable maxThreads : nat.
Variable isAllZeros : string → bool.
Variable isNumeric : string → bool.
Variable isoFiles : list string.

Lemma outsideList_false (s : string) (n : Z) :
  Cpp.stoi s = Cpp.Ret n → outsideList isoFiles n = false → inList isoFiles n.
Proof.
  intros Hs%stoi_bounds Ho. unfold outsideList, listSize in Ho. unfold inList.
  apply orb_false_iff in Ho as [H1%Z.ltb_ge H2%Z.ltb_ge].
  rewrite to_size_t_small in H2 by lia. lia.
Qed.

Lemma wellFormed_noSubmission : wellFormed isoFiles noSubmission.
Proof.
  unfold wellFormed, noSubmission. cbn.
  split; [constructor|]. split; [set_solver|]. split; [constructor|]. done.
Qed.

Lemma wellFormed_addError (error : string) (sub : submission) :
  wellFormed isoFiles sub → wellFormed isoFiles (addError error sub).
Proof. done. Qed.

Lemma wellFormed_submit (i : Z) (sub : submission) :
  inList isoFiles i → wellFormed isoFiles sub → wellFormed isoFiles (submit i sub).
Proof.
  intros Hi (Hnd & Hq & Hall & Ht & Ha). unfold submit.
  case_decide as Hin; [done|]. unfold wellFormed. cbn.
  split. { apply NoDup_app. split; [done|]. split; [|apply NoDup_singleton].
           intros x Hx ->%list_elem_of_singleton. by apply Hin, Hq. }
  split. { intros x. rewrite elem_of_app, list_elem_of_singleton, elem_of_union,
             elem_of_singleton, Hq. tauto. }
  split. { apply Forall_app. split; [done|]. by apply Forall_singleton. }
  rewrite length_app. cbn. lia.
Qed.

Lemma wellFormed_submitAll (indices : list Z) (sub : submission) :
  Forall (inList isoFiles) indices → wellFormed isoFiles sub →
  wellFormed isoFiles (foldl (λ acc i, submit i acc) sub indices).
Proof.
  revert sub. induction indices as [|i rest IH]; intros sub Hall Hsub; [done|].
  apply Forall_cons in Hall as [Hi Hrest]. cbn. apply IH; [done|].
  by apply wellFormed_submit.
Qed.

Lemma wellFormed_submitRange (start end_ : Z) (sub : submission) :
  inList isoFiles start → inList isoFiles end_ →
  wellFormed isoFiles sub → wellFormed isoFiles (submitRange start end_ sub).
Proof.
  intros Hs He Hsub. unfold submitRange. case_decide; [done|].
  apply wellFormed_submitAll; [|done].
  apply Forall_forall. intros i Hi%rangeIndices_between.
  unfold inList in *. lia.
Qed.

(** Whatever holds of the empty submission and is kept by the three updates
    of the loop holds of what the scan leaves, whether it ended or threw. *)
Lemma selectLoop_invariant (P : submission → Prop) :
  (∀ error sub, P sub → P (addError error sub)) →
  (∀ i sub, inList isoFiles i → P sub → P (submit i sub)) →
  (∀ start end_ sub, inList isoFiles start → inList isoFiles end_ →
                     P sub → P (submitRange start end_ sub)) →
  ∀ toks sub, P sub → P (final_state (selectLoop isAllZeros isNumeric isoFiles toks sub)).
Proof.
  intros Herr Hsubmit Hrange toks.
  induction toks as [|token rest IH]; intros sub Hsub; [done|].
  cbn [selectLoop].
  case_decide; [done|].
  destruct (isAllZeros token); [by apply IH, Herr|].
  destruct (Cpp.find "-" token) as [dashPos|].
  - destruct (malformedRange token dashPos); [by apply IH, Herr|].
    destruct (Cpp.stoi (Cpp.substr token 0 dashPos)) as [start|e] eqn:Hstart; cbn.
    + destruct (Cpp.stoi (Cpp.substr_from token (S dashPos))) as [end_|e] eqn:Hend; cbn.
      * destruct (outsideList isoFiles start) eqn:Hos; cbn; [by apply IH, Herr|].
        destruct (outsideList isoFiles end_) eqn:Hoe; cbn; [by apply IH, Herr|].
        apply IH, Hrange; [by eapply outsideList_false..|done].
      * destruct e; [by apply IH, Herr..|done].
    + destruct e; [by apply IH, Herr..|done].
  - destruct (isNumeric token); [|by apply IH, Herr].
    destruct (Cpp.stoi token) as [num|e] eqn:Hnum; [|done].
    destruct ((1 <=? num) && (Cpp.to_size_t num <=? listSize isoFiles)) eqn:Hin.
    + apply IH, Hsubmit; [|done].
      apply andb_true_iff in Hin as [H1%Z.leb_le H2%Z.leb_le].
      apply stoi_bounds in Hnum. rewrite to_size_t_small in H2 by lia.
      unfold inList, listSize in *. lia.
    + destruct (listSize isoFiles <? Cpp.to_size_t num); [by apply IH, Herr|by apply IH].
Qed.

Lemma selectLoop_wellFormed (toks : list string) :
  wellFormed isoFiles
    (final_state (selectLoop isAllZeros isNumeric isoFiles toks noSubmission)).
Proof.
  apply selectLoop_invariant;
    eauto using wellFormed_addError, wellFormed_submit, wellFormed_submitRange,
      wellFormed_noSubmission.
Qed.

(** The first scan does not throw on a token that the second scan reads as a
    range: it stops there (the ceiling is reached) or goes on with the rest. *)
Lemma countLoop_range_token (token : string) (start end_ : Z)
    (rest : list string) (tokens : gset string) :
  readsAsRange isAllZeros isoFiles token start end_ →
  ∃ tokens', countLoop maxThreads isoFiles (token :: rest) tokens = Cpp.Ret tokens'
             ∨ countLoop maxThreads isoFiles (token :: rest) tokens
               = countLoop maxThreads isoFiles rest tokens'.
Proof.
  intros (_ & _ & dashPos & Hfind & _ & Hs & He & _). cbn [countLoop].
  destruct (negb _); [by eauto|].
  case_decide; [by eauto|].
  destruct (1 <? _)%nat; [by eauto|].
  rewrite Hfind. destruct (_ && _); [|by eauto].
  rewrite Hs, He. cbn. destruct (_ && _); by eauto.
Qed.

(** C8, as amended.  A token that reads as a range whose bounds were already
    taken as a range in this call is passed over: the second scan goes on
    with the next token from the very same state, so no error message is
    queued for the token and nothing is submitted for it; and neither scan
    throws on it (the first one stops at its ceiling or goes on as well). *)
Theorem duplicate_range_passed_over (token : string) (start end_ : Z)
    (rest : list string) (sub : submission) (tokens : gset string) :
  readsAsRange isAllZeros isoFiles token start end_ →
  (start, end_) ∈ processedRanges sub →
  selectLoop isAllZeros isNumeric isoFiles (token :: rest) sub
  = selectLoop isAllZeros isNumeric isoFiles rest sub
  ∧ ∃ tokens', countLoop maxThreads isoFiles (token :: rest) tokens = Cpp.Ret tokens'
               ∨ countLoop maxThreads isoFiles (token :: rest) tokens
                 = countLoop maxThreads isoFiles rest tokens'.
Proof.
  intros Hreads Hdup. split; [|by eapply countLoop_range_token].
  destruct Hreads as (Hne & Hz & dashPos & Hfind & Hmal & Hs & He & Hos & Hoe).
  cbn [selectLoop]. rewrite decide_False by done.
  rewrite Hz, Hfind, Hmal, Hs, He. cbn. rewrite Hos, Hoe. cbn.
  unfold submitRange. by rewrite decide_True.
Qed.

(** The first time, the same token records its bounds. *)
Lemma range_recorded (token : string) (start end_ : Z)
    (rest : list string) (sub : submission) :
  readsAsRange isAllZeros isoFiles token start end_ →
  selectLoop isAllZeros isNumeric isoFiles (token :: rest) sub
  = selectLoop isAllZeros isNumeric isoFiles rest (submitRange start end_ sub)
  ∧ (start, end_) ∈ processedRanges (submitRange start end_ sub).
Proof.
  intros (Hne & Hz & dashPos & Hfind & Hmal & Hs & He & Hos & Hoe).
  split.
  - cbn [selectLoop]. rewrite decide_False by done.
    rewrite Hz, Hfind, Hmal, Hs, He. cbn. by rewrite Hos, Hoe.
  - unfold submitRange. case_decide as Hin; [done|].
    assert (Hkeep : ∀ indices acc, (start, end_) ∈ processedRanges acc →
              (start, end_) ∈ processedRanges (foldl (λ acc i, submit i acc) acc indices)).
    { induction indices as [|i indices IH]; intros acc Hacc; [done|].
      cbn. apply IH. unfold submit. by case_decide. }
    apply Hkeep. cbn. set_solver.
Qed.

End SelectionFacts.

Lemma duplicate_range_passed_over_witness :
  readsAsRange isAllZeros_spec ["/a/1.iso"; "/a/2.iso"] "1-2" 1 2
  ∧ (1, 2) ∈ processedRanges (submitRange 1 2 noSubmission)
  ∧ selectLoop isAllZeros_spec isNumeric_spec ["/a/1.iso"; "/a/2.iso"] ["1-2"; "2"]
      (submitRange 1 2 noSubmission)
    = selectLoop isAllZeros_spec isNumeric_spec ["/a/1.iso"; "/a/2.iso"] ["2"]
        (submitRange 1 2 noSubmission)
  ∧ ∃ tokens',
      countLoop 4 ["/a/1.iso"; "/a/2.iso"] ["1-2"; "2"] {["1"; "2"]} = Cpp.Ret tokens'
      ∨ countLoop 4 ["/a/1.iso"; "/a/2.iso"] ["1-2"; "2"] {["1"; "2"]}
        = countLoop 4 ["/a/1.iso"; "/a/2.iso"] ["2"] tokens'.
Proof.
  assert (Hreads : readsAsRange isAllZeros_spec ["/a/1.iso"; "/a/2.iso"] "1-2" 1 2).
  { split; [discriminate|]. split; [reflexivity|]. exists 1%nat.
    repeat split; vm_compute; reflexivity. }
  assert (Hdup : (1, 2) ∈ processedRanges (submitRange 1 2 noSubmission)).
  { vm_compute. set_solver. }
  split; [exact Hreads|]. split; [exact Hdup|].
  exact (duplicate_range_passed_over 4 isAllZeros_spec isNumeric_spec
           ["/a/1.iso"; "/a/2.iso"] "1-2" 1 2 ["2"] (submitRange 1 2 noSubmission)
           {["1"; "2"]} Hreads Hdup).
Defined.

(** C8, as stated, fails: the selection ["1-2 1-2"] over two images holds a
    duplicate range, and the call leaves [uniqueErrorMessages] empty (both
    indices are submitted once). *)
Lemma duplicate_range_not_reported :
  uniqueErrorMessages
    (processAndMountIsoFiles 4 isAllZeros_spec isNumeric_spec ["/a/1.iso"; "/a/2.iso"]
       "1-2 1-2" (world_of 0 []) no_outcomes ∅).2 = ∅
  ∧ pending
      (processAndMountIsoFiles 4 isAllZeros_spec isNumeric_spec ["/a/1.iso"; "/a/2.iso"]
         "1-2 1-2" (world_of 0 []) no_outcomes ∅).2 = [1; 2].
Proof. split; vm_compute; reflexivity. Qed.

(** ** The threads under a schedule *)

Section RunFacts.

Variable os : os_behaviour.
Variable hasher : string → N.
Variable maxThreads : nat.
Variable isAllZeros : string → bool.
Variable isNumeric : string → bool.
Variable isoFiles : list string.

Lemma run_invariant (P : run_state → Prop) (numThreads : nat) :
  (∀ a st st', P st → step os hasher isoFiles numThreads a st = Some st' → P st') →
  ∀ schedule st st', P st → run os hasher isoFiles numThreads schedule st = Some st' → P st'.
Proof.
  intros Hstep schedule. induction schedule as [|a rest IH]; intros st st' HP Hrun.
  - cbn in Hrun. by simplify_eq.
  - cbn in Hrun. destruct (step os hasher isoFiles numThreads a st) as [st1|] eqn:Hs; [|done].
    cbn in Hrun. eapply IH; [|exact Hrun]. by eapply Hstep.
Qed.

Lemma mountIsoFile_single (isoFile : string) (w : world) (s : outcome_sets) :
  mountIsoFile os hasher [isoFile] w s = mountOne os hasher isoFile w s.
Proof. cbn. by destruct (mountOne os hasher isoFile w s) as [[w' s']|e ws]. Qed.

Lemma isoFileAt_inList (i : Z) (isoFile : string) :
  isoFileAt isoFiles i = Some isoFile → inList isoFiles i.
Proof.
  unfold isoFileAt, inList. destruct (Z.leb_spec 1 i); [|done].
  intros Hl%lookup_lt_Some. lia.
Qed.

(** The state the scan hands over. *)
Lemma processAndMountIsoFiles_scanned (input : string) (w : world) (s : outcome_sets)
    (errors : gset string) :
  scanned isoFiles w s
    (processAndMountIsoFiles maxThreads isAllZeros isNumeric isoFiles input w s errors).2.
Proof.
  unfold processAndMountIsoFiles.
  destruct (countLoop _ _ _ _) as [tokens|e].
  2:{ unfold scanned. cbn. repeat (split; [first [done|constructor]|]).
      right. right. by eexists. }
  pose proof (selectLoop_wellFormed isAllZeros isNumeric isoFiles (Cpp.tokens_of input))
    as (Hnd & Hq & Hall & Ht & Ha).
  destruct (selectLoop _ _ _ _ _) as [sub|e sub]; cbn in *.
  - case_decide as Hempty; unfold scanned; cbn;
      repeat (split; [first [done|lia]|]).
    + right. left. split_and!; try done.
      rewrite Ht. destruct (queued sub) as [|i q]; [done|].
      assert (i ∈ (∅ : gset Z)) as []%not_elem_of_empty.
      rewrite <- Hempty. apply Hq. by left.
    + left. split_and!; try done.
      rewrite Ht. destruct (queued sub) as [|i q]; [|cbn; lia].
      exfalso. apply Hempty. apply elem_of_equiv_empty_L. intros i Hi.
      apply Hq in Hi. by apply elem_of_nil in Hi.
  - unfold scanned. cbn. repeat (split; [first [done|lia]|]).
    right. right. by eexists.
Qed.

(** The queue after a worker took the closure at position [k]. *)
Lemma elem_of_taken (l : list Z) (k : nat) (x i : Z) :
  l !! k = Some x → i ∈ l ↔ i = x ∨ i ∈ delete k l.
Proof.
  intros Hk. rewrite (delete_Permutation l k x Hk) at 1. apply elem_of_cons.
Qed.

Lemma length_taken (l : list Z) (k : nat) (x : Z) :
  l !! k = Some x → List.length l = S (List.length (delete k l)).
Proof. intros Hk. by rewrite (delete_Permutation l k x Hk) at 1. Qed.

Ltac step_cases Hstep :=
  match type of Hstep with
  | step _ _ _ _ ?a ?st = Some _ =>
      destruct a as [k| |]; cbn [step] in Hstep;
      [ destruct (poolMayRun _ k); [|discriminate Hstep];
        destruct (pending st !! k) as [index|] eqn:Hk; [|discriminate Hstep];
        cbn [mbind option_bind] in Hstep; unfold processTask in Hstep;
        cbn [take validIndices the_world the_sets pending dispatched
             uniqueErrorMessages submittedTasks completedTasks activeTasks
             isProcessingComplete main progress] in Hstep;
        destruct (decide (index ∈ validIndices st)) as [Hseen|Hnew];
        [ injection Hstep as <-
        | destruct (isoFileAt _ index) as [isoFile|] eqn:Hfile; [|discriminate Hstep];
          cbn [mbind option_bind] in Hstep; rewrite mountIsoFile_single in Hstep;
          destruct (mountOne _ _ isoFile (the_world st) (the_sets st))
            as [[w' s']|e [w' s']] eqn:Hmount;
          injection Hstep as <- ]
      | destruct (main st) eqn:Hmain; try discriminate Hstep;
        [ destruct (activeTasks st =? 0) eqn:Hzero; [|discriminate Hstep];
          injection Hstep as <-
        | injection Hstep as <-
        | destruct (progress st) eqn:Hprog; try discriminate Hstep;
          injection Hstep as <- ]
      | destruct (progress st) eqn:Hprog; try discriminate Hstep;
        unfold displayProgressBar in Hstep;
        destruct (isProcessingComplete st) eqn:Hflag; injection Hstep as <- ]
  end.

Lemma step_dispatching (queue0 : list Z) (numThreads : nat) (a : action)
    (st st' : run_state) :
  dispatching isoFiles queue0 st →
  step os hasher isoFiles numThreads a st = Some st' →
  dispatching isoFiles queue0 st'.
Proof.
  intros (Hnd & Hvalid & Hall & Hcover) Hstep. step_cases Hstep;
    unfold dispatching; cbn; try done.
  - split_and!; try done. intros i. rewrite Hcover, (elem_of_taken _ _ _ _ Hk).
    apply Hvalid in Hseen. split; [intros [[->|?]|?]|intros [?|?]]; auto.
  - assert (Hfresh : index ∉ dispatched st) by (by rewrite <- Hvalid).
    split_and!.
    + apply NoDup_app. split_and!; [done| |apply NoDup_singleton].
      intros x Hx ->%list_elem_of_singleton. done.
    + intros i. rewrite elem_of_union, elem_of_singleton, elem_of_app,
        list_elem_of_singleton, Hvalid. tauto.
    + apply Forall_app. split; [done|]. apply Forall_singleton.
      by eapply isoFileAt_inList.
    + intros i. rewrite Hcover, (elem_of_taken _ _ _ _ Hk), elem_of_app,
        list_elem_of_singleton. tauto.
  - assert (Hfresh : index ∉ dispatched st) by (by rewrite <- Hvalid).
    split_and!.
    + apply NoDup_app. split_and!; [done| |apply NoDup_singleton].
      intros x Hx ->%list_elem_of_singleton. done.
    + intros i. rewrite elem_of_union, elem_of_singleton, elem_of_app,
        list_elem_of_singleton, Hvalid. tauto.
    + apply Forall_app. split; [done|]. apply Forall_singleton.
      by eapply isoFileAt_inList.
    + intros i. rewrite Hcover, (elem_of_taken _ _ _ _ Hk), elem_of_app,
        list_elem_of_singleton. tauto.
Qed.

Lemma step_counting (numThreads : nat) (a : action) (st st' : run_state) :
  counting st →
  step os hasher isoFiles numThreads a st = Some st' →
  counting st'.
Proof.
  intros (Hsum & Hqueue & Hnever & Hpc) Hstep. step_cases Hstep;
    unfold counting; cbn;
    try apply length_taken in Hk;
    rewrite ?Hmain, ?Hprog, ?Hflag in *;
    destruct (main st); intuition (try congruence; try lia).
Qed.

Lemma step_submitted (numThreads : nat) (a : action) (st st' : run_state) :
  step os hasher isoFiles numThreads a st = Some st' →
  submittedTasks st' = submittedTasks st
  ∧ uniqueErrorMessages st' = uniqueErrorMessages st.
Proof. intros Hstep. by step_cases Hstep. Qed.

Lemma step_unprivileged (w : world) (s : outcome_sets) (numThreads : nat) (a : action)
    (st st' : run_state) :
  euid w ≠ 0 →
  unprivileged os hasher isoFiles w s st →
  step os hasher isoFiles numThreads a st = Some st' →
  unprivileged os hasher isoFiles w s st'.
Proof.
  intros Huser (Heuid & Hnodes & (evs & Htrace & Hcalls) & Hmounted & Hmsgs) Hstep.
  assert (Hdone : ∀ isoFile w' s',
            mountOne os hasher isoFile (the_world st) (the_sets st) = Returned (w', s') →
            ∀ index, isoFileAt isoFiles index = Some isoFile →
            unprivileged os hasher isoFiles w s
              (RunState (delete 0%nat (pending st)) ({[index]} ∪ validIndices st)
                 (dispatched st ++ [index]) w' s' (uniqueErrorMessages st)
                 (submittedTasks st) 0 0 false (main st) (progress st))).
  { intros isoFile w' s' Hmount index Hfile.
    destruct (mountOne_unprivileged os hasher isoFile (the_world st) (the_sets st))
      as (w1 & s1 & evs1 & Hm & He1 & Hn1 & Ht1 & Hc1 & Hf1 & Hsk & Hfl & Hmsg);
      [congruence|].
    rewrite Hm in Hmount. simplify_eq. unfold unprivileged. cbn.
    split_and!; try congruence.
    - exists (evs ++ evs1). rewrite Ht1, Htrace, <- app_assoc. split; [done|].
      by apply Forall_app.
    - intros i [Hi| ->%list_elem_of_singleton]%elem_of_app.
      + destruct (Hmsgs i Hi) as (f & Hf & Hcase). exists f. split; [done|].
        destruct (isAlreadyMounted os w _).1;
          (eapply elem_of_weaken; [exact Hcase|done]).
      + exists isoFile. split; [done|].
        by rewrite <- (isAlreadyMounted_nodes os (the_world st) w _ Hnodes). }
  step_cases Hstep; try (by unfold unprivileged in *; cbn; eauto 10).
  destruct (mountOne_unprivileged os hasher isoFile (the_world st) (the_sets st))
    as (w1 & s1 & evs1 & Hm & _); [congruence|]. congruence.
Qed.

(** C1.  Whatever the selection, the list and the schedule of the threads:
    no index is submitted to the pool twice, no index is handed to
    [mountIsoFile] twice, and the indices handed over are indices of the list
    that were submitted. *)
Theorem each_index_dispatched_at_most_once (input : string) (schedule : list action)
    (w : world) (s : outcome_sets) (errors : gset string) (st : run_state) :
  execute os hasher maxThreads isAllZeros isNumeric isoFiles input schedule w s errors
    = Some st →
  NoDup (pending (processAndMountIsoFiles maxThreads isAllZeros isNumeric isoFiles
                    input w s errors).2)
  ∧ NoDup (dispatched st)
  ∧ Forall (inList isoFiles) (dispatched st)
  ∧ ∀ i, i ∈ dispatched st →
         i ∈ pending (processAndMountIsoFiles maxThreads isAllZeros isNumeric isoFiles
                        input w s errors).2.
Proof.
  unfold execute. intros Hrun.
  pose proof (processAndMountIsoFiles_scanned input w s errors)
    as (Hv & Hd & _ & _ & _ & _ & Hnd & _).
  destruct (processAndMountIsoFiles _ _ _ _ _ _ _ _) as [numThreads st0]. cbn in *.
  split; [done|].
  assert (Hinv : dispatching isoFiles (pending st0) st).
  { eapply (run_invariant (dispatching isoFiles (pending st0))); [|..|exact Hrun].
    - intros a st1 st2. apply step_dispatching.
    - unfold dispatching. rewrite Hv, Hd. split_and!; [constructor|set_solver|constructor|].
      intros i. rewrite elem_of_nil. tauto. }
  destruct Hinv as (Hnd' & _ & Hall & Hcover).
  split_and!; [done..|]. intros i Hi. apply Hcover. by right.
Qed.

(** When the call has returned, every queued closure has run. *)
Lemma finished_queue_empty (input : string) (schedule : list action)
    (w : world) (s : outcome_sets) (errors : gset string) (st : run_state) :
  execute os hasher maxThreads isAllZeros isNumeric isoFiles input schedule w s errors
    = Some st →
  counting st
  ∧ dispatching isoFiles
      (pending (processAndMountIsoFiles maxThreads isAllZeros isNumeric isoFiles
                  input w s errors).2) st
  ∧ submittedTasks st
    = Z.of_nat (List.length
        (pending (processAndMountIsoFiles maxThreads isAllZeros isNumeric isoFiles
                    input w s errors).2)).
Proof.
  unfold execute. intros Hrun.
  pose proof (processAndMountIsoFiles_scanned input w s errors)
    as (Hv & Hd & _ & _ & Hc & Hflag & Hnd & _ & Hsub & Hact & Hpc).
  destruct (processAndMountIsoFiles _ _ _ _ _ _ _ _) as [numThreads st0]. cbn in *.
  split_and!.
  - eapply (run_invariant counting); [|..|exact Hrun].
    + intros a st1 st2. apply step_counting.
    + unfold counting. split_and!; [lia|lia|done|].
      destruct Hpc as [(-> & -> & ?)|[(-> & -> & ?)|(e & -> & ->)]]; try done.
      split; [lia|]. by right.
  - eapply (run_invariant (dispatching isoFiles (pending st0))); [|..|exact Hrun].
    + intros a st1 st2. apply step_dispatching.
    + unfold dispatching. rewrite Hv, Hd. split_and!; [constructor|set_solver|constructor|].
      intros i. rewrite elem_of_nil. tauto.
  - rewrite <- Hsub.
    eapply (run_invariant (λ st1, submittedTasks st1 = submittedTasks st0)); [|..|exact Hrun].
    + intros a st1 st2 <- Hstep. by apply step_submitted in Hstep as [-> _].
    + done.
Qed.

(** C4, as amended.  When the effective user is not root, no [mount] call is
    made for the whole selection and nothing is put into [mountedFiles];
    every dispatched image has its message in [mountedFails] (the
    root-privileges message), unless its mount point was a mount already:
    then its message is in [skippedMessages].  Once the call has returned,
    every submitted index has been dispatched. *)
Theorem unprivileged_selection_makes_no_mount (input : string) (schedule : list action)
    (w : world) (s : outcome_sets) (errors : gset string) (st : run_state) :
  euid w ≠ 0 →
  execute os hasher maxThreads isAllZeros isNumeric isoFiles input schedule w s errors
    = Some st →
  (∃ evs, trace (the_world st) = trace w ++ evs ∧ Forall (λ c, ¬ is_mount c) evs)
  ∧ mountedFiles (the_sets st) = mountedFiles s
  ∧ (∀ i, i ∈ dispatched st →
       ∃ isoFile, isoFileAt isoFiles i = Some isoFile
         ∧ if (isAlreadyMounted os w (mountPointOf hasher isoFile)).1
           then skippedMessage isoFile (mountPointOf hasher isoFile)
                  ∈ skippedMessages (the_sets st)
           else rootRequiredMessage isoFile ∈ mountedFails (the_sets st))
  ∧ (main st = Finished →
     ∀ i, i ∈ pending (processAndMountIsoFiles maxThreads isAllZeros isNumeric isoFiles
                         input w s errors).2 → i ∈ dispatched st).
Proof.
  intros Huser Hrun.
  destruct (finished_queue_empty input schedule w s errors st Hrun)
    as ((_ & Hqueue & _ & Hpc) & (_ & _ & _ & Hcover) & _).
  revert Hrun. unfold execute.
  pose proof (processAndMountIsoFiles_scanned input w s errors)
    as (Hv & Hd & Hw & Hs & _).
  destruct (processAndMountIsoFiles _ _ _ _ _ _ _ _) as [numThreads st0]. cbn in *.
  intros Hrun.
  assert (Hinv : unprivileged os hasher isoFiles w s st).
  { eapply (run_invariant (unprivileged os hasher isoFiles w s)); [|..|exact Hrun].
    - intros a st1 st2. by apply step_unprivileged.
    - unfold unprivileged. rewrite Hw, Hs, Hd. split_and!; try done.
      + exists []. by rewrite app_nil_r.
      + intros i Hi. by apply elem_of_nil in Hi. }
  destruct Hinv as (_ & _ & (evs & Htrace & Hcalls) & Hmounted & Hmsgs).
  split_and!; [|done..|].
  - exists evs. split; [done|]. eapply Forall_impl; [exact Hcalls|]. by intros c [? _].
  - intros Hfin i Hi. rewrite Hfin in Hpc. destruct Hpc as [Hzero _].
    apply Hcover in Hi as [Hi|Hi]; [|done].
    destruct (pending st); [by apply elem_of_nil in Hi|]. cbn in Hqueue. lia.
Qed.

(** C9, as amended.  When the call has returned, [completedTasks] equals the
    number of submitted tasks; if a task was submitted, the progress thread
    has seen the flag [isProcessingComplete] set and has ended (it was
    joined); if none was, no progress thread was started. *)
Theorem counters_and_progress_at_return (input : string) (schedule : list action)
    (w : world) (s : outcome_sets) (errors : gset string) (st : run_state) :
  execute os hasher maxThreads isAllZeros isNumeric isoFiles input schedule w s errors
    = Some st →
  main st = Finished →
  completedTasks st = submittedTasks st
  ∧ submittedTasks st
    = Z.of_nat (List.length
        (pending (processAndMountIsoFiles maxThreads isAllZeros isNumeric isoFiles
                    input w s errors).2))
  ∧ (0 < submittedTasks st ∧ progress st = Terminated ∧ isProcessingComplete st = true
     ∨ submittedTasks st = 0 ∧ progress st = NeverStarted
       ∧ isProcessingComplete st = false).
Proof.
  intros Hrun Hfin.
  destruct (finished_queue_empty input schedule w s errors st Hrun)
    as ((Hsum & _ & Hnever & Hpc) & _ & Hsub).
  rewrite Hfin in Hpc. destruct Hpc as [Hzero Hpc].
  split_and!; [lia|done|]. destruct Hpc as [?|[? Hp]]; [by left|right].
  split_and!; [done..|]. by apply Hnever.
Qed.

End RunFacts.

(** ** The orchestrator on small selections *)

Lemma each_index_dispatched_at_most_once_witness :
  ∃ st,
    execute os_udf_mounts length_hasher 4 isAllZeros_spec isNumeric_spec six_files
      "1-3 2-5" five_tasks_schedule (world_of 0 []) no_outcomes ∅ = Some st
    ∧ dispatched st = [2; 1; 3; 4; 5]
    ∧ NoDup (pending (processAndMountIsoFiles 4 isAllZeros_spec isNumeric_spec six_files
                        "1-3 2-5" (world_of 0 []) no_outcomes ∅).2)
    ∧ NoDup (dispatched st)
    ∧ Forall (inList six_files) (dispatched st)
    ∧ ∀ i, i ∈ dispatched st →
           i ∈ pending (processAndMountIsoFiles 4 isAllZeros_spec isNumeric_spec six_files
                          "1-3 2-5" (world_of 0 []) no_outcomes ∅).2.
Proof.
  assert (Hd : dispatched <$>
            execute os_udf_mounts length_hasher 4 isAllZeros_spec isNumeric_spec six_files
              "1-3 2-5" five_tasks_schedule (world_of 0 []) no_outcomes ∅
            = Some [2; 1; 3; 4; 5]) by (vm_compute; reflexivity).
  destruct (execute os_udf_mounts length_hasher 4 isAllZeros_spec isNumeric_spec six_files
              "1-3 2-5" five_tasks_schedule (world_of 0 []) no_outcomes ∅)
    as [st|] eqn:Hrun; [|discriminate Hd].
  injection Hd as Hd. exists st. split; [reflexivity|]. split; [exact Hd|].
  exact (each_index_dispatched_at_most_once os_udf_mounts length_hasher 4
           isAllZeros_spec isNumeric_spec six_files "1-3 2-5" five_tasks_schedule
           (world_of 0 []) no_outcomes ∅ st Hrun).
Defined.

Lemma counters_and_progress_at_return_witness :
  ∃ st,
    execute os_udf_mounts length_hasher 4 isAllZeros_spec isNumeric_spec six_files
      "1-3 2-5" five_tasks_schedule (world_of 0 []) no_outcomes ∅ = Some st
    ∧ main st = Finished
    ∧ completedTasks st = submittedTasks st
    ∧ submittedTasks st
      = Z.of_nat (List.length
          (pending (processAndMountIsoFiles 4 isAllZeros_spec isNumeric_spec six_files
                      "1-3 2-5" (world_of 0 []) no_outcomes ∅).2))
    ∧ (0 < submittedTasks st ∧ progress st = Terminated ∧ isProcessingComplete st = true
       ∨ submittedTasks st = 0 ∧ progress st = NeverStarted
         ∧ isProcessingComplete st = false).
Proof.
  assert (Hm : main <$>
            execute os_udf_mounts length_hasher 4 isAllZeros_spec isNumeric_spec six_files
              "1-3 2-5" five_tasks_schedule (world_of 0 []) no_outcomes ∅
            = Some Finished) by (vm_compute; reflexivity).
  destruct (execute os_udf_mounts length_hasher 4 isAllZeros_spec isNumeric_spec six_files
              "1-3 2-5" five_tasks_schedule (world_of 0 []) no_outcomes ∅)
    as [st|] eqn:Hrun; [|discriminate Hm].
  injection Hm as Hm. exists st. split; [reflexivity|]. split; [exact Hm|].
  exact (counters_and_progress_at_return os_udf_mounts length_hasher 4
           isAllZeros_spec isNumeric_spec six_files "1-3 2-5" five_tasks_schedule
           (world_of 0 []) no_outcomes ∅ st Hrun Hm).
Defined.

(** C9, as stated, fails on the selection ["7"] over six images: the call
    returns with nothing submitted, and no progress thread has ever run or
    seen the flag, which is still unset. *)
Lemma no_progress_thread_without_tasks :
  ∃ st,
    execute os_udf_mounts length_hasher 4 isAllZeros_spec isNumeric_spec six_files
      "7" [] (world_of 0 []) no_outcomes ∅ = Some st
    ∧ main st = Finished
    ∧ submittedTasks st = 0
    ∧ progress st = NeverStarted
    ∧ isProcessingComplete st = false
    ∧ uniqueErrorMessages st = {[invalidIndex 7]}.
Proof. eexists. split; [vm_compute; reflexivity|]. repeat split. Qed.

Lemma unprivileged_selection_makes_no_mount_witness :
  ∃ st,
    euid (world_of 1000 [("/mnt/iso_1_80000", MountedFs 1)]) ≠ 0
    ∧ execute os_udf_mounts length_hasher 4 isAllZeros_spec isNumeric_spec six_files
        "1 2" two_tasks_schedule (world_of 1000 [("/mnt/iso_1_80000", MountedFs 1)])
        no_outcomes ∅ = Some st
    ∧ (∃ evs, trace (the_world st)
              = trace (world_of 1000 [("/mnt/iso_1_80000", MountedFs 1)]) ++ evs
              ∧ Forall (λ c, ¬ is_mount c) evs)
    ∧ mountedFiles (the_sets st) = mountedFiles no_outcomes
    ∧ (∀ i, i ∈ dispatched st →
         ∃ isoFile, isoFileAt six_files i = Some isoFile
           ∧ if (isAlreadyMounted os_udf_mounts
                   (world_of 1000 [("/mnt/iso_1_80000", MountedFs 1)])
                   (mountPointOf length_hasher isoFile)).1
             then skippedMessage isoFile (mountPointOf length_hasher isoFile)
                    ∈ skippedMessages (the_sets st)
             else rootRequiredMessage isoFile ∈ mountedFails (the_sets st))
    ∧ (main st = Finished →
       ∀ i, i ∈ pending (processAndMountIsoFiles 4 isAllZeros_spec isNumeric_spec six_files
                           "1 2" (world_of 1000 [("/mnt/iso_1_80000", MountedFs 1)])
                           no_outcomes ∅).2 → i ∈ dispatched st).
Proof.
  destruct (execute os_udf_mounts length_hasher 4 isAllZeros_spec isNumeric_spec six_files
              "1 2" two_tasks_schedule (world_of 1000 [("/mnt/iso_1_80000", MountedFs 1)])
              no_outcomes ∅) as [st|] eqn:Hrun; [|vm_compute in Hrun; discriminate Hrun].
  exists st. split; [discriminate|]. split; [reflexivity|].
  apply (unprivileged_selection_makes_no_mount os_udf_mounts length_hasher 4
           isAllZeros_spec isNumeric_spec six_files "1 2" two_tasks_schedule
           (world_of 1000 [("/mnt/iso_1_80000", MountedFs 1)]) no_outcomes ∅ st);
    [discriminate|exact Hrun].
Defined.

(** C4, as stated, fails: the user is not root and the mount point of the
    one selected image is a mount already.  The call returns with the image
    dispatched, [mountedFails] empty and the message in [skippedMessages]. *)
Lemma unprivileged_yet_skipped :
  ∃ st,
    euid (world_of 1000 [("/mnt/iso_x_b0000", MountedFs 1)]) ≠ 0
    ∧ execute os_nothing_mounts length_hasher 4 isAllZeros_spec isNumeric_spec
        ["/data/x.iso"] "1" one_task_schedule
        (world_of 1000 [("/mnt/iso_x_b0000", MountedFs 1)]) no_outcomes ∅ = Some st
    ∧ main st = Finished
    ∧ dispatched st = [1]
    ∧ mountedFails (the_sets st) = ∅
    ∧ skippedMessages (the_sets st) = {[skippedMessage "/data/x.iso" "/mnt/iso_x_b0000"]}.
Proof.
  eexists. split; [discriminate|]. split; [vm_compute; reflexivity|].
  repeat split; vm_compute; reflexivity.
Qed.

(** ** The sanitisation helpers *)

Lemma app_cons (c : ascii) (s t : string) : String c s +:+ t = String c (s +:+ t).
Proof. reflexivity. Qed.

Lemma app_empty_l (t : string) : EmptyString +:+ t = t.
Proof. reflexivity. Qed.

Lemma app_empty_r (s : string) : s +:+ EmptyString = s.
Proof. induction s as [|c s IH]; [done|]. by rewrite app_cons, IH. Qed.

Lemma length_app_string (s t : string) :
  String.length (s +:+ t) = (String.length s + String.length t)%nat.
Proof. induction s as [|c s IH]; [done|]. rewrite app_cons. cbn. by rewrite IH. Qed.

Lemma sh_read_escape_chars (s t : string) :
  sh_read true (Sanitization.escape_chars s +:+ t) = (λ r, s +:+ r) <$> sh_read true t.
Proof.
  induction s as [|c s IH].
  - cbn [Sanitization.escape_chars]. rewrite app_empty_l. by destruct (sh_read true t).
  - cbn [Sanitization.escape_chars]. case_decide as Hc.
    + subst c.
      change Sanitization.escaped_quote
        with (String "'" (String Sanitization.backslash (String "'" (String "'" EmptyString)))).
      repeat (rewrite app_cons || rewrite app_empty_l).
      cbn [sh_read]. rewrite decide_True by done.
      rewrite decide_False by done. rewrite decide_True by done.
      rewrite decide_True by done. rewrite IH. by destruct (sh_read true t).
    + rewrite app_cons. cbn [sh_read]. rewrite decide_False by done.
      rewrite IH. by destruct (sh_read true t).
Qed.

(** X1.  The shell reads the word that [shell_escape] builds back as the very
    string that was escaped: no character of it is taken for syntax. *)
Theorem shell_escape_read_back (s : string) :
  sh_read false (Sanitization.shell_escape s) = Some s.
Proof.
  unfold Sanitization.shell_escape. rewrite app_cons, app_empty_l.
  cbn [sh_read]. rewrite decide_True by done.
  rewrite sh_read_escape_chars.
  change (sh_read true "'") with (Some EmptyString).
  cbn [fmap option_fmap option_map]. by rewrite app_empty_r.
Qed.

Lemma count_le_length (c : ascii) (s : string) : (Cpp.count c s ≤ String.length s)%nat.
Proof. induction s as [|a s IH]; [done|]. cbn [Cpp.count String.length]. case_decide; lia. Qed.

Lemma escape_chars_length (s : string) :
  String.length (Sanitization.escape_chars s)
  = (String.length s + 3 * Cpp.count "'" s)%nat.
Proof.
  induction s as [|c s IH]; [done|]. cbn [Sanitization.escape_chars Cpp.count].
  case_decide.
  - rewrite length_app_string, IH.
    change (String.length Sanitization.escaped_quote) with 4%nat.
    cbn [String.length]. lia.
  - cbn [String.length]. rewrite IH. lia.
Qed.

(** X2.  The length of the escaped word: two quotes, and three more characters for
    each single quote; the [reserve] of four times the size holds the part
    between the outer quotes. *)
Theorem shell_escape_length (s : string) :
  String.length (Sanitization.shell_escape s)
    = (String.length s + 3 * Cpp.count "'" s + 2)%nat
  ∧ (String.length (Sanitization.escape_chars s) ≤ 4 * String.length s)%nat.
Proof.
  pose proof (count_le_length "'" s). pose proof (escape_chars_length s) as Hlen.
  split; [|lia].
  unfold Sanitization.shell_escape. rewrite !length_app_string, Hlen.
  change (String.length "'") with 1%nat. lia.
Qed.

Lemma substring_whole (s : string) : substring 0 (String.length s) s = s.
Proof. induction s as [|c s IH]; [done|]. cbn. by rewrite IH. Qed.

Lemma substr_from_0 (s : string) : Cpp.substr_from s 0 = s.
Proof. unfold Cpp.substr_from. rewrite Nat.sub_0_r. apply substring_whole. Qed.

Lemma substr_from_S (a : ascii) (r : string) (p : nat) :
  Cpp.substr_from (String a r) (S p) = Cpp.substr_from r p.
Proof. reflexivity. Qed.

(** A string is what lies before a position followed by what lies from it on. *)
Lemma substr_split (s : string) (pos : nat) :
  (pos ≤ String.length s)%nat → s = Cpp.substr s 0 pos +:+ Cpp.substr_from s pos.
Proof.
  revert s. induction pos as [|p IH]; intros s Hpos.
  - rewrite substr_from_0. unfold Cpp.substr. by destruct s.
  - destruct s as [|a r]; [cbn in Hpos; lia|].
    rewrite substr_from_S. unfold Cpp.substr. cbn [substring].
    rewrite app_cons. f_equal. apply IH. cbn in Hpos. lia.
Qed.

Lemma find_first_of_bounds (c1 c2 : ascii) (pos : nat) (s : string) (i : nat) :
  Cpp.find_first_of c1 c2 pos s = Some i → (pos ≤ i < String.length s)%nat.
Proof.
  revert pos i. induction s as [|a r IH]; intros pos i Hfind.
  - by destruct pos.
  - destruct pos as [|p]; cbn [Cpp.find_first_of] in Hfind.
    + case_decide; [simplify_eq; cbn; lia|].
      destruct (Cpp.find_first_of c1 c2 0 r) as [j|] eqn:Hj; [|done].
      apply IH in Hj. cbn in Hfind. simplify_eq. cbn. lia.
    + destruct (Cpp.find_first_of c1 c2 p r) as [j|] eqn:Hj; [|done].
      apply IH in Hj. cbn in Hfind. simplify_eq. cbn. lia.
Qed.

Lemma find_first_of_substr_from (c1 c2 : ascii) (pos : nat) (s : string) :
  Cpp.find_first_of c1 c2 pos s = None →
  Cpp.find_first_of c1 c2 0 (Cpp.substr_from s pos) = None.
Proof.
  revert s. induction pos as [|p IH]; intros s Hfind.
  - by rewrite substr_from_0.
  - destruct s as [|a r]; [done|].
    rewrite substr_from_S. apply IH. cbn [Cpp.find_first_of] in Hfind.
    by destruct (Cpp.find_first_of c1 c2 p r).
Qed.

(** The loop over the separators ends because no separator is left, never
    because its fuel is used up. *)
Lemma dirLoop_ends (path : string) (fuel lastSlashPos : nat) (dirStream : string) :
  (lastSlashPos ≤ String.length path)%nat →
  (String.length path < fuel + lastSlashPos)%nat →
  ∀ dirStream' lastSlashPos',
    Sanitization.dirLoop fuel path lastSlashPos
      (Cpp.find_first_of "/" Sanitization.backslash lastSlashPos path) dirStream
    = (dirStream', lastSlashPos') →
    (lastSlashPos' ≤ String.length path)%nat
    ∧ Cpp.find_first_of "/" Sanitization.backslash lastSlashPos' path = None.
Proof.
  revert lastSlashPos dirStream.
  induction fuel as [|fuel IH]; intros last ds Hlast Hfuel ds' last' Hloop; [lia|].
  cbn [Sanitization.dirLoop] in Hloop.
  destruct (Cpp.find_first_of "/" Sanitization.backslash last path) as [cur|] eqn:Hcur.
  - apply find_first_of_bounds in Hcur.
    eapply IH; [| |exact Hloop]; lia.
  - by simplify_eq.
Qed.

(** X3.  The file name that [extractDirectoryAndFilename] returns is the end of the
    path and holds no separator, neither slash nor backslash. *)
Theorem extracted_filename_is_last_component (path : string) :
  Cpp.find_first_of "/" Sanitization.backslash 0
    (Sanitization.extractDirectoryAndFilename path).2 = None
  ∧ ∃ before, path = before +:+ (Sanitization.extractDirectoryAndFilename path).2.
Proof.
  unfold Sanitization.extractDirectoryAndFilename.
  destruct (Sanitization.dirLoop _ _ _ _ _) as [dirStream last] eqn:Hloop.
  apply dirLoop_ends in Hloop as [Hlast Hnone]; [|lia..]. cbn [snd]. split.
  - by apply find_first_of_substr_from.
  - exists (Cpp.substr path 0 last). by apply substr_split.
Qed.

(** X4.  A path without separator has an empty directory part, and the messages
    show it with a slash in front. *)
Theorem bare_name_shown_with_slash (path : string) :
  Cpp.find_first_of "/" Sanitization.backslash 0 path = None →
  Sanitization.extractDirectoryAndFilename path = (EmptyString, path)
  ∧ shown path = "/" +:+ path.
Proof.
  intros Hnone.
  assert (Hpair : Sanitization.extractDirectoryAndFilename path = (EmptyString, path)).
  { unfold Sanitization.extractDirectoryAndFilename.
    cbn [Sanitization.dirLoop]. rewrite Hnone. by rewrite substr_from_0. }
  split; [done|]. unfold shown. by rewrite Hpair.
Qed.

Lemma bare_name_shown_with_slash_witness :
  Sanitization.extractDirectoryAndFilename "disc.iso" = (EmptyString, "disc.iso")
  ∧ shown "disc.iso" = "/disc.iso".
Proof. apply (bare_name_shown_with_slash "disc.iso"). reflexivity. Defined.

(** ** The shape of a mount point *)

Lemma count_app (c : ascii) (s t : string) :
  Cpp.count c (s +:+ t) = (Cpp.count c s + Cpp.count c t)%nat.
Proof.
  induction s as [|a s IH]; [done|]. rewrite app_cons. cbn [Cpp.count]. rewrite IH. lia.
Qed.

Lemma count_head (c : ascii) (s : string) : Cpp.count c (String c s) = S (Cpp.count c s).
Proof. cbn [Cpp.count]. by rewrite decide_True. Qed.

Lemma count_substring (c : ascii) (s : string) (pos len : nat) :
  (Cpp.count c (substring pos len s) ≤ Cpp.count c s)%nat.
Proof.
  revert pos len. induction s as [|a s IH]; intros pos len.
  - by destruct pos, len.
  - destruct pos as [|pos].
    + destruct len as [|len]; cbn [substring Cpp.count]; [lia|].
      specialize (IH 0%nat len). lia.
    + cbn [substring Cpp.count]. specialize (IH pos len). lia.
Qed.

Lemma rfind_None_count (c : ascii) (s : string) :
  Cpp.rfind c s = None → Cpp.count c s = 0%nat.
Proof.
  induction s as [|a s IH]; [done|]. cbn [Cpp.rfind Cpp.count].
  destruct (Cpp.rfind c s); [done|]. case_decide; [done|]. intros _. by rewrite IH.
Qed.

Lemma rfind_cons_Some (c a : ascii) (s : string) (i : nat) :
  Cpp.rfind c s = Some i → Cpp.rfind c (String a s) = Some (S i).
Proof. intros Hr. cbn [Cpp.rfind]. by rewrite Hr. Qed.

Lemma rfind_Some_tail (c : ascii) (s : string) (i : nat) :
  Cpp.rfind c s = Some i →
  Cpp.count c (Cpp.substr_from s (S i)) = 0%nat
  ∧ s = Cpp.substr s 0 i +:+ String c (Cpp.substr_from s (S i)).
Proof.
  revert i. induction s as [|a s IH]; intros i Hr; [done|].
  cbn [Cpp.rfind] in Hr. destruct (Cpp.rfind c s) as [j|] eqn:Hj.
  - simplify_eq. rewrite substr_from_S. destruct (IH j eq_refl) as [Hc Hs].
    split; [done|]. unfold Cpp.substr. cbn [substring]. rewrite app_cons. f_equal. exact Hs.
  - case_decide; [|done]. simplify_eq. rewrite substr_from_S, substr_from_0.
    split; [by apply rfind_None_count|]. by destruct s.
Qed.

(** Neither the file name of a path nor its stem holds a slash. *)
Lemma filename_no_slash (p : string) : Cpp.count "/" (Path.filename p) = 0%nat.
Proof.
  unfold Path.filename. destruct (Cpp.rfind "/" p) as [i|] eqn:Hr.
  - by apply rfind_Some_tail in Hr as [? _].
  - by apply rfind_None_count.
Qed.

Lemma stem_no_slash (p : string) : Cpp.count "/" (Path.stem p) = 0%nat.
Proof.
  pose proof (filename_no_slash p) as Hf. unfold Path.stem.
  case_decide; [done|].
  destruct (Cpp.rfind "." (Path.filename p)) as [[|i]|]; try done.
  pose proof (count_substring "/" (Path.filename p) 0 (S i)). unfold Cpp.substr. lia.
Qed.

Lemma base36_digit_no_slash (d : N) : base36_digit d ≠ "/"%char.
Proof.
  unfold base36_digit. generalize (N.to_nat d). intros k.
  do 36 (destruct k as [|k]; [discriminate|]). discriminate.
Qed.

Lemma digest5_no_slash (h : N) : Cpp.count "/" (digest5 h) = 0%nat.
Proof.
  unfold digest5. cbn [Cpp.count].
  rewrite !decide_False by apply base36_digit_no_slash. done.
Qed.

(** X5.  Every mount point lies directly in [/mnt]: it holds the two slashes of
    its prefix and no other, its last component is [iso_], the stem, an
    underscore and the digest, and it is 15 characters longer than the stem. *)
Theorem mount_point_directly_under_mnt (hasher : string → N) (isoFile : string) :
  Cpp.count "/" (mountPointOf hasher isoFile) = 2%nat
  ∧ Path.filename (mountPointOf hasher isoFile) = "iso_" +:+ uniqueId hasher isoFile
  ∧ String.length (mountPointOf hasher isoFile)
    = (15 + String.length (Path.stem isoFile))%nat.
Proof.
  assert (Hid : Cpp.count "/" (uniqueId hasher isoFile) = 0%nat).
  { unfold uniqueId. rewrite !count_app, stem_no_slash, shortHashOf_digest5,
      digest5_no_slash. done. }
  split_and!.
  - unfold mountPointOf. rewrite count_app, Hid. done.
  - unfold Path.filename, mountPointOf.
    change ("/mnt/iso_" +:+ uniqueId hasher isoFile)
      with (String "/" (String "m" (String "n" (String "t" (String "/"
              ("iso_" +:+ uniqueId hasher isoFile)))))).
    assert (Hr : Cpp.rfind "/" ("iso_" +:+ uniqueId hasher isoFile) = None).
    { destruct (Cpp.rfind "/" _) as [i|] eqn:Hr; [|done].
      apply rfind_Some_tail in Hr as [_ Hs]. apply (f_equal (Cpp.count "/")) in Hs.
      rewrite !count_app, Hid, count_head in Hs.
      change (Cpp.count "/" "iso_") with 0%nat in Hs. lia. }
    assert (Hr4 : Cpp.rfind "/" (String "/" (String "m" (String "n" (String "t" (String "/"
                    ("iso_" +:+ uniqueId hasher isoFile)))))) = Some 4%nat).
    { do 4 (apply rfind_cons_Some). cbn [Cpp.rfind]. by rewrite Hr. }
    rewrite Hr4, !substr_from_S. by rewrite substr_from_0.
  - unfold mountPointOf, uniqueId.
    rewrite !length_app_string, shortHashOf_digest5, digest5_length.
    change (String.length "/mnt/iso_") with 9%nat. change (String.length "_") with 1%nat. lia.
Qed.

(** ** More on the mount engine *)

Section EngineMore.

Variable os : os_behaviour.
Variable hasher : string → N.

(** One round of the fallback loop that does not mount: the module is
    loaded if the type has one, a context is made, the mount is attempted,
    and the loop goes on with the next type. *)
Lemma tryFsTypes_failed_round fsType rest isoFile mountPoint w s :
  (∀ w0, new_context_ok os w0 = true) →
  (∀ w0, mount_status os w0 isoFile mountPoint fsType ≠ 0) →
  ∃ w3 evs,
    tryFsTypes os (fsType :: rest) isoFile mountPoint w s
      = tryFsTypes os rest isoFile mountPoint w3 s
    ∧ euid w3 = euid w ∧ nodes w3 = nodes w
    ∧ trace w3 = trace w ++ evs
    ∧ omap mount_call_of evs = attempts isoFile mountPoint [fsType]
    ∧ omap command_of evs = modprobes [fsType].
Proof.
  intros Hctx Hfail. cbn [tryFsTypes]. unfold modprobes. cbn [omap list_omap].
  destruct (fsTypeToModule !! fsType) as [moduleName|]; cbn [fmap option_fmap option_map].
  - unfold loadKernelModule.
    destruct (system_status os w _ =? 0); rewrite Hctx; cbn [negb];
      unfold mnt_context_mount;
      match goal with |- context [mount_status os ?w2 _ _ _ =? 0] =>
        destruct (mount_status os w2 isoFile mountPoint fsType =? 0) eqn:E;
          [apply Z.eqb_eq in E; by apply Hfail in E|] end;
      rewrite ?E; eexists _, _; (split; [reflexivity|]); cbn;
      rewrite <- ?app_assoc; split_and!; try reflexivity.
  - rewrite Hctx; cbn [negb]. unfold mnt_context_mount.
    match goal with |- context [mount_status os ?w2 _ _ _ =? 0] =>
      destruct (mount_status os w2 isoFile mountPoint fsType =? 0) eqn:E;
        [apply Z.eqb_eq in E; by apply Hfail in E|] end.
    rewrite ?E. eexists _, _. split; [reflexivity|]. cbn.
    rewrite <- ?app_assoc. split_and!; reflexivity.
Qed.

(** One round that mounts: the loop is left with [mountSuccess] set. *)
Lemma tryFsTypes_mounting_round fsType rest isoFile mountPoint w s :
  (∀ w0, new_context_ok os w0 = true) →
  (∀ w0, mount_status os w0 isoFile mountPoint fsType = 0) →
  ∃ w3 evs,
    tryFsTypes os (fsType :: rest) isoFile mountPoint w s
      = (true, w3, insertMounted (mountedFileInfo isoFile mountPoint fsType) s)
    ∧ euid w3 = euid w
    ∧ nodes w3 = <[mountPoint := MountedFs (loop_f_flag os)]> (nodes w)
    ∧ trace w3 = trace w ++ evs
    ∧ omap mount_call_of evs = attempts isoFile mountPoint [fsType]
    ∧ omap command_of evs = modprobes [fsType].
Proof.
  intros Hctx Hok. cbn [tryFsTypes]. unfold modprobes. cbn [omap list_omap].
  destruct (fsTypeToModule !! fsType) as [moduleName|]; cbn [fmap option_fmap option_map].
  - unfold loadKernelModule.
    destruct (system_status os w _ =? 0); rewrite Hctx; cbn [negb];
      unfold mnt_context_mount; rewrite !Hok; cbn [Z.eqb];
      eexists _, _; (split; [reflexivity|]); cbn;
      rewrite <- ?app_assoc; split_and!; reflexivity.
  - rewrite Hctx; cbn [negb]. unfold mnt_context_mount. rewrite !Hok. cbn [Z.eqb].
    eexists _, _. split; [reflexivity|]. cbn.
    rewrite <- ?app_assoc. split_and!; reflexivity.
Qed.

Local Arguments tryFsTypes : simpl never.

Lemma attempts_app isoFile mountPoint l1 l2 :
  attempts isoFile mountPoint (l1 ++ l2)
  = attempts isoFile mountPoint l1 ++ attempts isoFile mountPoint l2.
Proof. unfold attempts. apply fmap_app. Qed.

Lemma modprobes_app l1 l2 : modprobes (l1 ++ l2) = modprobes l1 ++ modprobes l2.
Proof. unfold modprobes. apply omap_app. Qed.

(** The loop when the types of [before] do not mount and [fsType] does: it
    stops at [fsType], and none of the types after it is tried. *)
Lemma tryFsTypes_first_success before fsType after isoFile mountPoint w s :
  (∀ w0, new_context_ok os w0 = true) →
  (∀ w0 t, t ∈ before → mount_status os w0 isoFile mountPoint t ≠ 0) →
  (∀ w0, mount_status os w0 isoFile mountPoint fsType = 0) →
  ∃ w' evs,
    tryFsTypes os (before ++ fsType :: after) isoFile mountPoint w s
      = (true, w', insertMounted (mountedFileInfo isoFile mountPoint fsType) s)
    ∧ euid w' = euid w
    ∧ nodes w' = <[mountPoint := MountedFs (loop_f_flag os)]> (nodes w)
    ∧ trace w' = trace w ++ evs
    ∧ omap mount_call_of evs = attempts isoFile mountPoint (before ++ [fsType])
    ∧ omap command_of evs = modprobes (before ++ [fsType]).
Proof.
  intros Hctx Hfail Hok. revert w.
  induction before as [|t before IH]; intros w.
  - cbn [app]. by apply tryFsTypes_mounting_round.
  - rewrite <- !app_comm_cons.
    destruct (tryFsTypes_failed_round t (before ++ fsType :: after) isoFile mountPoint w s)
      as (w3 & evs3 & -> & He3 & Hn3 & Ht3 & Hm3 & Hc3); [done|..].
    { intros w0. apply Hfail. by left. }
    destruct (IH (λ w0 t' Ht', Hfail w0 t' (list_elem_of_further _ _ _ Ht')) w3)
      as (w' & evs & -> & He & Hn & Ht & Hm & Hc).
    exists w', (evs3 ++ evs). split; [done|].
    rewrite He, He3, Hn, Hn3, Ht, Ht3, <- app_assoc, !omap_app, Hm3, Hm, Hc3, Hc.
    split_and!; try done. symmetry. apply (modprobes_app [t]).
Qed.


Lemma mountIsoFile_one (isoFile : string) (w : world) (s : outcome_sets) :
  mountIsoFile os hasher [isoFile] w s = mountOne os hasher isoFile w s.
Proof. cbn. by destruct (mountOne os hasher isoFile w s) as [[w' s']|e ws]. Qed.

(** The loop body up to the fallback loop, when nothing is at the mount point
    and the directory can be created. *)
Lemma mountOne_fresh isoFile w s :
  nodes w !! mountPointOf hasher isoFile = None →
  euid w = 0 →
  (∀ w0, create_directory_error os w0 (mountPointOf hasher isoFile) = None) →
  ∃ w5,
    euid w5 = euid w
    ∧ nodes w5 = <[mountPointOf hasher isoFile := Directory 0]> (nodes w)
    ∧ trace w5 = trace w ++ [sys_statvfs (mountPointOf hasher isoFile); sys_geteuid;
                             sys_exists (mountPointOf hasher isoFile);
                             sys_create_directory (mountPointOf hasher isoFile)]
    ∧ mountOne os hasher isoFile w s
      = (let '(mountSuccess, w6, s6) :=
           tryFsTypes os fsTypes isoFile (mountPointOf hasher isoFile) w5 s in
         if mountSuccess then Returned (w6, s6)
         else match fs_remove os w6 (mountPointOf hasher isoFile) with
              | Cpp.Throw e =>
                  Raised e (log (sys_remove (mountPointOf hasher isoFile)) w6, s6)
              | Cpp.Ret (_, w7) => Returned (w7, insertFailed (badFSMessage isoFile) s6)
              end).
Proof.
  intros Hnone Heuid Hcreate.
  exists (World (euid w) (<[mountPointOf hasher isoFile := Directory 0]> (nodes w))
            (trace w ++ [sys_statvfs (mountPointOf hasher isoFile); sys_geteuid;
                         sys_exists (mountPointOf hasher isoFile);
                         sys_create_directory (mountPointOf hasher isoFile)])).
  split_and!; [done..|].
  unfold mountOne.
  destruct (isAlreadyMounted os w (mountPointOf hasher isoFile)) as [already w1] eqn:Ha.
  assert (w1 = log (sys_statvfs (mountPointOf hasher isoFile)) w) as ->.
  { by rewrite <- (isAlreadyMounted_world os), Ha. }
  assert (already = false) as ->.
  { by rewrite <- (isAlreadyMounted_absent os w _ Hnone), Ha. }
  cbn [log euid]. rewrite Heuid. cbn [Z.eqb negb].
  rewrite (fs_exists_absent os); [|done|apply (entry_errors_agree os), Hcreate].
  unfold fs_create_directory. cbn [log nodes trace euid].
  rewrite Hnone, Hcreate. cbn [mbind exc_bind Cpp.bind].
  rewrite <- !app_assoc, ?Heuid. reflexivity.
Qed.

(** X6.  The first type that mounts wins.  Nothing is at the mount point, the
    caller is root, the directory can be created and contexts are granted;
    the types before [fsType] in [fsTypes] do not mount the image and
    [fsType] does.  Then the image is reported in [mountedFiles] with
    [fsType] in its message, the mount point is a mount, the attempts made
    are those for the types up to [fsType] in order, each with the options
    [loop,ro], and the directory is not removed. *)
Theorem first_type_that_mounts_wins before fsType after isoFile w s :
  fsTypes = before ++ fsType :: after →
  nodes w !! mountPointOf hasher isoFile = None →
  euid w = 0 →
  (∀ w0, create_directory_error os w0 (mountPointOf hasher isoFile) = None) →
  (∀ w0, new_context_ok os w0 = true) →
  (∀ w0 t, t ∈ before →
           mount_status os w0 isoFile (mountPointOf hasher isoFile) t ≠ 0) →
  (∀ w0, mount_status os w0 isoFile (mountPointOf hasher isoFile) fsType = 0) →
  ∃ w' evs,
    mountIsoFile os hasher [isoFile] w s
      = Returned (w', insertMounted
                        (mountedFileInfo isoFile (mountPointOf hasher isoFile) fsType) s)
    ∧ nodes w' !! mountPointOf hasher isoFile = Some (MountedFs (loop_f_flag os))
    ∧ trace w' = trace w ++ evs
    ∧ omap mount_call_of evs
      = attempts isoFile (mountPointOf hasher isoFile) (before ++ [fsType])
    ∧ Forall (λ c, ¬ is_remove c) evs.
Proof.
  intros Htypes Hnone Heuid Hcreate Hctx Hfail Hok. rewrite mountIsoFile_one.
  destruct (mountOne_fresh isoFile w s Hnone Heuid Hcreate) as (w5 & He5 & Hn5 & Ht5 & ->).
  rewrite Htypes.
  destruct (tryFsTypes_first_success before fsType after isoFile _ w5 s Hctx Hfail Hok)
    as (w' & evs & Hrun & He & Hn & Ht & Hm & Hc).
  pose proof (tryFsTypes_spec os _ _ _ _ _ _ _ _ Hrun) as (_ & (evs' & Ht' & Hloop) & _).
  rewrite Ht in Ht'. apply app_inv_head in Ht'. subst evs'.
  rewrite Hrun.
  exists w', ([sys_statvfs (mountPointOf hasher isoFile); sys_geteuid;
               sys_exists (mountPointOf hasher isoFile);
               sys_create_directory (mountPointOf hasher isoFile)] ++ evs).
  split; [done|].
  rewrite Hn, Ht, Ht5, <- app_assoc, lookup_insert_eq, omap_app, Hm.
  split_and!; try done.
  apply Forall_app. split.
  - repeat (apply Forall_cons; split; [by intros []|]). constructor.
  - eapply Forall_impl; [exact Hloop|]. intros c Hc' Hk. destruct c; cbn in *; tauto.
Qed.

(** X7.  Nothing is at the mount point and, for root, the directory cannot
    be created.  When [exists] answers that nothing is there, the image is
    reported in [mountedFails] with the text of the error of
    [create_directory], and the calls made are the four up to
    [create_directory].  When [exists] fails itself (it is called outside
    the [try]), [mountIsoFile] is left by that exception after three calls
    and nothing is reported.  Either way no mount is attempted and the
    entries of the file system are as before. *)
Theorem create_failure_is_reported isoFile w s what :
  nodes w !! mountPointOf hasher isoFile = None →
  euid w = 0 →
  (∀ w0, create_directory_error os w0 (mountPointOf hasher isoFile) = Some what) →
  match exists_error os
          (log sys_geteuid (log (sys_statvfs (mountPointOf hasher isoFile)) w))
          (mountPointOf hasher isoFile) with
  | None =>
      ∃ w',
        mountIsoFile os hasher [isoFile] w s
          = Returned (w', insertFailed
                            (createFailedMessage (mountPointOf hasher isoFile) what) s)
        ∧ nodes w' = nodes w
        ∧ trace w' = trace w ++ [sys_statvfs (mountPointOf hasher isoFile); sys_geteuid;
                                 sys_exists (mountPointOf hasher isoFile);
                                 sys_create_directory (mountPointOf hasher isoFile)]
  | Some what' =>
      ∃ w',
        mountIsoFile os hasher [isoFile] w s = Raised (Cpp.filesystem_error what') (w', s)
        ∧ nodes w' = nodes w
        ∧ trace w' = trace w ++ [sys_statvfs (mountPointOf hasher isoFile); sys_geteuid;
                                 sys_exists (mountPointOf hasher isoFile)]
  end.
Proof.
  intros Hnone Heuid Hcreate. rewrite mountIsoFile_one. unfold mountOne.
  destruct (isAlreadyMounted os w (mountPointOf hasher isoFile)) as [already w1] eqn:Ha.
  assert (w1 = log (sys_statvfs (mountPointOf hasher isoFile)) w) as ->.
  { by rewrite <- (isAlreadyMounted_world os), Ha. }
  assert (already = false) as ->.
  { by rewrite <- (isAlreadyMounted_absent os w _ Hnone), Ha. }
  cbn [log euid]. rewrite Heuid. cbn [Z.eqb negb].
  unfold fs_exists. cbn [log nodes trace euid]. rewrite Hnone.
  destruct (exists_error os _ _) as [what'|].
  - eexists. split; [done|]. cbn. by rewrite <- !app_assoc.
  - unfold fs_create_directory. cbn [log nodes trace euid].
    rewrite Hnone, Hcreate. cbn.
    eexists. split; [done|]. cbn. by rewrite <- !app_assoc.
Qed.



Lemma grown_keeps (c : class) (msgs : gset string) (s : outcome_sets) :
  mountedFiles s ⊆ mountedFiles (grown c msgs s)
  ∧ skippedMessages s ⊆ skippedMessages (grown c msgs s)
  ∧ mountedFails s ⊆ mountedFails (grown c msgs s).
Proof. destruct c; cbn; split_and!; try done; apply union_subseteq_r. Qed.

(** No message leaves a set in the loop body, returned or not. *)
Lemma mountOne_sets_grow isoFile w s :
  mountedFiles s ⊆ mountedFiles (final_state (mountOne os hasher isoFile w s)).2
  ∧ skippedMessages s ⊆ skippedMessages (final_state (mountOne os hasher isoFile w s)).2
  ∧ mountedFails s ⊆ mountedFails (final_state (mountOne os hasher isoFile w s)).2.
Proof.
  pose proof (mountOne_one_class os hasher isoFile w s) as Hclass.
  destruct (mountOne os hasher isoFile w s) as [[w1 s1]|e [w1 s1]]; cbn.
  - destruct Hclass as (c & msgs & _ & ->). apply grown_keeps.
  - destruct Hclass as [->| ->]; [done|apply grown_keeps].
Qed.

Lemma reported_mono isoFile s s' :
  mountedFiles s ⊆ mountedFiles s' →
  skippedMessages s ⊆ skippedMessages s' →
  mountedFails s ⊆ mountedFails s' →
  reported hasher isoFile s → reported hasher isoFile s'.
Proof.
  intros Hm Hk Hf [H|[(t & Ht & H)|[H|[(what & H)|H]]]]; unfold reported.
  - left. by apply Hk.
  - right. left. exists t. split; [done|]. by apply Hm.
  - do 2 right. left. by apply Hf.
  - do 3 right. left. exists what. by apply Hf.
  - do 4 right. by apply Hf.
Qed.

(** When the loop body returns, the image has a message of its own. *)
Lemma mountOne_reported isoFile w s w' s' :
  mountOne os hasher isoFile w s = Returned (w', s') → reported hasher isoFile s'.
Proof.
  assert (Hloop : ∀ w5,
    (let '(mountSuccess, w6, s6) :=
       tryFsTypes os fsTypes isoFile (mountPointOf hasher isoFile) w5 s in
     if mountSuccess then Returned (w6, s6)
     else match fs_remove os w6 (mountPointOf hasher isoFile) with
          | Cpp.Throw e => Raised e (log (sys_remove (mountPointOf hasher isoFile)) w6, s6)
          | Cpp.Ret (_, w7) => Returned (w7, insertFailed (badFSMessage isoFile) s6)
          end) = Returned (w', s') →
    reported hasher isoFile s').
  { intros w5. destruct (tryFsTypes _ _ _ _ _ _) as [[ok w6] s6] eqn:Ht.
    apply tryFsTypes_spec in Ht as (_ & _ & Hres). destruct ok.
    - destruct Hres as (ty & Hty & -> & _). intros [= <- <-].
      right. left. exists ty. split; [done|]. cbn. apply elem_of_union_l.
      by apply elem_of_singleton.
    - destruct (fs_remove os w6 _) as [[removed w7]|e]; [|done]. intros [= <- <-].
      do 4 right. cbn. apply elem_of_union_l. by apply elem_of_singleton. }
  unfold mountOne.
  destruct (isAlreadyMounted os w (mountPointOf hasher isoFile)) as [already w1] eqn:Ha.
  destruct already.
  { intros [= <- <-]. left. cbn. apply elem_of_union_l. by apply elem_of_singleton. }
  cbn [log euid]. destruct (euid w1 =? 0); cbn [negb].
  2:{ intros [= <- <-]. do 2 right. left. cbn. apply elem_of_union_l.
      by apply elem_of_singleton. }
  destruct (fs_exists os _ _) as [[there w3]|e] eqn:He; [|done].
  apply fs_exists_returned in He as [-> _].
  destruct there; [apply Hloop|].
  unfold fs_create_directory. cbn [log nodes trace euid].
  destruct (nodes w1 !! _); cbn [mbind exc_bind Cpp.bind]; [apply Hloop|].
  destruct (create_directory_error _ _ _) as [what|]; cbn [mbind exc_bind Cpp.bind];
    [|apply Hloop].
  intros [= <- <-]. do 3 right. left. exists what. cbn. apply elem_of_union_l.
  by apply elem_of_singleton.
Qed.

(** X10.  Whenever [mountIsoFile] returns for one image, messages went into
    exactly one of the three sets, and one of them is a message of the image:
    skipped, mounted under one of the seven types, or failed. *)
Theorem returned_image_is_in_one_class isoFile w s w' s' :
  mountIsoFile os hasher [isoFile] w s = Returned (w', s') →
  (∃ c msgs, msgs ≠ ∅ ∧ s' = grown c msgs s)
  ∧ reported hasher isoFile s'.
Proof.
  rewrite mountIsoFile_one. intros Hrun. split.
  - pose proof (mountOne_one_class os hasher isoFile w s) as Hone.
    by rewrite Hrun in Hone.
  - by eapply mountOne_reported.
Qed.

(** What the loop body leaves alone: the user, and every entry of the file
    system other than the image's own mount point. *)
Lemma mountOne_frame isoFile w s :
  euid (final_state (mountOne os hasher isoFile w s)).1 = euid w
  ∧ ∀ path, path ≠ mountPointOf hasher isoFile →
      nodes (final_state (mountOne os hasher isoFile w s)).1 !! path = nodes w !! path.
Proof.
  assert (Hloop : ∀ w5,
    euid w5 = euid w →
    (∀ path, path ≠ mountPointOf hasher isoFile → nodes w5 !! path = nodes w !! path) →
    let r := (let '(mountSuccess, w6, s6) :=
                tryFsTypes os fsTypes isoFile (mountPointOf hasher isoFile) w5 s in
              if mountSuccess then Returned (w6, s6)
              else match fs_remove os w6 (mountPointOf hasher isoFile) with
                   | Cpp.Throw e =>
                       Raised e (log (sys_remove (mountPointOf hasher isoFile)) w6, s6)
                   | Cpp.Ret (_, w7) =>
                       Returned (w7, insertFailed (badFSMessage isoFile) s6)
                   end) in
    euid (final_state r).1 = euid w
    ∧ ∀ path, path ≠ mountPointOf hasher isoFile →
        nodes (final_state r).1 !! path = nodes w !! path).
  { intros w5 He5 Hn5. destruct (tryFsTypes _ _ _ _ _ _) as [[ok w6] s6] eqn:Ht.
    apply tryFsTypes_spec in Ht as (He & _ & Hres). destruct ok.
    - destruct Hres as (ty & _ & _ & Hn). cbn. split; [congruence|].
      intros path Hpath. rewrite Hn, lookup_insert_ne by done. by apply Hn5.
    - destruct Hres as [Hn _].
      destruct (fs_remove os w6 _) as [[removed w7]|e] eqn:Hr; cbn.
      + apply fs_remove_returned in Hr as (He7 & Hn7 & _). split; [congruence|].
        intros path Hpath. rewrite Hn7, lookup_delete_ne by done. rewrite Hn.
        by apply Hn5.
      + split; [congruence|]. intros path Hpath. rewrite Hn. by apply Hn5. }
  unfold mountOne.
  destruct (isAlreadyMounted os w (mountPointOf hasher isoFile)) as [already w1] eqn:Ha.
  assert (w1 = log (sys_statvfs (mountPointOf hasher isoFile)) w) as ->.
  { by rewrite <- (isAlreadyMounted_world os), Ha. }
  destruct already; [done|].
  cbn [log euid]. destruct (euid w =? 0); cbn [negb]; [|done].
  destruct (fs_exists os _ _) as [[there w3]|e] eqn:Hex; [|done].
  apply fs_exists_returned in Hex as [-> _].
  destruct there; [by apply Hloop|].
  unfold fs_create_directory. cbn [log nodes trace euid].
  destruct (nodes w !! _) eqn:Hnode; cbn [mbind exc_bind Cpp.bind]; [by apply Hloop|].
  destruct (create_directory_error _ _ _); cbn [mbind exc_bind Cpp.bind]; [done|].
  apply Hloop; [done|]. intros path Hpath. cbn. by rewrite lookup_insert_ne.
Qed.

(** X11.  The progress of [mountIsoFile] through a list: what it does on a list
    that is two lists in a row is what it does on the first, followed, if it
    returned, by what it does on the second; an exception on an image ends the
    call, and the images after it are not looked at. *)
Theorem mountIsoFile_app (l1 l2 : list string) (w : world) (s : outcome_sets) :
  mountIsoFile os hasher (l1 ++ l2) w s
  = match mountIsoFile os hasher l1 w s with
    | Returned (w', s') => mountIsoFile os hasher l2 w' s'
    | Raised e ws => Raised e ws
    end.
Proof.
  revert w s. induction l1 as [|isoFile l1 IH]; intros w s; [done|].
  cbn [app mountIsoFile].
  destruct (mountOne os hasher isoFile w s) as [[w' s']|e ws]; [apply IH|done].
Qed.

(** X12.  What a call of [mountIsoFile] keeps, whether it returns or is left by an
    exception: the user is the same, the calls made before are still there
    with new ones after them, no entry of the file system other than the
    mount points of the images of the list has changed, and no message has
    left any of the three sets. *)
Theorem mountIsoFile_keeps (isoFilesToMount : list string) (w : world) (s : outcome_sets) :
  euid (final_state (mountIsoFile os hasher isoFilesToMount w s)).1 = euid w
  ∧ (∃ evs, trace (final_state (mountIsoFile os hasher isoFilesToMount w s)).1
            = trace w ++ evs)
  ∧ (∀ path, (∀ isoFile, isoFile ∈ isoFilesToMount → path ≠ mountPointOf hasher isoFile) →
       nodes (final_state (mountIsoFile os hasher isoFilesToMount w s)).1 !! path
       = nodes w !! path)
  ∧ mountedFiles s ⊆ mountedFiles (final_state (mountIsoFile os hasher isoFilesToMount w s)).2
  ∧ skippedMessages s
    ⊆ skippedMessages (final_state (mountIsoFile os hasher isoFilesToMount w s)).2
  ∧ mountedFails s ⊆ mountedFails (final_state (mountIsoFile os hasher isoFilesToMount w s)).2.
Proof.
  revert w s. induction isoFilesToMount as [|isoFile rest IH]; intros w s.
  - cbn. split_and!; try done. exists []. by rewrite app_nil_r.
  - cbn [mountIsoFile].
    pose proof (mountOne_frame isoFile w s) as [He Hn].
    pose proof (mountOne_calls os hasher isoFile w s) as [evs Ht].
    pose proof (mountOne_one_class os hasher isoFile w s) as Hclass.
    destruct (mountOne os hasher isoFile w s) as [[w1 s1]|e [w1 s1]]; cbn in He, Hn, Ht.
    + destruct Hclass as (c & msgs & _ & ->).
      destruct (IH w1 (grown c msgs s)) as (He' & (evs' & Ht') & Hn' & Hm & Hk & Hf).
      split_and!.
      * congruence.
      * eexists. by rewrite Ht', Ht, <- app_assoc.
      * intros path Hpath. rewrite Hn'.
        -- apply Hn, Hpath. by left.
        -- intros f Hf'. apply Hpath. by right.
      * etrans; [|exact Hm]. apply grown_keeps.
      * etrans; [|exact Hk]. apply grown_keeps.
      * etrans; [|exact Hf]. apply grown_keeps.
    + cbn. split_and!; try done.
      * by eexists.
      * intros path Hpath. apply Hn, Hpath. by left.
      * destruct Hclass as [->| ->]; [done|apply grown_keeps].
      * destruct Hclass as [->| ->]; [done|apply grown_keeps].
      * destruct Hclass as [->| ->]; [done|apply grown_keeps].
Qed.

End EngineMore.

(** The statements above on the image [/data/x.iso]. *)

Lemma first_type_that_mounts_wins_witness :
  ∃ w' evs,
    mountIsoFile os_udf_mounts length_hasher ["/data/x.iso"] (world_of 0 []) no_outcomes
      = Returned (w', insertMounted
                        (mountedFileInfo "/data/x.iso"
                           (mountPointOf length_hasher "/data/x.iso") "udf") no_outcomes)
    ∧ nodes w' !! mountPointOf length_hasher "/data/x.iso"
      = Some (MountedFs (loop_f_flag os_udf_mounts))
    ∧ trace w' = trace (world_of 0 []) ++ evs
    ∧ omap mount_call_of evs
      = attempts "/data/x.iso" (mountPointOf length_hasher "/data/x.iso")
          (["iso9660"] ++ ["udf"])
    ∧ Forall (λ c, ¬ is_remove c) evs.
Proof.
  apply (first_type_that_mounts_wins os_udf_mounts length_hasher ["iso9660"] "udf"
           ["hfsplus"; "rockridge"; "joliet"; "isofs"; "auto"] "/data/x.iso"
           (world_of 0 []) no_outcomes).
  - reflexivity.
  - vm_compute. reflexivity.
  - reflexivity.
  - intros w0. reflexivity.
  - intros w0. reflexivity.
  - intros w0 t Ht. apply list_elem_of_singleton in Ht. subst t. vm_compute. discriminate.
  - intros w0. vm_compute. reflexivity.
Defined.

Lemma create_failure_is_reported_witness :
  (∃ w',
     mountIsoFile os_readonly_mnt length_hasher ["/data/x.iso"] (world_of 0 []) no_outcomes
       = Returned (w', insertFailed
                         (createFailedMessage (mountPointOf length_hasher "/data/x.iso")
                            "Read-only file system") no_outcomes)
     ∧ nodes w' = nodes (world_of 0 [])
     ∧ trace w' = trace (world_of 0 [])
                  ++ [sys_statvfs (mountPointOf length_hasher "/data/x.iso"); sys_geteuid;
                      sys_exists (mountPointOf length_hasher "/data/x.iso");
                      sys_create_directory (mountPointOf length_hasher "/data/x.iso")])
  ∧ ∃ w',
      mountIsoFile os_long_names length_hasher ["/data/x.iso"] (world_of 0 []) no_outcomes
        = Raised (Cpp.filesystem_error "File name too long") (w', no_outcomes)
      ∧ nodes w' = nodes (world_of 0 [])
      ∧ trace w' = trace (world_of 0 [])
                   ++ [sys_statvfs (mountPointOf length_hasher "/data/x.iso"); sys_geteuid;
                       sys_exists (mountPointOf length_hasher "/data/x.iso")].
Proof.
  split.
  - apply (create_failure_is_reported os_readonly_mnt length_hasher "/data/x.iso"
             (world_of 0 []) no_outcomes "Read-only file system").
    + vm_compute. reflexivity.
    + reflexivity.
    + intros w0. reflexivity.
  - apply (create_failure_is_reported os_long_names length_hasher "/data/x.iso"
             (world_of 0 []) no_outcomes "File name too long").
    + vm_compute. reflexivity.
    + reflexivity.
    + intros w0. reflexivity.
Defined.



Lemma returned_image_is_in_one_class_witness :
  (∃ c msgs,
     msgs ≠ ∅
     ∧ insertFailed (rootRequiredMessage "/data/x.iso") no_outcomes
       = grown c msgs no_outcomes)
  ∧ reported length_hasher "/data/x.iso"
      (insertFailed (rootRequiredMessage "/data/x.iso") no_outcomes).
Proof.
  apply (returned_image_is_in_one_class os_nothing_mounts length_hasher "/data/x.iso"
           (world_of 1000 []) no_outcomes
           (World 1000 ∅ [sys_statvfs "/mnt/iso_x_b0000"; sys_geteuid])
           (insertFailed (rootRequiredMessage "/data/x.iso") no_outcomes)).
  vm_compute. reflexivity.
Defined.

(** ** More on the two scans *)

Lemma size_insert_le (x : string) (X : gset string) : (size ({[x]} ∪ X) ≤ S (size X))%nat.
Proof.
  rewrite size_union_alt, size_singleton.
  assert (Hsub : X ∖ {[x]} ⊆ X) by (intros y [Hy _]%elem_of_difference; exact Hy).
  apply subseteq_size in Hsub. lia.
Qed.

(** X13.  A range visits exactly the indices between its two bounds, each once,
    [|end - start| + 1] of them, whichever bound is the larger. *)
Theorem range_visits_what_lies_between (start end_ : Z) :
  (∀ i, i ∈ rangeIndices start end_ ↔ Z.min start end_ ≤ i ≤ Z.max start end_)
  ∧ NoDup (rangeIndices start end_)
  ∧ Z.of_nat (List.length (rangeIndices start end_)) = Z.abs (end_ - start) + 1
  ∧ head (rangeIndices start end_) = Some start.
Proof.
  unfold rangeIndices. destruct (Z.leb_spec start end_) as [Hle|Hgt].
  - split_and!.
    + intros i. rewrite elem_of_seqZ. lia.
    + apply NoDup_seqZ.
    + rewrite length_seqZ. lia.
    + rewrite seqZ_cons by lia. done.
  - split_and!.
    + intros i. rewrite list_elem_of_fmap. split.
      * intros (k & -> & Hk%elem_of_seqZ). lia.
      * intros Hi. exists (start - i). split; [lia|]. apply elem_of_seqZ. lia.
    + apply NoDup_fmap_2; [|apply NoDup_seqZ]. intros x y. lia.
    + rewrite length_fmap, length_seqZ. lia.
    + rewrite seqZ_cons by lia. cbn. f_equal. lia.
Qed.

Lemma isdigit_not_dash (c : ascii) : Cpp.isdigit c = true → c ≠ "-"%char.
Proof. intros H ->. discriminate H. Qed.

Lemma find_dash_after_digits (digits rest : string) :
  Cpp.all_of Cpp.isdigit digits = true →
  Cpp.find "-" (digits +:+ String "-" rest) = Some (String.length digits).
Proof.
  induction digits as [|c r IH]; intros Hd.
  - reflexivity.
  - cbn in Hd. apply andb_true_iff in Hd as [Hc Hr].
    rewrite app_cons. cbn [Cpp.find String.length].
    rewrite decide_False by (by apply isdigit_not_dash). by rewrite IH.
Qed.

Lemma count_dash_digits (digits : string) :
  Cpp.all_of Cpp.isdigit digits = true → Cpp.count "-" digits = 0%nat.
Proof.
  induction digits as [|c r IH]; intros Hd; [done|].
  cbn in Hd. apply andb_true_iff in Hd as [Hc Hr]. cbn [Cpp.count].
  rewrite decide_False by (by apply isdigit_not_dash). by rewrite IH.
Qed.

Lemma substring_prefix (s t : string) : substring 0 (String.length s) (s +:+ t) = s.
Proof.
  induction s as [|c r IH]; [by destruct t|].
  rewrite app_cons. cbn. by rewrite IH.
Qed.

Lemma substring_nothing (s : string) (k : nat) : substring k 0 s = EmptyString.
Proof. revert k. induction s as [|c r IH]; intros [|k]; cbn; auto. Qed.

Lemma stoi_throws (s : string) (e : Cpp.exn) :
  Cpp.stoi s = Cpp.Throw e → e = Cpp.invalid_argument ∨ e = Cpp.out_of_range.
Proof. unfold Cpp.stoi. intros H. repeat case_match; simplify_eq; auto. Qed.

Section SelectionMore.

Variable maxThreads : nat.
Variable isAllZeros : string → bool.
Variable isNumeric : string → bool.
Variable isoFiles : list string.

Lemma countRange_ceiling (indices : list Z) (tokens : gset string) :
  (size tokens < maxThreads)%nat →
  (size (countRange maxThreads indices tokens) ≤ maxThreads)%nat.
Proof.
  revert tokens. induction indices as [|i rest IH]; intros tokens Hlt; [cbn; lia|].
  cbn [countRange].
  set (tokens' := if decide (i ≠ 0) then {[Cpp.to_string i]} ∪ tokens else tokens).
  assert (size tokens' ≤ S (size tokens))%nat.
  { subst tokens'. case_decide; [apply size_insert_le|lia]. }
  destruct (Nat.leb_spec maxThreads (size tokens')); [lia|by apply IH].
Qed.

Lemma countLoop_ceiling (toks : list string) (tokens0 tokens : gset string) :
  (size tokens0 ≤ maxThreads)%nat →
  countLoop maxThreads isoFiles toks tokens0 = Cpp.Ret tokens →
  (size tokens ≤ maxThreads)%nat.
Proof.
  revert tokens0. induction toks as [|tokenCount rest IH]; intros tokens0 Hle Hrun.
  - cbn in Hrun. by simplify_eq.
  - cbn [countLoop] in Hrun.
    destruct (Nat.ltb_spec (size tokens0) maxThreads) as [Hlt|Hge]; cbn [negb] in Hrun;
      [|by simplify_eq].
    case_decide; [by eapply IH|].
    destruct (1 <? _)%nat; [by eapply IH|].
    destruct (Cpp.find "-" tokenCount) as [dashPos|].
    + destruct (_ && _); [|by eapply IH].
      unfold mbind, exc_bind in Hrun.
      destruct (Cpp.stoi (Cpp.substr tokenCount 0 dashPos)) as [startNum|];
        cbn [Cpp.bind] in Hrun; [|discriminate Hrun].
      destruct (Cpp.stoi (Cpp.substr_from tokenCount (S dashPos))) as [endNum|];
        cbn [Cpp.bind] in Hrun; [|discriminate Hrun].
      destruct (_ && _); [|by eapply IH].
      eapply IH; [|exact Hrun]. by apply countRange_ceiling.
    + destruct (Cpp.all_of Cpp.isdigit tokenCount); [|by eapply IH].
      unfold mbind, exc_bind in Hrun.
      destruct (Cpp.stoi tokenCount) as [num|]; cbn [Cpp.bind] in Hrun;
        [|discriminate Hrun].
      destruct (_ && _); [|by eapply IH].
      pose proof (size_insert_le tokenCount tokens0).
      destruct (Nat.leb_spec maxThreads (size ({[tokenCount]} ∪ tokens0)));
        [simplify_eq; lia|].
      eapply IH; [|exact Hrun]. lia.
Qed.

(** X14.  The first scan never counts more tokens than the ceiling, so the number
    of workers it yields is the number of tokens it counted: the [min] with
    [maxThreads] changes nothing. *)
Theorem first_scan_stays_under_ceiling (toks : list string) (tokens : gset string) :
  countLoop maxThreads isoFiles toks ∅ = Cpp.Ret tokens →
  (size tokens ≤ maxThreads)%nat
  ∧ numThreadsOf maxThreads tokens = size tokens.
Proof.
  intros Hrun. apply countLoop_ceiling in Hrun; [|rewrite size_empty; lia].
  split; [done|]. unfold numThreadsOf. lia.
Qed.

(** X15.  A lone slash ends the second scan: whatever follows it in the input
    changes nothing, neither errors nor submissions nor an exception. *)
Theorem slash_ends_the_scan (before after : list string) (sub : submission) :
  selectLoop isAllZeros isNumeric isoFiles (before ++ "/" :: after) sub
  = selectLoop isAllZeros isNumeric isoFiles before sub.
Proof.
  revert sub. induction before as [|token rest IH]; intros sub.
  - cbn [app selectLoop]. by rewrite decide_True.
  - rewrite <- app_comm_cons. cbn [selectLoop].
    repeat first [done | apply IH | case_decide | case_match].
Qed.

(** Submitting a list of fresh, distinct indices queues them in order. *)
Lemma submit_all_fresh (indices : list Z) (sub : submission) :
  NoDup indices →
  (∀ i, i ∈ indices → i ∉ processedIndices sub) →
  queued (foldl (λ acc i, submit i acc) sub indices) = queued sub ++ indices
  ∧ errorQueue (foldl (λ acc i, submit i acc) sub indices) = errorQueue sub
  ∧ totalTasks (foldl (λ acc i, submit i acc) sub indices)
    = totalTasks sub + Z.of_nat (List.length indices).
Proof.
  revert sub. induction indices as [|i rest IH]; intros sub Hnd Hfresh.
  - cbn. rewrite app_nil_r. split_and!; [done..|lia].
  - apply NoDup_cons in Hnd as [Hi Hrest]. cbn [foldl].
    assert (Hsub : submit i sub
              = Submission ({[i]} ∪ processedIndices sub) (processedRanges sub)
                  (errorQueue sub) (queued sub ++ [i]) (totalTasks sub + 1)
                  (activeTaskCount sub + 1)).
    { unfold submit. rewrite decide_False; [done|]. apply Hfresh. by left. }
    destruct (IH (submit i sub) Hrest) as (Hq & He & Ht).
    { intros j Hj. rewrite Hsub. cbn. rewrite elem_of_union, elem_of_singleton.
      intros [->|Hin]; [done|]. apply (Hfresh j); [by right|done]. }
    rewrite Hq, He, Ht, Hsub. cbn. rewrite <- app_assoc. split_and!; [done..|lia].
Qed.

(** X16.  One range token alone submits every index of its range, in the order
    of the loop, however many they are: the ceiling of the first scan does
    not bound the number of tasks. *)
Theorem range_token_submits_whole_range (token : string) (start end_ : Z) :
  readsAsRange isAllZeros isoFiles token start end_ →
  ∃ sub,
    selectLoop isAllZeros isNumeric isoFiles [token] noSubmission = Returned sub
    ∧ queued sub = rangeIndices start end_
    ∧ totalTasks sub = Z.abs (end_ - start) + 1
    ∧ errorQueue sub = [].
Proof.
  intros Hreads.
  destruct (range_recorded isAllZeros isNumeric isoFiles token start end_ [] noSubmission
              Hreads) as [-> _].
  cbn [selectLoop]. eexists. split; [done|].
  unfold submitRange. rewrite decide_False by set_solver.
  destruct (range_visits_what_lies_between start end_) as (_ & Hnd & Hlen & _).
  match goal with |- context [foldl _ ?sub0 _] =>
    destruct (submit_all_fresh (rangeIndices start end_) sub0 Hnd) as (Hq & He & Ht) end.
  { intros i _. cbn. set_solver. }
  rewrite Hq, He, Ht. cbn. split_and!; [done| |done]. lia.
Qed.

Lemma submit_all_errorQueue (indices : list Z) (acc : submission) :
  errorQueue (foldl (λ acc i, submit i acc) acc indices) = errorQueue acc.
Proof.
  revert acc. induction indices as [|i indices IH]; intros acc; [done|].
  cbn. rewrite IH. unfold submit. by case_decide.
Qed.

(** One turn of the second scan: it ends the scan with the state as it
    was, or goes on with a state that has at most one more message. *)
Lemma selectLoop_turn (token : string) (rest : list string) (sub : submission) :
  final_state (selectLoop isAllZeros isNumeric isoFiles (token :: rest) sub) = sub
  ∨ ∃ sub',
      selectLoop isAllZeros isNumeric isoFiles (token :: rest) sub
      = selectLoop isAllZeros isNumeric isoFiles rest sub'
      ∧ (List.length (errorQueue sub') ≤ S (List.length (errorQueue sub)))%nat.
Proof.
  assert (Herr : ∀ error,
            (List.length (errorQueue (addError error sub))
             ≤ S (List.length (errorQueue sub)))%nat).
  { intros error. cbn. rewrite length_app. cbn. lia. }
  cbn [selectLoop].
  case_decide; [by left|].
  destruct (isAllZeros token); [right; eauto|].
  destruct (Cpp.find "-" token) as [dashPos|].
  - destruct (malformedRange token dashPos); [right; eauto|].
    unfold mbind, exc_bind.
    destruct (Cpp.stoi (Cpp.substr token 0 dashPos)) as [start|[]]; cbn [Cpp.bind];
      [|right; eauto|right; eauto|by left].
    destruct (Cpp.stoi (Cpp.substr_from token (S dashPos))) as [end_|[]]; cbn [Cpp.bind];
      [|right; eauto|right; eauto|by left].
    destruct (_ || _); [right; eauto|].
    right. eexists. split; [done|].
    unfold submitRange. case_decide; [lia|]. rewrite submit_all_errorQueue. cbn. lia.
  - destruct (isNumeric token); [|right; eauto].
    destruct (Cpp.stoi token) as [num|e]; [|by left].
    destruct (_ && _).
    + right. eexists. split; [done|]. unfold submit. case_decide; cbn; lia.
    + destruct (_ <? _); right; eauto.
Qed.

(** X17.  Every token leaves at most one message in the error queue. *)
Theorem at_most_one_error_per_token (toks : list string) (sub : submission) :
  (List.length (errorQueue (final_state
                   (selectLoop isAllZeros isNumeric isoFiles toks sub)))
   ≤ List.length (errorQueue sub) + List.length toks)%nat.
Proof.
  revert sub. induction toks as [|token rest IH]; intros sub; [cbn; lia|].
  destruct (selectLoop_turn token rest sub) as [->|(sub' & -> & Hle)]; [lia|].
  specialize (IH sub'). cbn [List.length]. lia.
Qed.

(** X19.  Only a plain number can make the second scan throw: the exception is
    the one [stoi] throws on a token without a hyphen that [isNumeric]
    accepts.  A range never does, its two conversions are in a [try]. *)
Theorem second_scan_throws_only_on_plain_number (toks : list string)
    (sub sub' : submission) (e : Cpp.exn) :
  selectLoop isAllZeros isNumeric isoFiles toks sub = Raised e sub' →
  ∃ before token after,
    toks = before ++ token :: after
    ∧ ("/" ∉ before)
    ∧ Cpp.find "-" token = None
    ∧ isNumeric token = true
    ∧ Cpp.stoi token = Cpp.Throw e
    ∧ (e = Cpp.invalid_argument ∨ e = Cpp.out_of_range).
Proof.
  revert sub. induction toks as [|token rest IH]; intros sub Hrun; [done|].
  assert (Hgo : ∀ sub1, token ≠ "/" →
            selectLoop isAllZeros isNumeric isoFiles rest sub1 = Raised e sub' →
            ∃ before token0 after,
              token :: rest = before ++ token0 :: after
              ∧ ("/" ∉ before)
              ∧ Cpp.find "-" token0 = None
              ∧ isNumeric token0 = true
              ∧ Cpp.stoi token0 = Cpp.Throw e
              ∧ (e = Cpp.invalid_argument ∨ e = Cpp.out_of_range)).
  { intros sub1 Hne Hrest.
    destruct (IH sub1 Hrest) as (before & token0 & after & -> & Hb & Hrest').
    exists (token :: before), token0, after. split; [done|]. split; [|done].
    intros [?|?]%elem_of_cons; [by apply Hne|done]. }
  cbn [selectLoop] in Hrun.
  case_decide as Hslash; [done|].
  destruct (isAllZeros token); [by eapply Hgo|].
  destruct (Cpp.find "-" token) as [dashPos|] eqn:Hdash.
  - destruct (malformedRange token dashPos); [by eapply Hgo|].
    unfold mbind, exc_bind in Hrun.
    destruct (Cpp.stoi (Cpp.substr token 0 dashPos)) as [start|e1] eqn:Hstart;
      cbn [Cpp.bind] in Hrun.
    2:{ destruct (stoi_throws _ _ Hstart) as [-> | ->]; by eapply Hgo. }
    destruct (Cpp.stoi (Cpp.substr_from token (S dashPos))) as [end_|e2] eqn:Hend;
      cbn [Cpp.bind] in Hrun.
    2:{ destruct (stoi_throws _ _ Hend) as [-> | ->]; by eapply Hgo. }
    destruct (_ || _); by eapply Hgo.
  - destruct (isNumeric token) eqn:Hnum; [|by eapply Hgo].
    destruct (Cpp.stoi token) as [num|e0] eqn:Hstoi.
    + destruct (_ && _); [by eapply Hgo|]. destruct (_ <? _); by eapply Hgo.
    + injection Hrun as -> ->. exists [], token, rest.
      split_and!; try done; [by apply not_elem_of_nil|by eapply stoi_throws].
Qed.

(** X20.  A range left without its end, as ["5-"]: the second scan would report
    it as an error and go on, but the first scan reaches it first, calls
    [stoi] on the empty end outside any [try] and is left by the exception.
    The call is over before the pool exists: nothing is queued, no message is
    recorded. *)
Theorem dangling_range_aborts_the_call (digits : string) (rest : list string)
    (input : string) (w : world) (s : outcome_sets) (errors : gset string) :
  digits ≠ EmptyString →
  Cpp.all_of Cpp.isdigit digits = true →
  (0 < maxThreads)%nat →
  Cpp.tokens_of input = (digits +:+ "-") :: rest →
  (∃ e, processAndMountIsoFiles maxThreads isAllZeros isNumeric isoFiles input w s errors
        = (0%nat, afterScan noSubmission (Aborted e) NeverStarted w s errors))
  ∧ ∀ sub, ∃ error,
      selectLoop isAllZeros isNumeric isoFiles ((digits +:+ "-") :: rest) sub
      = selectLoop isAllZeros isNumeric isoFiles rest (addError error sub).
Proof.
  intros Hne Hd Hmax Htoks.
  pose proof (find_dash_after_digits digits EmptyString Hd) as Hfind.
  assert (Hlen : String.length (digits +:+ "-") = S (String.length digits)).
  { rewrite length_app_string. cbn. lia. }
  split.
  - assert (Hthrow : ∃ e, countLoop maxThreads isoFiles ((digits +:+ "-") :: rest) ∅
                          = Cpp.Throw e).
    { cbn [countLoop]. rewrite size_empty.
      destruct (Nat.ltb_spec 0 maxThreads) as [_|?]; [|lia]. cbn [negb].
      destruct digits as [|c r]; [done|]. cbn in Hd.
      apply andb_true_iff in Hd as [Hc Hr].
      rewrite decide_False by (rewrite app_cons; cbn; by apply isdigit_not_dash).
      rewrite count_app, (count_dash_digits (String c r))
        by (cbn; by rewrite Hc, Hr).
      cbn [Cpp.count Nat.add]. rewrite decide_True by done. cbn [Nat.add Nat.ltb Nat.leb].
      rewrite Hfind. unfold Cpp.substr, Cpp.substr_from.
      rewrite substring_prefix, Hlen, Nat.sub_diag, substring_nothing.
      cbn [Cpp.all_of andb]. rewrite Hc, Hr. cbn [andb].
      unfold mbind, exc_bind.
      destruct (Cpp.stoi (String c r)) as [startNum|e]; cbn [Cpp.bind]; by eexists. }
    destruct Hthrow as [e Hthrow]. exists e.
    unfold processAndMountIsoFiles. by rewrite Htoks, Hthrow.
  - intros sub. cbn [selectLoop].
    rewrite decide_False.
    2:{ intros Heq. apply (f_equal String.length) in Heq. rewrite Hlen in Heq.
        cbn in Heq. destruct digits; [done|]. cbn in Heq. lia. }
    destruct (isAllZeros _); [by eexists|].
    rewrite Hfind. unfold malformedRange. rewrite Hlen.
    replace (S (String.length digits) - 1)%nat with (String.length digits) by lia.
    rewrite Nat.eqb_refl, !orb_true_r. by eexists.
Qed.

(** X18.  When the second scan ends, returned or left by an exception,
    [totalTasks], which the scan alone writes, is the number of closures it
    has passed to the pool, one for each element of [processedIndices]. *)
Theorem scan_counters_agree (toks : list string) :
  totalTasks (final_state (selectLoop isAllZeros isNumeric isoFiles toks noSubmission))
    = Z.of_nat (List.length
        (queued (final_state (selectLoop isAllZeros isNumeric isoFiles toks noSubmission))))
  ∧ size (processedIndices
            (final_state (selectLoop isAllZeros isNumeric isoFiles toks noSubmission)))
    = List.length
        (queued (final_state (selectLoop isAllZeros isNumeric isoFiles toks noSubmission)))
  ∧ NoDup (queued (final_state
                     (selectLoop isAllZeros isNumeric isoFiles toks noSubmission))).
Proof.
  destruct (selectLoop_wellFormed isAllZeros isNumeric isoFiles toks)
    as (Hnd & Hq & _ & Ht & _).
  split_and!; [done| |done].
  assert (processedIndices (final_state
            (selectLoop isAllZeros isNumeric isoFiles toks noSubmission))
          = list_to_set (queued (final_state
              (selectLoop isAllZeros isNumeric isoFiles toks noSubmission)))) as ->.
  { apply set_eq. intros i. by rewrite elem_of_list_to_set, Hq. }
  by apply size_list_to_set.
Qed.

End SelectionMore.

Lemma first_scan_stays_under_ceiling_witness :
  ∃ tokens,
    countLoop 2 ["/a/1.iso"; "/a/2.iso"; "/a/3.iso"] ["1-3"] ∅ = Cpp.Ret tokens
    ∧ (size tokens ≤ 2)%nat
    ∧ numThreadsOf 2 tokens = size tokens.
Proof.
  exists (countRange 2 (rangeIndices 1 3) ∅).
  assert (Hrun : countLoop 2 ["/a/1.iso"; "/a/2.iso"; "/a/3.iso"] ["1-3"] ∅
                 = Cpp.Ret (countRange 2 (rangeIndices 1 3) ∅)).
  { vm_compute. reflexivity. }
  split; [exact Hrun|].
  exact (first_scan_stays_under_ceiling 2 ["/a/1.iso"; "/a/2.iso"; "/a/3.iso"] ["1-3"]
           (countRange 2 (rangeIndices 1 3) ∅) Hrun).
Defined.

Lemma range_token_submits_whole_range_witness :
  readsAsRange isAllZeros_spec six_files "5-2" 5 2
  ∧ ∃ sub,
      selectLoop isAllZeros_spec isNumeric_spec six_files ["5-2"] noSubmission
      = Returned sub
      ∧ queued sub = rangeIndices 5 2
      ∧ totalTasks sub = Z.abs (2 - 5) + 1
      ∧ errorQueue sub = [].
Proof.
  assert (Hreads : readsAsRange isAllZeros_spec six_files "5-2" 5 2).
  { split; [discriminate|]. split; [reflexivity|]. exists 1%nat.
    repeat split; vm_compute; reflexivity. }
  split; [exact Hreads|].
  exact (range_token_submits_whole_range isAllZeros_spec isNumeric_spec six_files
           "5-2" 5 2 Hreads).
Defined.

Lemma second_scan_throws_only_on_plain_number_witness :
  selectLoop isAllZeros_spec isNumeric_spec six_files ["2"; "99999999999"; "3"]
    noSubmission
  = Raised Cpp.out_of_range (submit 2 noSubmission)
  ∧ ∃ before token after,
      ["2"; "99999999999"; "3"] = before ++ token :: after
      ∧ ("/" ∉ before)
      ∧ Cpp.find "-" token = None
      ∧ isNumeric_spec token = true
      ∧ Cpp.stoi token = Cpp.Throw Cpp.out_of_range
      ∧ (Cpp.out_of_range = Cpp.invalid_argument ∨ Cpp.out_of_range = Cpp.out_of_range).
Proof.
  assert (Hrun : selectLoop isAllZeros_spec isNumeric_spec six_files
                   ["2"; "99999999999"; "3"] noSubmission
                 = Raised Cpp.out_of_range (submit 2 noSubmission)).
  { vm_compute. reflexivity. }
  split; [exact Hrun|].
  exact (second_scan_throws_only_on_plain_number isAllZeros_spec isNumeric_spec six_files
           ["2"; "99999999999"; "3"] noSubmission (submit 2 noSubmission)
           Cpp.out_of_range Hrun).
Defined.

Lemma dangling_range_aborts_the_call_witness :
  (∃ e, processAndMountIsoFiles 4 isAllZeros_spec isNumeric_spec six_files "5- 1"
          (world_of 0 []) no_outcomes ∅
        = (0%nat, afterScan noSubmission (Aborted e) NeverStarted
                    (world_of 0 []) no_outcomes ∅))
  ∧ ∀ sub, ∃ error,
      selectLoop isAllZeros_spec isNumeric_spec six_files (("5" +:+ "-") :: ["1"]) sub
      = selectLoop isAllZeros_spec isNumeric_spec six_files ["1"] (addError error sub).
Proof.
  apply (dangling_range_aborts_the_call 4 isAllZeros_spec isNumeric_spec six_files
           "5" ["1"] "5- 1" (world_of 0 []) no_outcomes ∅).
  - discriminate.
  - reflexivity.
  - lia.
  - vm_compute. reflexivity.
Defined.

(** ** More on the threads under a schedule *)

Ltac step_inversion Hstep :=
  match type of Hstep with
  | step _ _ _ _ ?a ?st = Some _ =>
      destruct a as [k| |]; cbn [step] in Hstep;
      [ destruct (poolMayRun _ k); [|discriminate Hstep];
        destruct (pending st !! k) as [index|] eqn:Hk; [|discriminate Hstep];
        cbn [mbind option_bind] in Hstep; unfold processTask in Hstep;
        cbn [take validIndices the_world the_sets pending dispatched
             uniqueErrorMessages submittedTasks completedTasks activeTasks
             isProcessingComplete main progress] in Hstep;
        destruct (decide (index ∈ validIndices st)) as [Hseen|Hnew];
        [ injection Hstep as <-
        | destruct (isoFileAt _ index) as [isoFile|] eqn:Hfile; [|discriminate Hstep];
          cbn [mbind option_bind] in Hstep; rewrite mountIsoFile_single in Hstep;
          destruct (mountOne _ _ isoFile (the_world st) (the_sets st))
            as [[w' s']|e [w' s']] eqn:Hmount;
          injection Hstep as <- ]
      | destruct (main st) eqn:Hmain; try discriminate Hstep;
        [ destruct (activeTasks st =? 0) eqn:Hzero; [|discriminate Hstep];
          injection Hstep as <-
        | injection Hstep as <-
        | destruct (progress st) eqn:Hprog; try discriminate Hstep;
          injection Hstep as <- ]
      | destruct (progress st) eqn:Hprog; try discriminate Hstep;
        unfold displayProgressBar in Hstep;
        destruct (isProcessingComplete st) eqn:Hflag; injection Hstep as <- ]
  end.

Section RunMore.

Variable os : os_behaviour.
Variable hasher : string → N.
Variable maxThreads : nat.
Variable isAllZeros : string → bool.
Variable isNumeric : string → bool.
Variable isoFiles : list string.

Lemma isoFileAt_elem_of (i : Z) (isoFile : string) :
  isoFileAt isoFiles i = Some isoFile → isoFile ∈ isoFiles.
Proof.
  unfold isoFileAt. destruct (1 <=? i); [|done]. apply list_elem_of_lookup_2.
Qed.

Lemma step_reporting (numThreads : nat) (a : action) (st st' : run_state) :
  reporting hasher isoFiles st →
  step os hasher isoFiles numThreads a st = Some st' →
  reporting hasher isoFiles st'.
Proof.
  intros (lost & Hlen & Hrep) Hstep.
  assert (Hgrow : ∀ isoFile,
            ∀ i, i ∈ dispatched st →
              i ∈ lost
              ∨ ∃ f, isoFileAt isoFiles i = Some f
                  ∧ reported hasher f
                      (final_state (mountOne os hasher isoFile (the_world st)
                                      (the_sets st))).2).
  { intros isoFile i Hi. destruct (Hrep i Hi) as [?|(f & Hf & Hr)]; [by left|right].
    exists f. split; [done|].
    destruct (mountOne_sets_grow os hasher isoFile (the_world st) (the_sets st))
      as (Hm & Hk & Hf').
    by eapply reported_mono. }
  step_inversion Hstep; unfold reporting; cbn;
    try (exists lost; split; [|done]; try apply length_taken in Hk; lia).
  - exists lost. split; [apply length_taken in Hk; lia|].
    intros i [Hi| ->%list_elem_of_singleton]%elem_of_app.
    + specialize (Hgrow isoFile i Hi). by rewrite Hmount in Hgrow.
    + right. exists isoFile. split; [done|]. by eapply mountOne_reported.
  - exists (index :: lost). split; [apply length_taken in Hk; cbn [List.length]; lia|].
    intros i [Hi| ->%list_elem_of_singleton]%elem_of_app.
    + specialize (Hgrow isoFile i Hi). rewrite Hmount in Hgrow.
      destruct Hgrow as [?|?]; [left; by right|by right].
    + left. by left.
Qed.

Lemma step_keeping (w : world) (s : outcome_sets) (numThreads : nat) (a : action)
    (st st' : run_state) :
  keeping hasher isoFiles w s st →
  step os hasher isoFiles numThreads a st = Some st' →
  keeping hasher isoFiles w s st'.
Proof.
  intros (He & (evs & Ht) & Hn & Hm & Hk' & Hf) Hstep.
  assert (Hone : ∀ index isoFile,
            isoFileAt isoFiles index = Some isoFile →
            euid (final_state (mountOne os hasher isoFile (the_world st) (the_sets st))).1
            = euid w
            ∧ (∃ evs', trace (final_state (mountOne os hasher isoFile (the_world st)
                                (the_sets st))).1 = trace w ++ evs')
            ∧ (∀ path,
                 (∀ f, f ∈ isoFiles → path ≠ mountPointOf hasher f) →
                 nodes (final_state (mountOne os hasher isoFile (the_world st)
                          (the_sets st))).1 !! path = nodes w !! path)
            ∧ mountedFiles s
              ⊆ mountedFiles (final_state (mountOne os hasher isoFile (the_world st)
                                 (the_sets st))).2
            ∧ skippedMessages s
              ⊆ skippedMessages (final_state (mountOne os hasher isoFile (the_world st)
                                    (the_sets st))).2
            ∧ mountedFails s
              ⊆ mountedFails (final_state (mountOne os hasher isoFile (the_world st)
                                 (the_sets st))).2).
  { intros index isoFile Hfile.
    destruct (mountOne_frame os hasher isoFile (the_world st) (the_sets st)) as [He1 Hn1].
    destruct (mountOne_calls os hasher isoFile (the_world st) (the_sets st)) as [evs1 Ht1].
    destruct (mountOne_sets_grow os hasher isoFile (the_world st) (the_sets st))
      as (Hm1 & Hk1 & Hf1).
    split_and!.
    - congruence.
    - eexists. by rewrite Ht1, Ht, <- app_assoc.
    - intros path Hpath. rewrite Hn1; [by apply Hn|].
      apply Hpath. by eapply isoFileAt_elem_of.
    - by etrans.
    - by etrans.
    - by etrans. }
  step_inversion Hstep; unfold keeping; cbn; try (split_and!; by eauto).
  - specialize (Hone index isoFile Hfile). by rewrite Hmount in Hone.
  - specialize (Hone index isoFile Hfile). by rewrite Hmount in Hone.
Qed.

(** X21.  When the call has returned, every submitted index was handed to
    [mountIsoFile] exactly once: the indices dispatched are the indices
    submitted, in the order the workers took them, and the queue is empty. *)
Theorem returned_call_dispatched_each_index_once (input : string) (schedule : list action)
    (w : world) (s : outcome_sets) (errors : gset string) (st : run_state) :
  execute os hasher maxThreads isAllZeros isNumeric isoFiles input schedule w s errors
    = Some st →
  main st = Finished →
  pending st = []
  ∧ dispatched st
    ≡ₚ pending (processAndMountIsoFiles maxThreads isAllZeros isNumeric isoFiles
                  input w s errors).2
  ∧ completedTasks st = Z.of_nat (List.length (dispatched st)).
Proof.
  intros Hrun Hfin.
  destruct (finished_queue_empty os hasher maxThreads isAllZeros isNumeric isoFiles
              input schedule w s errors st Hrun)
    as ((Hsum & Hqueue & _ & Hpc) & (Hnd & _ & _ & Hcover) & Hsub).
  pose proof (processAndMountIsoFiles_scanned maxThreads isAllZeros isNumeric isoFiles
                input w s errors) as (_ & _ & _ & _ & _ & _ & Hnd0 & _).
  rewrite Hfin in Hpc. destruct Hpc as [Hzero _].
  assert (Hempty : pending st = []).
  { destruct (pending st); [done|]. cbn in Hqueue. lia. }
  assert (Hperm : dispatched st
            ≡ₚ pending (processAndMountIsoFiles maxThreads isAllZeros isNumeric isoFiles
                          input w s errors).2).
  { apply NoDup_Permutation; [done..|]. intros i. rewrite Hcover, Hempty, elem_of_nil.
    tauto. }
  split_and!; [done..|]. rewrite Hperm. lia.
Qed.

(** X22.  When the call has returned, every image of the selection is reported:
    each submitted index is an index of the list, and its image has a message
    of its own in [mountedFiles], [skippedMessages] or [mountedFails].  (A
    task left by an exception keeps [activeTaskCount] above zero, so the call
    does not return.) *)
Theorem returned_call_reports_every_image (input : string) (schedule : list action)
    (w : world) (s : outcome_sets) (errors : gset string) (st : run_state) :
  execute os hasher maxThreads isAllZeros isNumeric isoFiles input schedule w s errors
    = Some st →
  main st = Finished →
  ∀ i, i ∈ pending (processAndMountIsoFiles maxThreads isAllZeros isNumeric isoFiles
                      input w s errors).2 →
    ∃ isoFile, isoFileAt isoFiles i = Some isoFile
      ∧ reported hasher isoFile (the_sets st).
Proof.
  intros Hrun Hfin.
  destruct (finished_queue_empty os hasher maxThreads isAllZeros isNumeric isoFiles
              input schedule w s errors st Hrun)
    as ((_ & Hqueue & _ & Hpc) & (_ & _ & _ & Hcover) & _).
  rewrite Hfin in Hpc. destruct Hpc as [Hzero _].
  revert Hrun Hcover. unfold execute.
  pose proof (processAndMountIsoFiles_scanned maxThreads isAllZeros isNumeric isoFiles
                input w s errors) as (_ & Hd & _ & _ & _ & _ & _ & _ & Hsub & Hact & _).
  destruct (processAndMountIsoFiles _ _ _ _ _ _ _ _) as [numThreads st0]. cbn in *.
  intros Hrun Hcover.
  assert (Hinv : reporting hasher isoFiles st).
  { eapply (run_invariant os hasher isoFiles (reporting hasher isoFiles));
      [|..|exact Hrun].
    - intros a st1 st2. apply step_reporting.
    - exists []. rewrite Hd. split; [cbn; lia|]. intros i Hi. by apply elem_of_nil in Hi. }
  destruct Hinv as (lost & Hlen & Hrep).
  assert (lost = []) as -> by (destruct lost; [done|cbn in Hlen; lia]).
  intros i Hi. apply Hcover in Hi as [Hi|Hi].
  - destruct (pending st); [by apply elem_of_nil in Hi|cbn in Hlen; lia].
  - destruct (Hrep i Hi) as [Hin|?]; [by apply elem_of_nil in Hin|done].
Qed.

(** X23.  Whatever the schedule, and wherever it stops: the user is the same, the
    calls made before the call are still there with new ones after them, no
    entry of the file system other than the mount points of the images of
    the list has changed, and no message has left any of the three sets. *)
Theorem workers_keep_the_rest_of_the_system (input : string) (schedule : list action)
    (w : world) (s : outcome_sets) (errors : gset string) (st : run_state) :
  execute os hasher maxThreads isAllZeros isNumeric isoFiles input schedule w s errors
    = Some st →
  euid (the_world st) = euid w
  ∧ (∃ evs, trace (the_world st) = trace w ++ evs)
  ∧ (∀ path, (∀ isoFile, isoFile ∈ isoFiles → path ≠ mountPointOf hasher isoFile) →
       nodes (the_world st) !! path = nodes w !! path)
  ∧ mountedFiles s ⊆ mountedFiles (the_sets st)
  ∧ skippedMessages s ⊆ skippedMessages (the_sets st)
  ∧ mountedFails s ⊆ mountedFails (the_sets st).
Proof.
  unfold execute.
  pose proof (processAndMountIsoFiles_scanned maxThreads isAllZeros isNumeric isoFiles
                input w s errors) as (_ & _ & Hw & Hs & _).
  destruct (processAndMountIsoFiles _ _ _ _ _ _ _ _) as [numThreads st0]. cbn in *.
  intros Hrun.
  eapply (run_invariant os hasher isoFiles (keeping hasher isoFiles w s)); [|..|exact Hrun].
  - intros a st1 st2. apply step_keeping.
  - unfold keeping. rewrite Hw, Hs. split_and!; try done. exists []. by rewrite app_nil_r.
Qed.

(** X24.  The error messages of a call come from the second scan alone: when the
    scan returns, [uniqueErrorMessages] is what it was, with the messages of
    the error queue; the workers add nothing.  When one of the two scans is
    left by an exception, the messages queued until then are lost: the set is
    as it was before the call. *)
Theorem error_messages_come_from_the_scan (input : string) (schedule : list action)
    (w : world) (s : outcome_sets) (errors : gset string) (st : run_state) :
  execute os hasher maxThreads isAllZeros isNumeric isoFiles input schedule w s errors
    = Some st →
  uniqueErrorMessages st
  = match main st with
    | Aborted _ => errors
    | _ => list_to_set
             (errorQueue
                (final_state (selectLoop isAllZeros isNumeric isoFiles
                                (Cpp.tokens_of input) noSubmission)))
           ∪ errors
    end.
Proof.
  unfold execute, processAndMountIsoFiles.
  set (P := λ st0 st1 : run_state,
         uniqueErrorMessages st1 = uniqueErrorMessages st0
         ∧ ((∃ e, main st1 = Aborted e) ↔ (∃ e, main st0 = Aborted e))).
  assert (Hinv : ∀ numThreads st0,
            run os hasher isoFiles numThreads schedule st0 = Some st → P st0 st).
  { intros numThreads st0 Hrun.
    eapply (run_invariant os hasher isoFiles (P st0)); [|..|exact Hrun].
    - intros a st1 st2 [Hu Hab] Hstep. unfold P. rewrite <- Hu, <- Hab.
      step_inversion Hstep; cbn; rewrite ?Hmain; split; try done;
        split; intros [? ?]; done.
    - by split. }
  destruct (countLoop _ _ _ _) as [tokens|e].
  - destruct (selectLoop _ _ _ _ _) as [sub|e sub]; cbn [final_state].
    + case_decide; intros Hrun; apply Hinv in Hrun as [-> Hab]; cbn in *;
        destruct (main st); try done; destruct (proj1 Hab); by eauto.
    + intros Hrun. apply Hinv in Hrun as [-> Hab]. cbn in *.
      destruct (proj2 Hab) as [e' ->]; by eauto.
  - intros Hrun. apply Hinv in Hrun as [-> Hab]. cbn in *.
    destruct (proj2 Hab) as [e' ->]; by eauto.
Qed.

End RunMore.

(** ** The further statements on small selections *)

Lemma returned_call_dispatched_each_index_once_witness :
  ∃ st,
    execute os_udf_mounts length_hasher 4 isAllZeros_spec isNumeric_spec six_files
      "1-3 2-5" five_tasks_schedule (world_of 0 []) no_outcomes ∅ = Some st
    ∧ main st = Finished
    ∧ pending st = []
    ∧ dispatched st
      ≡ₚ pending (processAndMountIsoFiles 4 isAllZeros_spec isNumeric_spec six_files
                      "1-3 2-5" (world_of 0 []) no_outcomes ∅).2
    ∧ completedTasks st = Z.of_nat (List.length (dispatched st)).
Proof.
  assert (Hm : main <$>
            execute os_udf_mounts length_hasher 4 isAllZeros_spec isNumeric_spec six_files
      "1-3 2-5" five_tasks_schedule (world_of 0 []) no_outcomes ∅
            = Some Finished) by (vm_compute; reflexivity).
  destruct (execute os_udf_mounts length_hasher 4 isAllZeros_spec isNumeric_spec six_files
      "1-3 2-5" five_tasks_schedule (world_of 0 []) no_outcomes ∅)
    as [st|] eqn:Hrun; [|discriminate Hm].
  injection Hm as Hm. exists st. split; [reflexivity|]. split; [exact Hm|].
  exact (returned_call_dispatched_each_index_once os_udf_mounts length_hasher 4
           isAllZeros_spec isNumeric_spec six_files "1-3 2-5" five_tasks_schedule
           (world_of 0 []) no_outcomes ∅ st Hrun Hm).
Defined.

Lemma returned_call_reports_every_image_witness :
  ∃ st,
    execute os_udf_mounts length_hasher 4 isAllZeros_spec isNumeric_spec six_files
      "1-3 2-5" five_tasks_schedule (world_of 0 []) no_outcomes ∅ = Some st
    ∧ main st = Finished
    ∧ ∀ i, i ∈ pending (processAndMountIsoFiles 4 isAllZeros_spec isNumeric_spec six_files
                      "1-3 2-5" (world_of 0 []) no_outcomes ∅).2 →
        ∃ isoFile, isoFileAt six_files i = Some isoFile
          ∧ reported length_hasher isoFile (the_sets st).
Proof.
  assert (Hm : main <$>
            execute os_udf_mounts length_hasher 4 isAllZeros_spec isNumeric_spec six_files
      "1-3 2-5" five_tasks_schedule (world_of 0 []) no_outcomes ∅
            = Some Finished) by (vm_compute; reflexivity).
  destruct (execute os_udf_mounts length_hasher 4 isAllZeros_spec isNumeric_spec six_files
      "1-3 2-5" five_tasks_schedule (world_of 0 []) no_outcomes ∅)
    as [st|] eqn:Hrun; [|discriminate Hm].
  injection Hm as Hm. exists st. split; [reflexivity|]. split; [exact Hm|].
  exact (returned_call_reports_every_image os_udf_mounts length_hasher 4
           isAllZeros_spec isNumeric_spec six_files "1-3 2-5" five_tasks_schedule
           (world_of 0 []) no_outcomes ∅ st Hrun Hm).
Defined.

Lemma workers_keep_the_rest_of_the_system_witness :
  ∃ st,
    execute os_udf_mounts length_hasher 4 isAllZeros_spec isNumeric_spec six_files
      "1-3 2-5" five_tasks_schedule (world_of 0 []) no_outcomes ∅ = Some st
    ∧ euid (the_world st) = euid (world_of 0 [])
    ∧ (∃ evs, trace (the_world st) = trace (world_of 0 []) ++ evs)
    ∧ (∀ path,
         (∀ isoFile, isoFile ∈ six_files → path ≠ mountPointOf length_hasher isoFile) →
         nodes (the_world st) !! path = nodes (world_of 0 []) !! path)
    ∧ mountedFiles no_outcomes ⊆ mountedFiles (the_sets st)
    ∧ skippedMessages no_outcomes ⊆ skippedMessages (the_sets st)
    ∧ mountedFails no_outcomes ⊆ mountedFails (the_sets st).
Proof.
  destruct (execute os_udf_mounts length_hasher 4 isAllZeros_spec isNumeric_spec six_files
      "1-3 2-5" five_tasks_schedule (world_of 0 []) no_outcomes ∅)
    as [st|] eqn:Hrun; [|vm_compute in Hrun; discriminate Hrun].
  exists st. split; [reflexivity|].
  exact (workers_keep_the_rest_of_the_system os_udf_mounts length_hasher 4
           isAllZeros_spec isNumeric_spec six_files "1-3 2-5" five_tasks_schedule
           (world_of 0 []) no_outcomes ∅ st Hrun).
Defined.

Lemma error_messages_come_from_the_scan_witness :
  ∃ st,
    execute os_udf_mounts length_hasher 4 isAllZeros_spec isNumeric_spec six_files
      "9 x 2" one_task_schedule (world_of 0 []) no_outcomes ∅ = Some st
    ∧ uniqueErrorMessages st
      = match main st with
        | Aborted _ => ∅
        | _ => list_to_set
                 (errorQueue
                    (final_state (selectLoop isAllZeros_spec isNumeric_spec six_files
                                    (Cpp.tokens_of "9 x 2") noSubmission)))
               ∪ ∅
        end.
Proof.
  destruct (execute os_udf_mounts length_hasher 4 isAllZeros_spec isNumeric_spec six_files
      "9 x 2" one_task_schedule (world_of 0 []) no_outcomes ∅)
    as [st|] eqn:Hrun; [|vm_compute in Hrun; discriminate Hrun].
  exists st. split; [reflexivity|].
  exact (error_messages_come_from_the_scan os_udf_mounts length_hasher 4
           isAllZeros_spec isNumeric_spec six_files "9 x 2" one_task_schedule
           (world_of 0 []) no_outcomes ∅ st Hrun).
Defined.
